(** * The Room actor of AgentWorkspaces: a shallow embedding

    This development embeds the Durable Object class [Room] (the worker's
    [room.ts]) as executable definitions and proves properties of its chat
    history, pinned memory, hydration, reset, heartbeat, tool execution and
    single-flight AI orchestration.

    Conventions of the embedding:
    - a JavaScript string is a [string]; its characters stand for code units
      below 256, and [String.length] is the [.length] of the source;
    - a JavaScript number is a [jsnum]: a finite value (a rational, which
      covers every finite double), [NaN] or an infinity;
    - a [WebSocket] object is named by a [nat]; the four [Map<WebSocket, _>]
      fields are [gmap nat _];
    - every effect on the outside world ([ws.send], [ws.close],
      [storage.put], [setAlarm], [setTimeout], a call of the inference
      binding) is appended to the [trace] of the state, in program order;
    - [Date.now()] is an argument [now] of each handler (one reading for each
      synchronous run), and [crypto.randomUUID()] is an oracle of the host. *)

From stdpp Require Import gmap strings list pretty.
From Stdlib Require Import Ascii QArith.

#[local] Open Scope string_scope.
#[local] Open Scope list_scope.
#[local] Open Scope Z_scope.

(** ** Strings *)

Module Str.

(** White space removed by [String.prototype.trim], among code units
    below 256: TAB, LF, VT, FF, CR, SPACE and NBSP. *)
Definition is_white (c : ascii) : bool :=
  let n := nat_of_ascii c in
  ((9 <=? n)%nat && (n <=? 13)%nat) || (n =? 32)%nat || (n =? 160)%nat.

Fixpoint trimStart (s : string) : string :=
  match s with
  | String c s' => if is_white c then trimStart s' else s
  | EmptyString => EmptyString
  end.

Definition trimEnd (s : string) : string :=
  String.rev (trimStart (String.rev s)).

Definition trim (s : string) : string := trimEnd (trimStart s).

(** [s.startsWith(p)] *)
Definition startsWith (s p : string) : bool := String.prefix p s.

(** [s.slice(n)] for [0 <= n] *)
Fixpoint slice (n : nat) (s : string) : string :=
  match n, s with
  | O, _ => s
  | S n', String _ s' => slice n' s'
  | S _, EmptyString => EmptyString
  end.

(** [String.prototype.toLowerCase] on code units below 256: A-Z and the
    Latin-1 capitals (except the multiplication sign) move up by 32. *)
Definition lower_char (c : ascii) : ascii :=
  let n := nat_of_ascii c in
  if ((65 <=? n)%nat && (n <=? 90)%nat)
     || ((192 <=? n)%nat && (n <=? 222)%nat && negb (n =? 215)%nat)
  then ascii_of_nat (n + 32) else c.

Fixpoint toLowerCase (s : string) : string :=
  match s with
  | String c s' => String (lower_char c) (toLowerCase s')
  | EmptyString => EmptyString
  end.

(** [parts.join(sep)] *)
Fixpoint join (sep : string) (parts : list string) : string :=
  match parts with
  | [] => ""
  | [p] => p
  | p :: rest => p +:+ sep +:+ join sep rest
  end.

(** [a || b] on strings: the empty string is falsy. *)
Definition or_else (a b : string) : string :=
  if String.eqb a "" then b else a.

Definition nl : string := String (ascii_of_nat 10) "".

(** the double quote, as a one-character string *)
Definition dq : string := String (ascii_of_nat 34) "".

End Str.

(** ** Numbers *)

Inductive jsnum :=
| Finite (q : Q)
| NaN
| PosInf
| NegInf.

Module Num.

Definition of_Z (z : Z) : jsnum := Finite (inject_Z z).
Definition of_nat (n : nat) : jsnum := of_Z (Z.of_nat n).

(** [x < y] and [x >= y] of the source, [y] an array length or zero:
    every comparison with [NaN] is false. *)
Definition ltb (x : jsnum) (y : Z) : bool :=
  match x with
  | Finite q => negb (Qle_bool (inject_Z y) q)
  | NegInf => true
  | NaN | PosInf => false
  end.

Definition geb (x : jsnum) (y : Z) : bool :=
  match x with
  | Finite q => Qle_bool (inject_Z y) q
  | PosInf => true
  | NaN | NegInf => false
  end.



(** Rounding toward zero, and the test for an integral value. *)
Definition trunc (q : Q) : Z := Z.quot (Qnum q) (Z.pos (Qden q)).
Definition integral (q : Q) : bool := Z.rem (Qnum q) (Z.pos (Qden q)) =? 0.

End Num.

(** ** Arrays *)

Module Arr.

(** The array index that the property key [i] names, if it names one:
    a non-negative integral number. *)
Definition index (i : jsnum) : option nat :=
  match i with
  | Finite q =>
      if Num.integral q && (0 <=? Num.trunc q)
      then Some (Z.to_nat (Num.trunc q)) else None
  | _ => None
  end.

(** [arr[i]]: an element for an index in range, [undefined] ([None]) for
    every other property key. *)
Definition get {A} (l : list A) (i : jsnum) : option A :=
  k ← index i; l !! k.

(** The actual start index of [splice(start, _)] on an array of length
    [len] (ToIntegerOrInfinity, then clamping). *)
Definition spliceStart (len : nat) (start : jsnum) : nat :=
  match start with
  | NaN | NegInf => 0%nat
  | PosInf => len
  | Finite q =>
      let z := Num.trunc q in
      if z <? 0 then Z.to_nat (Z.max (Z.of_nat len + z) 0)
      else Z.to_nat (Z.min z (Z.of_nat len))
  end.

(** [arr.splice(start, deleteCount)]: the removed elements and the array
    that is left. *)
Definition splice {A} (l : list A) (start : jsnum) (deleteCount : Z)
  : list A * list A :=
  let i := spliceStart (length l) start in
  let k := Z.to_nat (Z.min (Z.max deleteCount 0) (Z.of_nat (length l - i))) in
  (take k (drop i l), take i l ++ drop (i + k) l).

End Arr.

(** ** Exceptions *)

Inductive exn :=
| TypeError (msg : string)
| SyntaxError (msg : string)
| Error (msg : string).

(** [String(err)] *)
Definition String_of_exn (e : exn) : string :=
  match e with
  | TypeError m => "TypeError: " +:+ m
  | SyntaxError m => "SyntaxError: " +:+ m
  | Error m => "Error: " +:+ m
  end.

Inductive outcome (A : Type) :=
| Ret (a : A)
| Throw (e : exn).
Arguments Ret {A} a.
Arguments Throw {A} e.

(** ** Constants *)

Definition HEARTBEAT_INTERVAL_MS : Z := 30000.
Definition STALE_TIMEOUT_MS : Z := 45000.
Definition MAX_HISTORY : nat := 50.
Definition AI_CONTEXT_MESSAGES : nat := 30.
Definition HISTORY_FLUSH_INTERVAL : nat := 5.
Definition PINNED_FLUSH_DELAY_MS : Z := 1000.

Definition DEFAULT_SYSTEM_PROMPT : string :=
  "You are a friendly AI participant in a collaborative chat room called AgentWorkspaces. Chat naturally, be warm and conversational, and engage with what people are saying. You can also help with tasks, answer questions, and summarize discussions when asked. Keep responses concise but never robotic — you're part of the group, not a help desk.".

(** ** Values of unknown type

    A field that the source tests with [typeof], and the argument object of
    a tool call, is a JSON value. *)

#[local] Unset Elimination Schemes.
Inductive jsval :=
| VUndefined
| VNull
| VBool (b : bool)
| VNum (n : jsnum)
| VStr (s : string)
| VArr (items : list jsval)
| VObj (props : list (string * jsval)).
#[local] Set Elimination Schemes.

(** What the host gives and the source only calls: the conversions of
    numbers and of non-primitive values, and the source of fresh ids. *)
Class Host := {
  (** [String(n)] and the interpolation of a number in a template *)
  numberToString : jsnum -> string;
  (** [Number(s)] on a string *)
  stringToNumber : string -> jsnum;
  (** [String(v)] on an array or object: a string, or the TypeError of a
      value that cannot be converted to a primitive *)
  objectToString : jsval -> outcome string;
  (** [Number(v)] on an array or object *)
  objectToNumber : jsval -> outcome jsnum;
  (** the [n]-th value returned by [crypto.randomUUID()] *)
  randomUUID : nat -> string;
}.

(** ** Data model *)

Module ChatEntry.
Record t := mk { user : string; text : string; ts : Z }.
End ChatEntry.

Module TodoItem.
Record t := mk { text : string; done : bool }.
End TodoItem.

Module PinnedMemory.
Record t := mk { memories : list string; todos : list TodoItem.t }.
Definition empty : t := mk [] [].
End PinnedMemory.

Module Artifact.
Record t := mk {
  id : string;
  type : string;
  title : string;
  content : string;
  createdAt : Z;
  createdBy : string;
}.
(** An item of the artifact index, [{ id, type, title, createdAt,
    createdBy }]: the artifact without its content. *)
Record item := mkItem {
  item_id : string;
  item_type : string;
  item_title : string;
  item_createdAt : Z;
  item_createdBy : string;
}.
Definition to_item (a : t) : item :=
  mkItem (id a) (type a) (title a) (createdAt a) (createdBy a).
End Artifact.

Module RoomSettings.
Record t := mk { systemPrompt : string; aiAutoRespond : bool }.
End RoomSettings.

Definition DEFAULT_SETTINGS : RoomSettings.t :=
  RoomSettings.mk DEFAULT_SYSTEM_PROMPT false.

(** ** The persistent store

    Four fixed keys and the single alarm.  A key that was never written is
    [None] ([map.has(key)] is false). *)

(** The value under [SK_PINNED] has the type [PinnedMemory] or the legacy
    one whose todos are a [string[]].  The source tells them apart by
    [todos.length > 0 && typeof todos[0] === "string"], so the legacy
    representation is a non-empty list of strings, and the empty array is an
    (empty) array of items. *)
Inductive StoredTodos :=
| StoredItems (items : list TodoItem.t)
| StoredLegacy (first : string) (rest : list string).

Module StoredPinned.
Record t := mk { memories : list string; todos : StoredTodos }.
Definition of_pinned (p : PinnedMemory.t) : t :=
  mk (PinnedMemory.memories p) (StoredItems (PinnedMemory.todos p)).
End StoredPinned.

(** The value under [SK_SETTINGS] is read as a [Partial<RoomSettings>]. *)
Module StoredSettings.
Record t := mk { systemPrompt : option string; aiAutoRespond : option bool }.
Definition of_settings (s : RoomSettings.t) : t :=
  mk (Some (RoomSettings.systemPrompt s)) (Some (RoomSettings.aiAutoRespond s)).
End StoredSettings.

#[local] Set Primitive Projections.
Record Storage := mkStorage {
  sk_pinned : option StoredPinned.t;
  sk_history : option (list ChatEntry.t);
  sk_artifacts : option (list Artifact.t);
  sk_settings : option StoredSettings.t;
  alarmAt : option Z;
}.
#[local] Unset Primitive Projections.

Definition empty_storage : Storage := mkStorage None None None None None.

(** One key with its value, as written by [storage.put]. *)
Inductive Write :=
| WPinned (p : PinnedMemory.t)
| WHistory (h : list ChatEntry.t)
| WArtifacts (a : list Artifact.t)
| WSettings (s : RoomSettings.t).

Definition apply_write (w : Write) (s : Storage) : Storage :=
  let '(mkStorage p h a st al) := s in
  match w with
  | WPinned v => mkStorage (Some (StoredPinned.of_pinned v)) h a st al
  | WHistory v => mkStorage p (Some v) a st al
  | WArtifacts v => mkStorage p h (Some v) st al
  | WSettings v => mkStorage p h a (Some (StoredSettings.of_settings v)) al
  end.

Definition set_alarmAt (t : option Z) (s : Storage) : Storage :=
  let '(mkStorage p h a st _) := s in mkStorage p h a st t.

(** ** Frames received from clients

    A frame is text that [JSON.parse] accepts, text that it rejects, or
    binary.  A parsed frame is given by its [type] and the fields that the
    handler reads: a field that the source tests with [typeof] is a
    [jsval]; a field that it casts ([as string], [as number]) has the type
    of the cast, [None] when the source provides for its absence with
    [||].  An absent [kind] or [mode] behaves as any other string that is
    none of the expected ones. *)

Inductive ClientMsg :=
| MPing
| MHello (clientId user : jsval)
| MMemoryAdd (kind : string) (text : option string)
| MMemoryRemove (kind : string) (index : jsnum)
| MMemoryToggle (index : jsnum)
| MSettingsUpdate (systemPrompt aiAutoRespond : jsval)
| MArtifactCreate (mode : string) (artifactType title content user : option string)
| MArtifactDelete (id : string)
| MArtifactGet (id : string)
| MArtifactList
| MChat (user text : jsval)
| MUnknown (type : string).

Inductive RawFrame :=
| Binary
| Text (parsed : option ClientMsg).

(** ** Frames pushed to clients *)

Inductive Frame :=
| FChat (entry : ChatEntry.t)
| FPresence (count : nat)
| FMemoryUpdate (pinned : PinnedMemory.t)
| FArtifactList (items : list Artifact.item)
| FArtifactCreated (artifact : Artifact.t)
| FArtifactDeleted (id : string)
| FArtifactDetail (artifact : Artifact.t)
| FSettingsUpdate (settings : RoomSettings.t)
| FExport (pinned : PinnedMemory.t) (history : list ChatEntry.t)
          (artifacts : list Artifact.t)
| FClearChat
| FPong.

(** ** Connections

    [sockets] is the array returned by [this.ctx.getWebSockets()];
    [readyState] gives the current [ws.readyState] of each of them. *)

Inductive ReadyState := CONNECTING | OPEN | CLOSING | CLOSED.

#[global] Instance ReadyState_eq_dec : EqDecision ReadyState.
Proof. solve_decision. Defined.

(** ** The transcript of an AI turn *)

Module Msg.
Record t := mk { role : string; name : option string; content : string }.
End Msg.

(** ** What the inference binding returns

    [response] is [None] when the field is absent or not a string;
    [tool_calls] is empty when the field is absent.  The [arguments] of a
    call are an object, or a string with what [JSON.parse] makes of it. *)

Inductive ToolArgs :=
| ArgsValue (v : jsval)
| ArgsText (parsed : outcome jsval).

Module ToolCall.
Record t := mk { name : string; arguments : ToolArgs }.
End ToolCall.

Module AIResult.
Record t := mk { response : option string; tool_calls : list ToolCall.t }.
End AIResult.

(** ** AI turns in flight

    A promise returned by [callAI] that has not settled yet: the
    continuation chained on it (by [triggerAI] or by [artifact.create]),
    the inference call it is waiting for, and its [messages] array. *)

Inductive TurnKind :=
| ChatTurn
| ArtifactTurn (artifactType title userName : string).

Inductive TurnPhase := FirstCall | SecondCall.

Module Turn.
Record t := mk { kind : TurnKind; phase : TurnPhase; messages : list Msg.t }.
End Turn.

(** ** Effects, in program order *)

Inductive Effect :=
| Send (ws : nat) (f : Frame)
| Close (ws : nat) (code : Z) (reason : string)
| Put (w : Write)
| PutAll (ws : list Write)
| SetAlarm (at_ : Z)
| SetTimeout (delay : Z)
| RunAI (messages : list Msg.t) (withTools : bool).

(** ** The actor *)

#[local] Set Primitive Projections.
Record Room := mkRoom {
  (* the platform: accepted sockets, store, promises, effects so far *)
  sockets : list nat;
  readyState : gmap nat ReadyState;
  storage : Storage;
  pendingAI : list Turn.t;
  uuidCalls : nat;
  nextConnId : nat;
  trace : list Effect;
  (* the fields of the class *)
  connIds : gmap nat string;
  clientIds : gmap nat string;
  userNames : gmap nat string;
  lastSeen : gmap nat Z;
  heartbeatAlarm : bool;
  history : list ChatEntry.t;
  pinned : PinnedMemory.t;
  artifacts : list Artifact.t;
  settings : RoomSettings.t;
  aiRunning : bool;
  loaded : bool;
  historyDirty : nat;
  pinnedFlushTimer : bool;
}.
#[local] Unset Primitive Projections.

Definition set_sockets (v : list nat) (r : Room) : Room :=
  let '(mkRoom _ a2 a3 a4 a5 a6 a7 a8 a9 a10 a11 a12 a13 a14 a15 a16 a17 a18 a19 a20) := r in
  mkRoom v a2 a3 a4 a5 a6 a7 a8 a9 a10 a11 a12 a13 a14 a15 a16 a17 a18 a19 a20.

Definition set_readyState (v : gmap nat ReadyState) (r : Room) : Room :=
  let '(mkRoom a1 _ a3 a4 a5 a6 a7 a8 a9 a10 a11 a12 a13 a14 a15 a16 a17 a18 a19 a20) := r in
  mkRoom a1 v a3 a4 a5 a6 a7 a8 a9 a10 a11 a12 a13 a14 a15 a16 a17 a18 a19 a20.

Definition set_storage (v : Storage) (r : Room) : Room :=
  let '(mkRoom a1 a2 _ a4 a5 a6 a7 a8 a9 a10 a11 a12 a13 a14 a15 a16 a17 a18 a19 a20) := r in
  mkRoom a1 a2 v a4 a5 a6 a7 a8 a9 a10 a11 a12 a13 a14 a15 a16 a17 a18 a19 a20.

Definition set_pendingAI (v : list Turn.t) (r : Room) : Room :=
  let '(mkRoom a1 a2 a3 _ a5 a6 a7 a8 a9 a10 a11 a12 a13 a14 a15 a16 a17 a18 a19 a20) := r in
  mkRoom a1 a2 a3 v a5 a6 a7 a8 a9 a10 a11 a12 a13 a14 a15 a16 a17 a18 a19 a20.

Definition set_uuidCalls (v : nat) (r : Room) : Room :=
  let '(mkRoom a1 a2 a3 a4 _ a6 a7 a8 a9 a10 a11 a12 a13 a14 a15 a16 a17 a18 a19 a20) := r in
  mkRoom a1 a2 a3 a4 v a6 a7 a8 a9 a10 a11 a12 a13 a14 a15 a16 a17 a18 a19 a20.

Definition set_nextConnId (v : nat) (r : Room) : Room :=
  let '(mkRoom a1 a2 a3 a4 a5 _ a7 a8 a9 a10 a11 a12 a13 a14 a15 a16 a17 a18 a19 a20) := r in
  mkRoom a1 a2 a3 a4 a5 v a7 a8 a9 a10 a11 a12 a13 a14 a15 a16 a17 a18 a19 a20.

Definition set_trace (v : list Effect) (r : Room) : Room :=
  let '(mkRoom a1 a2 a3 a4 a5 a6 _ a8 a9 a10 a11 a12 a13 a14 a15 a16 a17 a18 a19 a20) := r in
  mkRoom a1 a2 a3 a4 a5 a6 v a8 a9 a10 a11 a12 a13 a14 a15 a16 a17 a18 a19 a20.

Definition set_connIds (v : gmap nat string) (r : Room) : Room :=
  let '(mkRoom a1 a2 a3 a4 a5 a6 a7 _ a9 a10 a11 a12 a13 a14 a15 a16 a17 a18 a19 a20) := r in
  mkRoom a1 a2 a3 a4 a5 a6 a7 v a9 a10 a11 a12 a13 a14 a15 a16 a17 a18 a19 a20.

Definition set_clientIds (v : gmap nat string) (r : Room) : Room :=
  let '(mkRoom a1 a2 a3 a4 a5 a6 a7 a8 _ a10 a11 a12 a13 a14 a15 a16 a17 a18 a19 a20) := r in
  mkRoom a1 a2 a3 a4 a5 a6 a7 a8 v a10 a11 a12 a13 a14 a15 a16 a17 a18 a19 a20.

Definition set_userNames (v : gmap nat string) (r : Room) : Room :=
  let '(mkRoom a1 a2 a3 a4 a5 a6 a7 a8 a9 _ a11 a12 a13 a14 a15 a16 a17 a18 a19 a20) := r in
  mkRoom a1 a2 a3 a4 a5 a6 a7 a8 a9 v a11 a12 a13 a14 a15 a16 a17 a18 a19 a20.

Definition set_lastSeen (v : gmap nat Z) (r : Room) : Room :=
  let '(mkRoom a1 a2 a3 a4 a5 a6 a7 a8 a9 a10 _ a12 a13 a14 a15 a16 a17 a18 a19 a20) := r in
  mkRoom a1 a2 a3 a4 a5 a6 a7 a8 a9 a10 v a12 a13 a14 a15 a16 a17 a18 a19 a20.

Definition set_heartbeatAlarm (v : bool) (r : Room) : Room :=
  let '(mkRoom a1 a2 a3 a4 a5 a6 a7 a8 a9 a10 a11 _ a13 a14 a15 a16 a17 a18 a19 a20) := r in
  mkRoom a1 a2 a3 a4 a5 a6 a7 a8 a9 a10 a11 v a13 a14 a15 a16 a17 a18 a19 a20.

Definition set_history (v : list ChatEntry.t) (r : Room) : Room :=
  let '(mkRoom a1 a2 a3 a4 a5 a6 a7 a8 a9 a10 a11 a12 _ a14 a15 a16 a17 a18 a19 a20) := r in
  mkRoom a1 a2 a3 a4 a5 a6 a7 a8 a9 a10 a11 a12 v a14 a15 a16 a17 a18 a19 a20.

Definition set_pinned (v : PinnedMemory.t) (r : Room) : Room :=
  let '(mkRoom a1 a2 a3 a4 a5 a6 a7 a8 a9 a10 a11 a12 a13 _ a15 a16 a17 a18 a19 a20) := r in
  mkRoom a1 a2 a3 a4 a5 a6 a7 a8 a9 a10 a11 a12 a13 v a15 a16 a17 a18 a19 a20.

Definition set_artifacts (v : list Artifact.t) (r : Room) : Room :=
  let '(mkRoom a1 a2 a3 a4 a5 a6 a7 a8 a9 a10 a11 a12 a13 a14 _ a16 a17 a18 a19 a20) := r in
  mkRoom a1 a2 a3 a4 a5 a6 a7 a8 a9 a10 a11 a12 a13 a14 v a16 a17 a18 a19 a20.

Definition set_settings (v : RoomSettings.t) (r : Room) : Room :=
  let '(mkRoom a1 a2 a3 a4 a5 a6 a7 a8 a9 a10 a11 a12 a13 a14 a15 _ a17 a18 a19 a20) := r in
  mkRoom a1 a2 a3 a4 a5 a6 a7 a8 a9 a10 a11 a12 a13 a14 a15 v a17 a18 a19 a20.

Definition set_aiRunning (v : bool) (r : Room) : Room :=
  let '(mkRoom a1 a2 a3 a4 a5 a6 a7 a8 a9 a10 a11 a12 a13 a14 a15 a16 _ a18 a19 a20) := r in
  mkRoom a1 a2 a3 a4 a5 a6 a7 a8 a9 a10 a11 a12 a13 a14 a15 a16 v a18 a19 a20.

Definition set_loaded (v : bool) (r : Room) : Room :=
  let '(mkRoom a1 a2 a3 a4 a5 a6 a7 a8 a9 a10 a11 a12 a13 a14 a15 a16 a17 _ a19 a20) := r in
  mkRoom a1 a2 a3 a4 a5 a6 a7 a8 a9 a10 a11 a12 a13 a14 a15 a16 a17 v a19 a20.

Definition set_historyDirty (v : nat) (r : Room) : Room :=
  let '(mkRoom a1 a2 a3 a4 a5 a6 a7 a8 a9 a10 a11 a12 a13 a14 a15 a16 a17 a18 _ a20) := r in
  mkRoom a1 a2 a3 a4 a5 a6 a7 a8 a9 a10 a11 a12 a13 a14 a15 a16 a17 a18 v a20.

Definition set_pinnedFlushTimer (v : bool) (r : Room) : Room :=
  let '(mkRoom a1 a2 a3 a4 a5 a6 a7 a8 a9 a10 a11 a12 a13 a14 a15 a16 a17 a18 a19 _) := r in
  mkRoom a1 a2 a3 a4 a5 a6 a7 a8 a9 a10 a11 a12 a13 a14 a15 a16 a17 a18 a19 v.


(** A new instance of the class over a given platform state: every field
    has its initializer. *)
Definition construct (socks : list nat) (states : gmap nat ReadyState)
    (st : Storage) (nextId uuids : nat) (tr : list Effect) : Room :=
  {| sockets := socks; readyState := states; storage := st; pendingAI := [];
     uuidCalls := uuids; nextConnId := nextId; trace := tr;
     connIds := ∅; clientIds := ∅; userNames := ∅; lastSeen := ∅;
     heartbeatAlarm := false; history := []; pinned := PinnedMemory.empty;
     artifacts := []; settings := DEFAULT_SETTINGS; aiRunning := false;
     loaded := false; historyDirty := 0; pinnedFlushTimer := false |}.

(** The actor after eviction from memory: the store, the sockets and the
    module-level counter survive, the instance is constructed anew and the
    promises and timers of the old one are gone. *)
Definition reactivate (r : Room) : Room :=
  construct (sockets r) (readyState r) (storage r) (nextConnId r) (uuidCalls r)
    (trace r).

(** ** Computations that may throw

    A method of the class is a function of the state that returns a value
    or throws; what it did to the state before throwing stays done. *)

Definition M (A : Type) : Type := Room → outcome A * Room.

Definition ret {A} (a : A) : M A := λ r, (Ret a, r).
Definition throw {A} (e : exn) : M A := λ r, (Throw e, r).
Definition bind {A B} (m : M A) (k : A → M B) : M B := λ r,
  match m r with
  | (Ret a, r') => k a r'
  | (Throw e, r') => (Throw e, r')
  end.
(** a statement that cannot throw *)
Definition exec (f : Room → Room) : M unit := λ r, (Ret tt, f r).
(** reading the state *)
Definition gets {A} (f : Room → A) : M A := λ r, (Ret (f r), r).
(** the value of an expression that may throw *)
Definition lift {A} (o : outcome A) : M A := λ r, (o, r).
(** [try { m } catch (err) { h err }] *)
Definition try_catch {A} (m : M A) (h : exn → M A) : M A := λ r,
  match m r with
  | (Ret a, r') => (Ret a, r')
  | (Throw e, r') => h e r'
  end.

Notation "x <- m ;; k" := (bind m (λ x, k))
  (at level 100, m at next level, right associativity).
Notation "m ;;; k" := (bind m (λ _, k))
  (at level 100, right associativity).

Section Actor.
Context `{Host}.

(** *** Conversions *)

(** [String(v)] *)
Definition ToString (v : jsval) : outcome string :=
  match v with
  | VUndefined => Ret "undefined"
  | VNull => Ret "null"
  | VBool b => Ret (if b then "true" else "false")
  | VNum n => Ret (numberToString n)
  | VStr s => Ret s
  | VArr _ | VObj _ => objectToString v
  end.

(** [Number(v)] *)
Definition ToNumber (v : jsval) : outcome jsnum :=
  match v with
  | VUndefined => Ret NaN
  | VNull => Ret (Num.of_Z 0)
  | VBool b => Ret (Num.of_Z (if b then 1 else 0))
  | VNum n => Ret n
  | VStr s => Ret (stringToNumber s)
  | VArr _ | VObj _ => objectToNumber v
  end.

Fixpoint assoc (k : string) (props : list (string * jsval)) : option jsval :=
  match props with
  | [] => None
  | (k', v) :: rest => if String.eqb k k' then Some v else assoc k rest
  end.

(** [v.k] for the keys read by the source ([text], [index], [title],
    [type], [content], [id]), which only an object can carry: reading
    them from [undefined] or [null] throws, from any other value gives
    [undefined]. *)
Definition getProp (v : jsval) (k : string) : outcome jsval :=
  match v with
  | VUndefined =>
      Throw (TypeError ("Cannot read properties of undefined (reading '" +:+ k +:+ "')"))
  | VNull =>
      Throw (TypeError ("Cannot read properties of null (reading '" +:+ k +:+ "')"))
  | VObj props => Ret (default VUndefined (assoc k props))
  | _ => Ret VUndefined
  end.

(** [v ?? d] *)
Definition nullish (v d : jsval) : jsval :=
  match v with
  | VUndefined | VNull => d
  | _ => v
  end.

(** *** Sending *)

Definition emit (e : Effect) (r : Room) : Room := set_trace (trace r ++ [e]) r.

(** [ws.send(JSON.stringify(f))] *)
Definition send (ws : nat) (f : Frame) (r : Room) : Room := emit (Send ws f) r.

Definition getOpenSockets (r : Room) : list nat :=
  filter (λ ws, readyState r !! ws = Some OPEN) (sockets r).

Definition broadcast (f : Frame) (r : Room) : Room :=
  foldl (λ r' ws, send ws f r') r (getOpenSockets r).

Definition broadcastPresence (r : Room) : Room :=
  let socks := getOpenSockets r in
  foldl (λ r' ws, send ws (FPresence (length socks)) r') r socks.

(** *** Persistence *)

(** [this.ctx.storage.put(key, value)] *)
Definition put (w : Write) (r : Room) : Room :=
  emit (Put w) (set_storage (apply_write w (storage r)) r).

(** [this.ctx.storage.put({ k1: v1, ... })]: one call, one write *)
Definition putAll (ws : list Write) (r : Room) : Room :=
  emit (PutAll ws) (set_storage (foldl (λ s w, apply_write w s) (storage r) ws) r).

Definition schedulePinnedFlush (r : Room) : Room :=
  if pinnedFlushTimer r then r
  else emit (SetTimeout PINNED_FLUSH_DELAY_MS) (set_pinnedFlushTimer true r).

(** the callback given to [setTimeout] by [schedulePinnedFlush] *)
Definition pinnedFlushFired (r : Room) : Room :=
  put (WPinned (pinned r)) (set_pinnedFlushTimer false r).

Definition maybeFlushHistory (r : Room) : Room :=
  let r := set_historyDirty (S (historyDirty r)) r in
  if (HISTORY_FLUSH_INTERVAL <=? historyDirty r)%nat
  then put (WHistory (history r)) (set_historyDirty 0%nat r)
  else r.

(** *** Broadcast of chat *)

Definition broadcastChat (now : Z) (user text : string) (r : Room) : Room :=
  let entry := ChatEntry.mk user text now in
  let r := set_history (history r ++ [entry]) r in
  let r :=
    if (MAX_HISTORY <? length (history r))%nat
    then set_history
           (snd (Arr.splice (history r) (Num.of_Z 0)
                   (Z.of_nat (length (history r)) - Z.of_nat MAX_HISTORY))) r
    else r in
  let r := maybeFlushHistory r in
  broadcast (FChat entry) r.

Definition broadcastSystem (now : Z) (text : string) (r : Room) : Room :=
  broadcast (FChat (ChatEntry.mk "System" text now)) r.

Definition broadcastMemoryUpdate (r : Room) : Room :=
  broadcast (FMemoryUpdate (pinned r)) r.

(** *** Artifacts *)

Definition addArtifact (now : Z) (title artifactType content createdBy : string)
    (r : Room) : Room :=
  let artifact :=
    Artifact.mk (randomUUID (uuidCalls r)) artifactType title content now createdBy in
  let r := set_uuidCalls (S (uuidCalls r)) r in
  let r := set_artifacts (artifacts r ++ [artifact]) r in
  let r := put (WArtifacts (artifacts r)) r in
  broadcast (FArtifactCreated artifact) r.

Definition buildArtifactPrompt (artifactType title : string) : string :=
  let custom :=
    if String.eqb title "" then "Create useful content based on the recent discussion."
    else "Create content about: " +:+ title in
  if String.eqb artifactType "summary" then
    "Create a concise summary of the recent discussion. Include key points and open questions."
  else if String.eqb artifactType "plan" then
    "Create an action plan based on the recent discussion. List concrete next steps with owners if mentioned."
  else if String.eqb artifactType "notes" then
    "Create clean, organized notes from the recent discussion."
  else custom.

(** [date] is [new Date().toLocaleDateString()] *)
Definition inferTitle (date artifactType : string) : string :=
  if String.eqb artifactType "summary" then "Summary - " +:+ date
  else if String.eqb artifactType "plan" then "Action Plan - " +:+ date
  else if String.eqb artifactType "notes" then "Notes - " +:+ date
  else "Artifact - " +:+ date.

(** *** Reusable mutations (used by the frame handlers and the AI tools) *)

Definition set_memories (m : list string) (r : Room) : Room :=
  set_pinned (PinnedMemory.mk m (PinnedMemory.todos (pinned r))) r.
Definition set_todos (t : list TodoItem.t) (r : Room) : Room :=
  set_pinned (PinnedMemory.mk (PinnedMemory.memories (pinned r)) t) r.

Definition quoted (s : string) : string := Str.dq +:+ s +:+ Str.dq.

Definition doAddMemory (text : string) : M string :=
  exec (λ r, set_memories (PinnedMemory.memories (pinned r) ++ [text]) r) ;;;
  exec schedulePinnedFlush ;;;
  exec broadcastMemoryUpdate ;;;
  ret ("Added memory: " +:+ quoted text).

Definition doDeleteMemory (index : jsnum) : M string :=
  memories <- gets (λ r, PinnedMemory.memories (pinned r)) ;;
  if Num.ltb index 0 || Num.geb index (Z.of_nat (length memories)) then
    ret ("Invalid memory index " +:+ numberToString index +:+ ". There are "
         +:+ pretty (length memories) +:+ " memories (0-indexed).")
  else
    let '(removed, rest) := Arr.splice memories index 1 in
    exec (set_memories rest) ;;;
    exec schedulePinnedFlush ;;;
    exec broadcastMemoryUpdate ;;;
    ret ("Deleted memory at index " +:+ numberToString index +:+ ": "
         +:+ quoted (default "undefined" (head removed))).

Definition doAddTodo (text : string) : M string :=
  exec (λ r, set_todos (PinnedMemory.todos (pinned r) ++ [TodoItem.mk text false]) r) ;;;
  exec schedulePinnedFlush ;;;
  exec broadcastMemoryUpdate ;;;
  ret ("Added todo: " +:+ quoted text).

Definition doDeleteTodo (index : jsnum) : M string :=
  todos <- gets (λ r, PinnedMemory.todos (pinned r)) ;;
  if Num.ltb index 0 || Num.geb index (Z.of_nat (length todos)) then
    ret ("Invalid todo index " +:+ numberToString index +:+ ". There are "
         +:+ pretty (length todos) +:+ " todos (0-indexed).")
  else
    let '(removed, rest) := Arr.splice todos index 1 in
    exec (set_todos rest) ;;;
    exec schedulePinnedFlush ;;;
    exec broadcastMemoryUpdate ;;;
    match head removed with
    | Some t =>
        ret ("Deleted todo at index " +:+ numberToString index +:+ ": "
             +:+ quoted (TodoItem.text t))
    | None => throw (TypeError "Cannot read properties of undefined (reading 'text')")
    end.

Definition doToggleTodo (index : jsnum) : M string :=
  todos <- gets (λ r, PinnedMemory.todos (pinned r)) ;;
  if Num.ltb index 0 || Num.geb index (Z.of_nat (length todos)) then
    ret ("Invalid todo index " +:+ numberToString index +:+ ". There are "
         +:+ pretty (length todos) +:+ " todos (0-indexed).")
  else
    match Arr.get todos index, Arr.index index with
    | Some t, Some k =>
        let t' := TodoItem.mk (TodoItem.text t) (negb (TodoItem.done t)) in
        exec (set_todos (<[k := t']> todos)) ;;;
        exec schedulePinnedFlush ;;;
        exec broadcastMemoryUpdate ;;;
        ret ("Todo " +:+ quoted (TodoItem.text t') +:+ " marked as "
             +:+ (if TodoItem.done t' then "complete" else "incomplete"))
    | _, _ => throw (TypeError "Cannot read properties of undefined (reading 'done')")
    end.

Definition doCreateArtifact (now : Z) (title artifactType content : string) : M string :=
  exec (addArtifact now title artifactType content "AI") ;;;
  ret ("Created artifact: " +:+ quoted title +:+ " (type: " +:+ artifactType +:+ ")").

Definition doClearMemories : M string :=
  count <- gets (λ r, length (PinnedMemory.memories (pinned r))) ;;
  if (count =? 0)%nat then ret "No memories to clear."
  else
    exec (set_memories []) ;;;
    exec schedulePinnedFlush ;;;
    exec broadcastMemoryUpdate ;;;
    ret ("Cleared all " +:+ pretty count +:+ " memories.").

Definition doClearTodos : M string :=
  count <- gets (λ r, length (PinnedMemory.todos (pinned r))) ;;
  if (count =? 0)%nat then ret "No todos to clear."
  else
    exec (set_todos []) ;;;
    exec schedulePinnedFlush ;;;
    exec broadcastMemoryUpdate ;;;
    ret ("Cleared all " +:+ pretty count +:+ " todos.").

Definition artifact_matches (id : string) (a : Artifact.t) : bool :=
  String.eqb (Artifact.id a) id
  || String.eqb (Str.toLowerCase (Artifact.title a)) (Str.toLowerCase id).

Definition doDeleteArtifact (id : string) : M string :=
  arts <- gets artifacts ;;
  match List.find (artifact_matches id) arts with
  | None =>
      ret ("Artifact not found: " +:+ quoted id +:+ ". Available: "
           +:+ Str.or_else
                 (Str.join ", "
                    ((λ a, quoted (Artifact.title a) +:+ " (" +:+ Artifact.id a +:+ ")") <$> arts))
                 "none")
  | Some artifact =>
      exec (set_artifacts
              (List.filter (λ a, negb (String.eqb (Artifact.id a) (Artifact.id artifact))) arts)) ;;;
      exec (λ r, put (WArtifacts (artifacts r)) r) ;;;
      exec (broadcast (FArtifactDeleted (Artifact.id artifact))) ;;;
      ret ("Deleted artifact: " +:+ quoted (Artifact.title artifact))
  end.

(** *** AI tools *)

Definition arg (args : jsval) (key : string) (dflt : jsval) : outcome jsval :=
  match getProp args key with
  | Ret v => Ret (nullish v dflt)
  | Throw e => Throw e
  end.

(** [String(args.key ?? dflt)] *)
Definition stringArg (args : jsval) (key dflt : string) : M string :=
  v <- lift (arg args key (VStr dflt)) ;; lift (ToString v).

(** [Number(args.key ?? -1)] *)
Definition indexArg (args : jsval) : M jsnum :=
  v <- lift (arg args "index" (VNum (Num.of_Z (-1)))) ;; lift (ToNumber v).

(** The [switch] of [executeToolCall], without the [try] around it. *)
Definition toolSwitch (now : Z) (name : string) (args : jsval) : M string :=
  if String.eqb name "add_memory" then
    text <- stringArg args "text" "" ;; doAddMemory text
  else if String.eqb name "delete_memory" then
    index <- indexArg args ;; doDeleteMemory index
  else if String.eqb name "add_todo" then
    text <- stringArg args "text" "" ;; doAddTodo text
  else if String.eqb name "delete_todo" then
    index <- indexArg args ;; doDeleteTodo index
  else if String.eqb name "toggle_todo" then
    index <- indexArg args ;; doToggleTodo index
  else if String.eqb name "clear_memories" then doClearMemories
  else if String.eqb name "clear_todos" then doClearTodos
  else if String.eqb name "create_artifact" then
    title <- stringArg args "title" "Untitled" ;;
    type <- stringArg args "type" "notes" ;;
    content <- stringArg args "content" "" ;;
    doCreateArtifact now title type content
  else if String.eqb name "delete_artifact" then
    id <- stringArg args "id" "" ;; doDeleteArtifact id
  else ret ("Unknown tool: " +:+ name).

Definition executeToolCall (now : Z) (name : string) (args : jsval) : M string :=
  try_catch (toolSwitch now name args)
    (λ err, ret ("Tool error: " +:+ String_of_exn err)).

(** The names of [getAITools()]. *)
Definition toolNames : list string :=
  ["add_memory"; "delete_memory"; "add_todo"; "delete_todo"; "toggle_todo";
   "create_artifact"; "clear_memories"; "clear_todos"; "delete_artifact"].

(** *** AI *)

Definition formatPinnedMemory (r : Room) : string :=
  let memories := PinnedMemory.memories (pinned r) in
  let todos := PinnedMemory.todos (pinned r) in
  let parts :=
    (if (0 <? length memories)%nat then
       ["Pinned Memories:" +:+ Str.nl
        +:+ Str.join Str.nl (imap (λ i m, "[" +:+ pretty i +:+ "] " +:+ m) memories)]
     else [])
    ++ (if (0 <? length todos)%nat then
          ["Todos:" +:+ Str.nl
           +:+ Str.join Str.nl
                 (imap (λ i t, "[" +:+ pretty i +:+ "] ["
                               +:+ (if TodoItem.done t then "x" else " ")
                               +:+ "] " +:+ TodoItem.text t) todos)]
        else []) in
  Str.join (Str.nl +:+ Str.nl) parts.

Definition toolInstructions : string :=
  "You also have tools to manage memories, todos, and artifacts — but only use them when someone explicitly asks. For normal conversation, just chat naturally and be friendly.".

Definition truthy (s : string) : bool := negb (String.eqb s "").

(** [callAI] up to its first [await]: the transcript is built from the
    state and the first inference call (with the tools) is issued. *)
Definition callAI (kind : TurnKind) (userPrompt : string) (r : Room) : Room :=
  let memoryBlock := formatPinnedMemory r in
  let selected := drop (length (history r) - AI_CONTEXT_MESSAGES) (history r) in
  let recentMessages :=
    Str.join Str.nl ((λ m, ChatEntry.user m +:+ ": " +:+ ChatEntry.text m) <$> selected) in
  let basePrompt :=
    Str.or_else (RoomSettings.systemPrompt (settings r)) DEFAULT_SYSTEM_PROMPT in
  let systemPrompt :=
    Str.join Str.nl
      (List.filter truthy
         [basePrompt; ""; toolInstructions; "";
          if truthy memoryBlock then "## Pinned Memory" +:+ Str.nl +:+ memoryBlock else "";
          if (0 <? length (artifacts r))%nat then
            "## Artifacts" +:+ Str.nl
            +:+ Str.join Str.nl
                  (imap (λ i a, pretty i +:+ ". " +:+ quoted (Artifact.title a)
                                +:+ " (type: " +:+ Artifact.type a
                                +:+ ", id: " +:+ Artifact.id a +:+ ")") (artifacts r))
          else ""]) in
  let userMessage :=
    if truthy recentMessages then
      "Here is the recent conversation in the chat room:" +:+ Str.nl +:+ Str.nl
      +:+ recentMessages +:+ Str.nl +:+ Str.nl
      +:+ "Now respond to this: " +:+ userPrompt
    else userPrompt in
  let messages :=
    [Msg.mk "system" None systemPrompt; Msg.mk "user" None userMessage] in
  let r := emit (RunAI messages true) r in
  set_pendingAI (pendingAI r ++ [Turn.mk kind FirstCall messages]) r.

Definition triggerAI (now : Z) (userPrompt : string) (r : Room) : Room :=
  if aiRunning r then broadcastSystem now "AI is already thinking... please wait." r
  else
    let r := set_aiRunning true r in
    let r := broadcastSystem now "AI is thinking..." r in
    callAI ChatTurn userPrompt r.

(** The text of an inference result, or the error thrown when it is
    missing or empty. *)
Definition replyText (response : option string) (failure : string)
    : outcome string :=
  match response with
  | Some text => if String.eqb text "" then Throw (Error failure) else Ret text
  | None => Throw (Error failure)
  end.

(** The [for] loop of [callAI] over the requested tool calls. *)
Fixpoint runToolCalls (now : Z) (calls : list ToolCall.t) (messages : list Msg.t)
    : M (list Msg.t) :=
  match calls with
  | [] => ret messages
  | call :: rest =>
      args <- lift (match ToolCall.arguments call with
                    | ArgsValue v => Ret v
                    | ArgsText parsed => parsed
                    end) ;;
      toolResult <- executeToolCall now (ToolCall.name call) args ;;
      runToolCalls now rest
        (messages ++ [Msg.mk "tool" (Some (ToolCall.name call)) toolResult])
  end.

(** How a turn goes on when the inference call it awaits has settled. *)
Inductive Progress :=
| Resolved (text : string)
| Rejected (err : exn)
| Awaiting (t : Turn.t).

Definition ofOutcome (o : outcome string) : Progress :=
  match o with
  | Ret text => Resolved text
  | Throw e => Rejected e
  end.

(** [callAI] from an [await] to the next one, or to its end. *)
Definition callAI_resume (now : Z) (t : Turn.t) (reply : outcome AIResult.t)
    (r : Room) : Progress * Room :=
  match reply with
  | Throw e => (Rejected e, r)
  | Ret res =>
      match Turn.phase t with
      | FirstCall =>
          match AIResult.tool_calls res with
          | [] => (ofOutcome (replyText (AIResult.response res) "Empty AI response"), r)
          | calls =>
              let messages :=
                Turn.messages t
                ++ [Msg.mk "assistant" None (default "" (AIResult.response res))] in
              match runToolCalls now calls messages r with
              | (Throw e, r') => (Rejected e, r')
              | (Ret messages', r') =>
                  (Awaiting (Turn.mk (Turn.kind t) SecondCall messages'),
                   emit (RunAI messages' false) r')
              end
          end
      | SecondCall =>
          (ofOutcome (replyText (AIResult.response res)
                        "Empty AI response after tool calls"), r)
      end
  end.

(** The [.then / .catch / .finally] chained on the promise of [callAI]. *)
Definition settle (now : Z) (date : string) (kind : TurnKind)
    (result : outcome string) (r : Room) : Room :=
  let r :=
    match kind, result with
    | ChatTurn, Ret response =>
        let r := broadcastChat now "AI" response r in
        let r := put (WHistory (history r)) r in
        set_historyDirty 0%nat r
    | ArtifactTurn artifactType title userName, Ret aiContent =>
        let aiTitle := Str.or_else title (inferTitle date artifactType) in
        addArtifact now aiTitle artifactType aiContent userName r
    | _, Throw err => broadcastSystem now ("AI error: " +:+ String_of_exn err) r
    end in
  set_aiRunning false r.

(** The inference call awaited by the [i]-th turn in flight settles. *)
Definition aiReplied (now : Z) (date : string) (i : nat)
    (reply : outcome AIResult.t) (r : Room) : Room :=
  match pendingAI r !! i with
  | None => r
  | Some t =>
      match callAI_resume now t reply r with
      | (Awaiting t', r') => set_pendingAI (<[i := t']> (pendingAI r')) r'
      | (Resolved text, r') =>
          settle now date (Turn.kind t) (Ret text)
            (set_pendingAI (delete i (pendingAI r')) r')
      | (Rejected err, r') =>
          settle now date (Turn.kind t) (Throw err)
            (set_pendingAI (delete i (pendingAI r')) r')
      end
  end.

(** *** Hydration *)

Definition ensureLoaded (r : Room) : Room :=
  if loaded r then r
  else
    let r := set_loaded true r in
    let map := storage r in
    let r :=
      match sk_pinned map with
      | Some stored =>
          match StoredPinned.todos stored with
          | StoredLegacy t ts =>
              (* Migrate old string[] todos to TodoItem[] *)
              let r :=
                set_pinned
                  (PinnedMemory.mk (StoredPinned.memories stored)
                     ((λ t, TodoItem.mk t false) <$> (t :: ts))) r in
              put (WPinned (pinned r)) r
          | StoredItems items =>
              set_pinned (PinnedMemory.mk (StoredPinned.memories stored) items) r
          end
      | None => r
      end in
    let r := match sk_history map with Some h => set_history h r | None => r end in
    let r := match sk_artifacts map with Some a => set_artifacts a r | None => r end in
    match sk_settings map with
    | Some s =>
        set_settings
          (RoomSettings.mk
             (default (RoomSettings.systemPrompt DEFAULT_SETTINGS)
                (StoredSettings.systemPrompt s))
             (default (RoomSettings.aiAutoRespond DEFAULT_SETTINGS)
                (StoredSettings.aiAutoRespond s))) r
    | None => r
    end.

(** *** Connection lifecycle *)

(** [try { ws.close(1011, "cleanup") } catch { /* already closed */ }] *)
Definition close (ws : nat) (r : Room) : Room :=
  match readyState r !! ws with
  | Some OPEN | Some CONNECTING =>
      emit (Close ws 1011 "cleanup")
        (set_readyState (<[ws := CLOSING]> (readyState r)) r)
  | _ => r
  end.

Definition cleanup (ws : nat) (r : Room) : Room :=
  let r := set_connIds (delete ws (connIds r)) r in
  let r := set_clientIds (delete ws (clientIds r)) r in
  let r := set_userNames (delete ws (userNames r)) r in
  let r := set_lastSeen (delete ws (lastSeen r)) r in
  close ws r.

Definition setAlarm (at_ : Z) (r : Room) : Room :=
  emit (SetAlarm at_) (set_storage (set_alarmAt (Some at_) (storage r)) r).

Definition ensureHeartbeatAlarm (now : Z) (r : Room) : Room :=
  if heartbeatAlarm r then r
  else
    let existing := alarmAt (storage r) in
    let r :=
      match existing with
      | Some t => if t =? 0 then setAlarm (now + HEARTBEAT_INTERVAL_MS) r else r
      | None => setAlarm (now + HEARTBEAT_INTERVAL_MS) r
      end in
    set_heartbeatAlarm true r.

(** The body of the [for] loop of [alarm], for one socket. *)
Definition alarmVisit (now : Z) (acc : Room * nat) (ws : nat) : Room * nat :=
  let '(r, culled) := acc in
  let last := default 0 (lastSeen r !! ws) in
  if (STALE_TIMEOUT_MS <? now - last) && bool_decide (readyState r !! ws = Some OPEN)
  then (cleanup ws r, S culled)
  else (r, culled).

Definition alarm (now : Z) (r : Room) : Room :=
  let r := set_heartbeatAlarm false r in
  let '(r, culled) := foldl (alarmVisit now) (r, 0%nat) (sockets r) in
  let r := if (0 <? culled)%nat then broadcastPresence r else r in
  if (0 <? length (getOpenSockets r))%nat then ensureHeartbeatAlarm now r else r.

(** [fetch]: a request without [Upgrade: websocket] is answered 400 and
    changes nothing; otherwise [ws] is the server end of the new pair. *)
Definition fetch (now : Z) (upgrade : bool) (ws : nat) (r : Room) : Room :=
  if negb upgrade then r
  else
    let r := ensureLoaded r in
    let connId := "c" +:+ pretty (nextConnId r) in
    let r := set_nextConnId (S (nextConnId r)) r in
    let r := set_sockets (sockets r ++ [ws]) r in
    let r := set_readyState (<[ws := OPEN]> (readyState r)) r in
    let r := set_connIds (<[ws := connId]> (connIds r)) r in
    let r := set_lastSeen (<[ws := now]> (lastSeen r)) r in
    let r := ensureHeartbeatAlarm now r in
    broadcastPresence r.

Definition webSocketClose (ws : nat) (r : Room) : Room :=
  broadcastPresence (cleanup ws r).

Definition webSocketError (ws : nat) (r : Room) : Room :=
  broadcastPresence (cleanup ws r).

(** *** Inbound frames *)

Definition discard {A} (m : M A) : M unit := _ <- m ;; ret tt.

Definition artifactIndex (r : Room) : list Artifact.item :=
  Artifact.to_item <$> artifacts r.

(** The [hello] branch. *)
Definition hello (ws : nat) (clientId user : jsval) : M unit :=
  let clientId := match clientId with VStr s => Some s | _ => None end in
  let userName := match user with VStr s => s | _ => "Anonymous" end in
  exec (λ r,
    match clientId with
    | Some c =>
        if truthy c then
          set_userNames (<[ws := userName]> (userNames r))
            (set_clientIds (<[ws := c]> (clientIds r)) r)
        else r
    | None => r
    end) ;;;
  (* Send initial state to joining client *)
  exec (λ r, foldl (λ r' entry, send ws (FChat entry) r') r (history r)) ;;;
  exec (λ r, send ws (FMemoryUpdate (pinned r)) r) ;;;
  exec (λ r, send ws (FArtifactList (artifactIndex r)) r) ;;;
  exec (λ r, send ws (FSettingsUpdate (settings r)) r).

Definition isKind (kind : string) : bool :=
  String.eqb kind "memories" || String.eqb kind "todos".

(** The [/reset] branch of the chat commands. *)
Definition reset (now : Z) (user : string) : M unit :=
  exec (set_pinned (PinnedMemory.mk [] [])) ;;;
  exec (set_history []) ;;;
  exec (set_artifacts []) ;;;
  exec (set_settings DEFAULT_SETTINGS) ;;;
  exec (λ r, putAll [WPinned (pinned r); WHistory (history r);
                     WArtifacts (artifacts r); WSettings (settings r)] r) ;;;
  exec broadcastMemoryUpdate ;;;
  exec (broadcast (FArtifactList [])) ;;;
  exec (λ r, broadcast (FSettingsUpdate (settings r)) r) ;;;
  exec (broadcast FClearChat) ;;;
  exec (broadcastSystem now
          ("Room has been reset by " +:+ Str.or_else user "someone" +:+ ".")).

(** The chain of [if]s that follows [broadcastChat] in the chat branch:
    slash commands and mentions. *)
Definition chatCommand (now : Z) (user text : string) : M unit :=
  if Str.startsWith text "/remember " then
    let mem := Str.trim (Str.slice (String.length "/remember ") text) in
    if truthy mem then discard (doAddMemory mem) else ret tt
  else if Str.startsWith text "/todo " then
    let t := Str.trim (Str.slice (String.length "/todo ") text) in
    if truthy t then discard (doAddTodo t) else ret tt
  else if String.eqb text "/memory" then
    exec (λ r, broadcastSystem now
                 (Str.or_else (formatPinnedMemory r) "No pinned memory yet.") r)
  else if String.eqb text "/export" then
    exec (λ r, broadcast (FExport (pinned r) (history r) (artifacts r)) r)
  else if String.eqb text "/reset" then reset now user
  else if String.eqb text "/summarize" then
    exec (triggerAI now
            "Summarize the recent discussion concisely. Highlight key points and open questions.")
  else if Str.startsWith text "@ai " then
    let q := Str.trim (Str.slice (String.length "@ai ") text) in
    if truthy q then exec (triggerAI now q) else ret tt
  else
    auto <- gets (λ r, RoomSettings.aiAutoRespond (settings r)) ;;
    if auto && negb (Str.startsWith text "/") then
      exec (triggerAI now
              ("Respond to the latest message from " +:+ user +:+ ": " +:+ quoted text))
    else ret tt.

(** The chat branch. *)
Definition chat (now : Z) (user text : jsval) : M unit :=
  match user, text with
  | VStr user, VStr text =>
      if (String.length user =? 0)%nat || (64 <? String.length user)%nat then ret tt
      else if (String.length text =? 0)%nat || (2000 <? String.length text)%nat then ret tt
      else
        let text := Str.trim text in
        exec (broadcastChat now user text) ;;;
        (* Slash commands (backwards compat) *)
        chatCommand now user text
  | _, _ => ret tt
  end.

(** The [artifact.create] branch. *)
Definition artifactCreate (now : Z) (ws : nat)
    (mode : string) (artifactType title content user : option string) : M unit :=
  let artifactType := Str.or_else (default "" artifactType) "notes" in
  let title := default "" title in
  let content := default "" content in
  userName <- gets (λ r,
    Str.or_else (default "" user)
      (Str.or_else (default "" (userNames r !! ws)) "Unknown")) ;;
  if String.eqb mode "ai" then
    running <- gets aiRunning ;;
    if running then
      exec (send ws (FChat (ChatEntry.mk "System" "AI is busy, try again shortly." now)))
    else
      exec (set_aiRunning true) ;;;
      exec (broadcastSystem now "AI is generating artifact...") ;;;
      exec (callAI (ArtifactTurn artifactType title userName)
              (buildArtifactPrompt artifactType title))
  else
    exec (addArtifact now (Str.or_else title "Untitled") artifactType content userName).

Definition settingsUpdate (systemPrompt aiAutoRespond : jsval) : M unit :=
  exec (λ r,
    match systemPrompt with
    | VStr s => set_settings (RoomSettings.mk s (RoomSettings.aiAutoRespond (settings r))) r
    | _ => r
    end) ;;;
  exec (λ r,
    match aiAutoRespond with
    | VBool b => set_settings (RoomSettings.mk (RoomSettings.systemPrompt (settings r)) b) r
    | _ => r
    end) ;;;
  exec (λ r, put (WSettings (settings r)) r) ;;;
  exec (λ r, broadcast (FSettingsUpdate (settings r)) r).

(** [webSocketMessage] after hydration: the branches on [msg.type]. *)
Definition dispatch (now : Z) (ws : nat) (msg : ClientMsg) : M unit :=
  match msg with
  | MPing => ret tt
  | MHello clientId user => hello ws clientId user
  | MMemoryAdd kind text =>
      let text := Str.trim (default "" text) in
      if negb (truthy text) || negb (isKind kind) then ret tt
      else if String.eqb kind "todos" then discard (doAddTodo text)
      else discard (doAddMemory text)
  | MMemoryRemove kind index =>
      if negb (isKind kind) then ret tt
      else if String.eqb kind "todos" then discard (doDeleteTodo index)
      else discard (doDeleteMemory index)
  | MMemoryToggle index => discard (doToggleTodo index)
  | MSettingsUpdate systemPrompt aiAutoRespond =>
      settingsUpdate systemPrompt aiAutoRespond
  | MArtifactCreate mode artifactType title content user =>
      artifactCreate now ws mode artifactType title content user
  | MArtifactDelete id => discard (doDeleteArtifact id)
  | MArtifactGet id =>
      a <- gets (λ r, List.find (λ x, String.eqb (Artifact.id x) id) (artifacts r)) ;;
      match a with
      | Some a => exec (send ws (FArtifactDetail a))
      | None => ret tt
      end
  | MArtifactList => exec (λ r, send ws (FArtifactList (artifactIndex r)) r)
  | MChat user text => chat now user text
  | MUnknown _ => ret tt
  end.

Definition webSocketMessage (now : Z) (ws : nat) (raw : RawFrame) : M unit :=
  match raw with
  | Binary => ret tt
  | Text None => ret tt
  | Text (Some msg) =>
      exec (λ r, set_lastSeen (<[ws := now]> (lastSeen r)) r) ;;;
      match msg with
      | MPing => exec (send ws FPong)
      | _ =>
          (* Always reload state after hibernation *)
          exec ensureLoaded ;;;
          dispatch now ws msg
      end
  end.

(** *** The actor as a transition system

    One event is one run of a handler to completion: the platform
    delivers no other event to the actor while a handler waits for the
    store.  An exception that escapes [webSocketMessage] rejects its
    promise and leaves the state as it was when thrown. *)

Inductive Event :=
| Fetch (upgrade : bool) (ws : nat)
| Message (ws : nat) (raw : RawFrame)
| Closed (ws : nat)
| Errored (ws : nat)
| Alarm
| PinnedFlushTimer
| AIReply (date : string) (i : nat) (reply : outcome AIResult.t)
| Evicted.

Definition step (now : Z) (ev : Event) (r : Room) : Room :=
  match ev with
  | Fetch upgrade ws => fetch now upgrade ws r
  | Message ws raw => snd (webSocketMessage now ws raw r)
  | Closed ws => webSocketClose ws r
  | Errored ws => webSocketError ws r
  | Alarm =>
      match alarmAt (storage r) with
      | Some _ => alarm now (set_storage (set_alarmAt None (storage r)) r)
      | None => r
      end
  | PinnedFlushTimer => if pinnedFlushTimer r then pinnedFlushFired r else r
  | AIReply date i reply => aiReplied now date i reply r
  | Evicted => reactivate r
  end.

(** A run: the events in order, each with the clock reading of its
    handler. *)
Definition run (evs : list (Z * Event)) (r : Room) : Room :=
  foldl (λ r' e, step (fst e) (snd e) r') r evs.

End Actor.

(** * Properties *)

(** Unfolds the setters of [Room], so that projections of updated states
    compute. *)
Ltac unfold_setters :=
  unfold set_sockets, set_readyState, set_storage, set_pendingAI, set_uuidCalls,
    set_nextConnId, set_trace, set_connIds, set_clientIds, set_userNames,
    set_lastSeen, set_heartbeatAlarm, set_history, set_pinned, set_artifacts,
    set_settings, set_aiRunning, set_loaded, set_historyDirty,
    set_pinnedFlushTimer in *.

Arguments Arr.splice : simpl never.
Arguments Arr.index : simpl never.
Arguments Arr.get : simpl never.
Arguments Num.ltb : simpl never.
Arguments Num.geb : simpl never.
Arguments Num.of_Z : simpl never.
Arguments Num.trunc : simpl never.

(** The last [n] elements of a list, in order. *)
Definition last_n {A} (n : nat) (l : list A) : list A := drop (length l - n) l.

Lemma last_n_length {A} (n : nat) (l : list A) : (length (last_n n l) ≤ n)%nat.
Proof. unfold last_n. rewrite length_drop. lia. Qed.

Lemma last_n_short {A} (n : nat) (l : list A) : (length l ≤ n)%nat → last_n n l = l.
Proof. intros Hl. unfold last_n. by replace (length l - n)%nat with 0%nat by lia. Qed.

Lemma last_n_app {A} (n : nat) (l k : list A) :
  last_n n (last_n n l ++ k) = last_n n (l ++ k).
Proof.
  unfold last_n. rewrite !length_app, length_drop.
  rewrite <- (drop_app_le l k (length l - n)) by lia.
  rewrite drop_drop. f_equal. lia.
Qed.

Lemma trunc_of_Z (z : Z) : Num.trunc (inject_Z z) = z.
Proof. unfold Num.trunc. simpl. apply Z.quot_1_r. Qed.

Lemma integral_of_Z (z : Z) : Num.integral (inject_Z z) = true.
Proof. unfold Num.integral. simpl. by rewrite Z.rem_1_r. Qed.

(** [splice(0, d)] removes the first [d] elements. *)
Lemma splice_front {A} (l : list A) (d : Z) :
  0 ≤ d ≤ Z.of_nat (length l) →
  Arr.splice l (Num.of_Z 0) d = (take (Z.to_nat d) l, drop (Z.to_nat d) l).
Proof.
  intros Hd. unfold Arr.splice, Arr.spliceStart, Num.of_Z.
  rewrite trunc_of_Z. simpl.
  replace (Z.to_nat (Z.min 0 (Z.of_nat (length l)))) with 0%nat by lia.
  rewrite drop_0. simpl.
  replace (Z.to_nat (Z.min (Z.max d 0) (Z.of_nat (length l - 0))))
    with (Z.to_nat d) by lia.
  reflexivity.
Qed.

Section Facts.
Context `{Host}.

(** The frames that a broadcast of [f] sends: one to each open socket, in
    the order of [getWebSockets()]. *)
Definition sends (f : Frame) (r : Room) : list Effect :=
  (λ ws, Send ws f) <$> getOpenSockets r.

Lemma foldl_emit {X} (g : X → Effect) (l : list X) (r : Room) :
  foldl (λ r' x, emit (g x) r') r l = set_trace (trace r ++ (g <$> l)) r.
Proof.
  revert r. induction l as [|x l IH]; intros r; simpl.
  - by rewrite app_nil_r.
  - rewrite IH. unfold emit. simpl. by rewrite <- app_assoc.
Qed.

Lemma foldl_send (f : Frame) (l : list nat) (r : Room) :
  foldl (λ r' ws, send ws f r') r l
  = set_trace (trace r ++ ((λ ws, Send ws f) <$> l)) r.
Proof. apply (foldl_emit (λ ws, Send ws f)). Qed.

Lemma broadcast_eq (f : Frame) (r : Room) :
  broadcast f r = set_trace (trace r ++ sends f r) r.
Proof. apply foldl_send. Qed.

Lemma broadcastPresence_eq (r : Room) :
  broadcastPresence r
  = set_trace (trace r ++ sends (FPresence (length (getOpenSockets r))) r) r.
Proof. apply foldl_send. Qed.

Lemma broadcastSystem_eq (now : Z) (text : string) (r : Room) :
  broadcastSystem now text r
  = set_trace (trace r ++ sends (FChat (ChatEntry.mk "System" text now)) r) r.
Proof. apply broadcast_eq. Qed.

Lemma history_maybeFlushHistory (r : Room) :
  history (maybeFlushHistory r) = history r.
Proof. unfold maybeFlushHistory. simpl. by case_match. Qed.

(** One chat send keeps the last [MAX_HISTORY] entries. *)
Lemma history_broadcastChat (now : Z) (user text : string) (r : Room) :
  history (broadcastChat now user text r)
  = last_n MAX_HISTORY (history r ++ [ChatEntry.mk user text now]).
Proof.
  unfold broadcastChat. rewrite broadcast_eq. cbn -[Nat.ltb].
  rewrite history_maybeFlushHistory.
  set (h := history r ++ [ChatEntry.mk user text now]).
  destruct (MAX_HISTORY <? length h)%nat eqn:Hlen; cbn.
  - apply Nat.ltb_lt in Hlen. unfold MAX_HISTORY in *.
    rewrite splice_front by lia. cbn. unfold last_n. f_equal. lia.
  - apply Nat.ltb_ge in Hlen. by rewrite last_n_short.
Qed.

(** A sequence of chat sends, each with its clock reading. *)
Definition chatSends (es : list ChatEntry.t) (r : Room) : Room :=
  foldl (λ r' e, broadcastChat (ChatEntry.ts e) (ChatEntry.user e) (ChatEntry.text e) r')
    r es.

Lemma chatSends_snoc (es : list ChatEntry.t) (e : ChatEntry.t) (r : Room) :
  chatSends (es ++ [e]) r
  = broadcastChat (ChatEntry.ts e) (ChatEntry.user e) (ChatEntry.text e)
      (chatSends es r).
Proof. unfold chatSends. by rewrite foldl_snoc. Qed.

Lemma history_chatSends (es : list ChatEntry.t) (e : ChatEntry.t) (r : Room) :
  history (chatSends (es ++ [e]) r)
  = last_n MAX_HISTORY (history r ++ es ++ [e]).
Proof.
  revert e. induction es as [|e' es IH] using rev_ind; intros e.
  - simpl. rewrite history_broadcastChat. by destruct e.
  - rewrite chatSends_snoc, history_broadcastChat, IH.
    rewrite last_n_app. destruct e. by rewrite <- !app_assoc.
Qed.

End Facts.

(** ** C2: the chat history is a bounded ring *)

(** C2. For every starting state and every sequence of chat sends that
    ends with the send [e], the history after [e] has at most [MAX_HISTORY]
    (50) entries and is the last 50 of the starting history followed by
    the sent entries, in the order of sending. *)
Theorem history_is_bounded_ring
    (r : Room) (es : list ChatEntry.t) (e : ChatEntry.t) :
  (length (history (chatSends (es ++ [e]) r)) ≤ 50)%nat
  ∧ history (chatSends (es ++ [e]) r) = last_n 50 (history r ++ es ++ [e]).
Proof.
  rewrite history_chatSends. split; [apply last_n_length | reflexivity].
Qed.

(** ** A host and a room for examples *)

(** A host whose number printing is exact on integral values. *)
Definition demoHost : Host := {|
  numberToString n :=
    match n with
    | Finite q => pretty (Num.trunc q)
    | NaN => "NaN"
    | PosInf => "Infinity"
    | NegInf => "-Infinity"
    end;
  stringToNumber _ := NaN;
  objectToString _ := Ret "[object Object]";
  objectToNumber _ := Ret NaN;
  randomUUID n := "id-" +:+ pretty n;
|}.

(** The state of a new actor before its first event. *)
Definition newRoom : Room := construct [] ∅ empty_storage 1 0 [].

(** One client, socket 1, connected at time 0. *)
Definition oneClient : Room := step (H := demoHost) 0 (Fetch true 1) newRoom.

Example oneClient_open : getOpenSockets oneClient = [1%nat].
Proof. reflexivity. Qed.

(** ** C4: system notices and the history *)



(** ** C5: index-based mutations out of range *)









(** Two todos, added by client 1. *)
Definition twoTodos : Room :=
  run (H := demoHost)
    [(1, Message 1 (Text (Some (MMemoryAdd "todos" (Some "buy milk")))));
     (2, Message 1 (Text (Some (MMemoryAdd "todos" (Some "call bob")))))]
    oneClient.


(** ** C6: hydration and the migration of legacy todos *)

(** The pinned memory that a stored value stands for: the value itself,
    with a legacy list of strings turned into items that are not done. *)
Definition migrated (stored : StoredPinned.t) : PinnedMemory.t :=
  PinnedMemory.mk (StoredPinned.memories stored)
    match StoredPinned.todos stored with
    | StoredItems items => items
    | StoredLegacy t ts => (λ t, TodoItem.mk t false) <$> (t :: ts)
    end.

Definition isLegacy (stored : StoredPinned.t) : bool :=
  match StoredPinned.todos stored with
  | StoredItems _ => false
  | StoredLegacy _ _ => true
  end.

(** C6. Let the actor be not yet hydrated in this activation and let the
    store hold a pinned-memory value.  Hydration makes the pinned memory
    equal to the stored value, and writes nothing, unless the stored todos
    are a legacy list of strings: then each string becomes an item that is
    not done, and the migrated value is written back to the store, by one
    write.  Hydrating again after a restart of the actor gives the same
    pinned memory and leaves the store and the trace as they are, and a
    second call in the same activation changes nothing at all. *)
Theorem hydration_roundtrip_and_migration (stored : StoredPinned.t) (r : Room) :
  loaded r = false →
  sk_pinned (storage r) = Some stored →
  let r1 := ensureLoaded r in
  let r2 := ensureLoaded (reactivate r1) in
  pinned r1 = migrated stored
  ∧ (if isLegacy stored
     then sk_pinned (storage r1) = Some (StoredPinned.of_pinned (migrated stored))
          ∧ trace r1 = trace r ++ [Put (WPinned (migrated stored))]
     else StoredPinned.of_pinned (pinned r1) = stored
          ∧ storage r1 = storage r ∧ trace r1 = trace r)
  ∧ (pinned r2 = pinned r1 ∧ storage r2 = storage r1 ∧ trace r2 = trace r1)
  ∧ ensureLoaded r1 = r1.
Proof.
  intros Hl Hs.
  destruct r as [socks states [sp sh sa ss al] pend uu nc tr ci cli un ls hb
                 hist pin art sett air ld hd pft].
  cbn in Hl, Hs. subst ld sp.
  destruct stored as [mem [items | t ts]], sh, sa, ss; cbn; repeat split; reflexivity.
Qed.

Lemma legacy_todos_are_migrated :
  let stored := StoredPinned.mk ["wifi: guest"] (StoredLegacy "buy milk" ["call bob"]) in
  let r := construct [] ∅ (mkStorage (Some stored) None None None None) 1 0 [] in
  pinned (ensureLoaded r)
  = PinnedMemory.mk ["wifi: guest"]
      [TodoItem.mk "buy milk" false; TodoItem.mk "call bob" false]
  ∧ sk_pinned (storage (ensureLoaded r))
    = Some (StoredPinned.mk ["wifi: guest"]
              (StoredItems [TodoItem.mk "buy milk" false; TodoItem.mk "call bob" false])).
Proof.
  pose proof (hydration_roundtrip_and_migration
    (StoredPinned.mk ["wifi: guest"] (StoredLegacy "buy milk" ["call bob"]))
    (construct [] ∅
       (mkStorage
          (Some (StoredPinned.mk ["wifi: guest"] (StoredLegacy "buy milk" ["call bob"])))
          None None None None) 1 0 [])
    eq_refl eq_refl) as (Hp & Hs & _).
  split; [exact Hp | exact (proj1 Hs)].
Defined.

(** ** Relations kept by every step of a computation *)

Section Frame.
Context (R : Room → Room → Prop) `{!PreOrder R}.

(** [m] takes every state to a state related to it, also when it
    throws. *)
Definition keeps {A} (m : M A) : Prop := ∀ r, R r (snd (m r)).

Lemma keeps_ret {A} (a : A) : keeps (ret a).
Proof. intros r. reflexivity. Qed.

Lemma keeps_throw {A} (e : exn) : keeps (throw (A := A) e).
Proof. intros r. reflexivity. Qed.

Lemma keeps_gets {A} (f : Room → A) : keeps (gets f).
Proof. intros r. reflexivity. Qed.

Lemma keeps_lift {A} (o : outcome A) : keeps (lift o).
Proof. intros r. reflexivity. Qed.

Lemma keeps_exec (f : Room → Room) : (∀ r, R r (f r)) → keeps (exec f).
Proof. intros Hf r. apply Hf. Qed.

Lemma keeps_bind {A B} (m : M A) (k : A → M B) :
  keeps m → (∀ a, keeps (k a)) → keeps (bind m k).
Proof.
  intros Hm Hk r. unfold bind. specialize (Hm r).
  destruct (m r) as [[a|e] r']; simpl in *; [|done].
  etrans; [exact Hm | apply Hk].
Qed.

Lemma keeps_try_catch {A} (m : M A) (h : exn → M A) :
  keeps m → (∀ e, keeps (h e)) → keeps (try_catch m h).
Proof.
  intros Hm Hh r. unfold try_catch. specialize (Hm r).
  destruct (m r) as [[a|e] r']; simpl in *; [done|].
  etrans; [exact Hm | apply Hh].
Qed.

Lemma keeps_discard {A} (m : M A) : keeps m → keeps (discard m).
Proof. intros Hm. apply keeps_bind; [done | intros; apply keeps_ret]. Qed.

End Frame.

(** One step of a proof that a computation keeps a relation: the rule of
    its head combinator. *)
Ltac keeps_step :=
  lazymatch goal with
  | |- keeps _ (ret _) => apply keeps_ret; try apply _
  | |- keeps _ (throw _) => apply keeps_throw; try apply _
  | |- keeps _ (gets _) => apply keeps_gets; try apply _
  | |- keeps _ (lift _) => apply keeps_lift; try apply _
  | |- keeps _ (discard _) => apply keeps_discard; [try apply _ |]
  | |- keeps _ (bind _ _) => apply keeps_bind; [try apply _ | | intros ?]
  | |- keeps _ (try_catch _ _) => apply keeps_try_catch; [try apply _ | | intros ?]
  | |- keeps _ (exec _) => apply keeps_exec; intros ?
  | |- keeps _ (if _ then _ else _) => case_match
  | |- keeps _ (match _ with _ => _ end) => case_match
  end.

(** ** Closed forms of the handlers of chat and hello frames *)

(** The state in which a frame other than a ping is dispatched: the
    activity of the socket is recorded and the actor is hydrated. *)
Definition received (now : Z) (ws : nat) (r : Room) : Room :=
  ensureLoaded (set_lastSeen (<[ws := now]> (lastSeen r)) r).

(** The validation of a chat frame. *)
Definition validChat (user text : string) : Prop :=
  (1 ≤ String.length user ≤ 64)%nat ∧ (1 ≤ String.length text ≤ 2000)%nat.

Section Handlers.
Context `{Host}.

Lemma ensureLoaded_loaded (r : Room) : loaded (ensureLoaded r) = true.
Proof.
  unfold ensureLoaded. destruct (loaded r) eqn:Hl; [done|].
  repeat case_match; reflexivity.
Qed.

Lemma ensureLoaded_again (r : Room) : loaded r = true → ensureLoaded r = r.
Proof. intros Hl. unfold ensureLoaded. by rewrite Hl. Qed.

Lemma ensureLoaded_sockets (r : Room) :
  sockets (ensureLoaded r) = sockets r ∧ readyState (ensureLoaded r) = readyState r.
Proof. unfold ensureLoaded. repeat case_match; done. Qed.

Lemma getOpenSockets_received (now : Z) (ws : nat) (r : Room) :
  getOpenSockets (received now ws r) = getOpenSockets r.
Proof.
  unfold getOpenSockets, received.
  by destruct (ensureLoaded_sockets (set_lastSeen (<[ws := now]> (lastSeen r)) r))
    as [-> ->].
Qed.

(** A valid chat frame: the trimmed text is broadcast, then the commands
    are interpreted in the state that the broadcast has left. *)
Lemma webSocketMessage_chat (now : Z) (ws : nat) (user text : string) (r : Room) :
  validChat user text →
  webSocketMessage now ws (Text (Some (MChat (VStr user) (VStr text)))) r
  = chatCommand now user (Str.trim text)
      (broadcastChat now user (Str.trim text) (received now ws r)).
Proof.
  intros [[Hu1 Hu2] [Ht1 Ht2]].
  unfold webSocketMessage, dispatch, chat, bind, exec, received.
  cbn -[chatCommand broadcastChat ensureLoaded Nat.ltb Nat.eqb].
  replace (String.length user =? 0)%nat with false by (symmetry; apply Nat.eqb_neq; lia).
  replace (64 <? String.length user)%nat with false by (symmetry; apply Nat.ltb_ge; lia).
  replace (String.length text =? 0)%nat with false by (symmetry; apply Nat.eqb_neq; lia).
  replace (2000 <? String.length text)%nat with false by (symmetry; apply Nat.ltb_ge; lia).
  reflexivity.
Qed.

(** The snapshot pushed to a joining client. *)
Definition snapshot (ws : nat) (r : Room) : list Effect :=
  ((λ entry, Send ws (FChat entry)) <$> history r)
  ++ [Send ws (FMemoryUpdate (pinned r));
      Send ws (FArtifactList (artifactIndex r));
      Send ws (FSettingsUpdate (settings r))].

(** Whether a [hello] frame names a client: [clientId] is a string, and
    not the empty one. *)
Definition namesClient (clientId : jsval) : bool :=
  match clientId with
  | VStr c => truthy c
  | _ => false
  end.

Lemma webSocketMessage_hello (now : Z) (ws : nat) (clientId user : jsval) (r : Room) :
  webSocketMessage now ws (Text (Some (MHello clientId user))) r
  = (Ret tt,
     let r1 := received now ws r in
     let r2 :=
       if namesClient clientId then
         set_userNames
           (<[ws := match user with VStr s => s | _ => "Anonymous" end]> (userNames r1))
           (set_clientIds
              (<[ws := match clientId with VStr c => c | _ => "" end]> (clientIds r1)) r1)
       else r1 in
     set_trace (trace r1 ++ snapshot ws r1) r2).
Proof.
  unfold webSocketMessage, dispatch, hello, bind, exec, received, snapshot, namesClient.
  cbn -[ensureLoaded]. f_equal.
  set (r1 := ensureLoaded _).
  change (λ r' entry, send ws (FChat entry) r')
    with (λ r' entry, emit ((λ e, Send ws (FChat e)) entry) r').
  destruct clientId as [| | | |c| |]; cbn;
    try destruct (truthy c); cbn;
    rewrite foldl_emit; unfold send, emit; cbn;
    rewrite <- ?app_assoc; reflexivity.
Qed.

End Handlers.

Section Reset.
Context `{Host}.

Lemma ensureLoaded_names (r : Room) :
  clientIds (ensureLoaded r) = clientIds r ∧ userNames (ensureLoaded r) = userNames r.
Proof. unfold ensureLoaded. repeat case_match; done. Qed.

Lemma broadcastChat_frame (now : Z) (user text : string) (r : Room) :
  sockets (broadcastChat now user text r) = sockets r
  ∧ readyState (broadcastChat now user text r) = readyState r
  ∧ loaded (broadcastChat now user text r) = loaded r.
Proof.
  unfold broadcastChat, maybeFlushHistory. rewrite broadcast_eq.
  cbn -[Nat.ltb Nat.leb]. repeat case_match; done.
Qed.

Lemma getOpenSockets_broadcastChat (now : Z) (user text : string) (r : Room) :
  getOpenSockets (broadcastChat now user text r) = getOpenSockets r.
Proof.
  unfold getOpenSockets.
  by destruct (broadcastChat_frame now user text r) as (-> & -> & _).
Qed.

(** The four cleared values, as [/reset] writes them. *)
Definition cleared : list Write :=
  [WPinned (PinnedMemory.mk [] []); WHistory []; WArtifacts [];
   WSettings DEFAULT_SETTINGS].

Lemma reset_eq (now : Z) (user : string) (r : Room) :
  reset now user r
  = (Ret tt,
     set_trace
       (trace r ++ [PutAll cleared]
        ++ sends (FMemoryUpdate (PinnedMemory.mk [] [])) r
        ++ sends (FArtifactList []) r
        ++ sends (FSettingsUpdate DEFAULT_SETTINGS) r
        ++ sends FClearChat r
        ++ sends (FChat (ChatEntry.mk "System"
                           ("Room has been reset by " +:+ Str.or_else user "someone" +:+ ".")
                           now)) r)
       (set_storage (foldl (λ s w, apply_write w s) (storage r) cleared)
          (set_settings DEFAULT_SETTINGS
             (set_artifacts []
                (set_history [] (set_pinned (PinnedMemory.mk [] []) r)))))).
Proof.
  unfold reset, bind, exec, putAll, broadcastMemoryUpdate, emit.
  cbn -[broadcast broadcastSystem].
  rewrite broadcastSystem_eq, !broadcast_eq. cbn.
  unfold sends, getOpenSockets. cbn.
  rewrite <- !app_assoc. reflexivity.
Qed.

Lemma or_else_nonempty (a b : string) : (1 ≤ String.length a)%nat → Str.or_else a b = a.
Proof. destruct a; simpl; [lia | done]. Qed.

End Reset.

(** ** C7: [/reset] *)

(** C7. For every state and every valid user name, the chat frame
    [/reset] leaves the history, the pinned memory and the artifacts empty
    and the settings at their defaults; the four cleared values are in the
    store, written by a single [put] of the four keys; [clear_chat] (after
    the cleared memory, artifact list and settings, and before the notice of
    the reset) is sent to every open connection; and a [hello] handled next
    is answered with the empty pinned memory, the empty artifact list and
    the default settings, and no chat entry. *)
Theorem reset_clears_room `{Host} (now : Z) (ws : nat) (user : string) (r : Room) :
  (1 ≤ String.length user ≤ 64)%nat →
  let r0 := broadcastChat now user "/reset" (received now ws r) in
  let r' := snd (webSocketMessage now ws
                   (Text (Some (MChat (VStr user) (VStr "/reset")))) r) in
  (history r' = [] ∧ pinned r' = PinnedMemory.mk [] []
   ∧ artifacts r' = [] ∧ settings r' = DEFAULT_SETTINGS)
  ∧ (sk_pinned (storage r') = Some (StoredPinned.mk [] (StoredItems []))
     ∧ sk_history (storage r') = Some []
     ∧ sk_artifacts (storage r') = Some []
     ∧ sk_settings (storage r') = Some (StoredSettings.of_settings DEFAULT_SETTINGS))
  ∧ trace r'
    = trace r0 ++ [PutAll cleared]
      ++ sends (FMemoryUpdate (PinnedMemory.mk [] [])) r
      ++ sends (FArtifactList []) r
      ++ sends (FSettingsUpdate DEFAULT_SETTINGS) r
      ++ sends FClearChat r
      ++ sends (FChat (ChatEntry.mk "System"
                         ("Room has been reset by " +:+ user +:+ ".") now)) r
  ∧ ∀ (now' : Z) (ws' : nat) (clientId userName : jsval),
      trace (snd (webSocketMessage now' ws'
                    (Text (Some (MHello clientId userName))) r'))
      = trace r'
        ++ [Send ws' (FMemoryUpdate (PinnedMemory.mk [] []));
            Send ws' (FArtifactList []);
            Send ws' (FSettingsUpdate DEFAULT_SETTINGS)].
Proof.
  intros Hu r0 r'.
  assert (Hr' : r' = snd (reset now user r0)).
  { subst r' r0. rewrite webSocketMessage_chat by (split; [done | simpl; lia]).
    reflexivity. }
  rewrite reset_eq, or_else_nonempty in Hr' by lia. cbn in Hr'.
  assert (Hopen : getOpenSockets r0 = getOpenSockets r).
  { subst r0. by rewrite getOpenSockets_broadcastChat, getOpenSockets_received. }
  assert (Hloaded : loaded r' = true).
  { rewrite Hr'. change (loaded r0 = true). subst r0.
    destruct (broadcastChat_frame now user "/reset" (received now ws r)) as (_ & _ & ->).
    apply ensureLoaded_loaded. }
  split; [by rewrite Hr' | split; [by rewrite Hr' | split]].
  - rewrite Hr'. cbn. unfold sends. by rewrite Hopen.
  - intros now' ws' clientId userName.
    rewrite webSocketMessage_hello. cbn.
    unfold received. rewrite ensureLoaded_again by done.
    rewrite Hr'. reflexivity.
Qed.

Lemma reset_of_two_todos :
  let r' := snd (webSocketMessage (H := demoHost) 9 1
                   (Text (Some (MChat (VStr "ann") (VStr "/reset")))) twoTodos) in
  (1 ≤ String.length "ann" ≤ 64)%nat
  ∧ length (PinnedMemory.todos (pinned twoTodos)) = 2%nat
  ∧ pinned r' = PinnedMemory.mk [] []
  ∧ history r' = []
  ∧ sk_pinned (storage r') = Some (StoredPinned.mk [] (StoredItems [])).
Proof.
  assert (Hu : (1 ≤ String.length "ann" ≤ 64)%nat) by (simpl; lia).
  pose proof (reset_clears_room (H := demoHost) 9 1 "ann" twoTodos Hu)
    as ((Hh & Hp & _) & (Hs & _) & _).
  split; [exact Hu | split; [reflexivity | split; [exact Hp | split; [exact Hh | exact Hs]]]].
Defined.

(** ** C10: a [hello] frame without a client id *)

(** C10. For every [hello] frame whose [clientId] is absent or is not a
    string, the handler returns normally, the maps of client ids and of
    display names are as they were, and the frames sent are, in this order
    and to the sender only: one chat frame for each entry of the history,
    the pinned memory, the index of the artifacts and the settings, all as
    they are once the actor is hydrated. *)
Theorem hello_without_client_id `{Host}
    (now : Z) (ws : nat) (clientId user : jsval) (r : Room) :
  (∀ s, clientId ≠ VStr s) →
  let r1 := received now ws r in
  let result := webSocketMessage now ws (Text (Some (MHello clientId user))) r in
  fst result = Ret tt
  ∧ clientIds (snd result) = clientIds r
  ∧ userNames (snd result) = userNames r
  ∧ trace (snd result)
    = trace r1
      ++ ((λ entry, Send ws (FChat entry)) <$> history r1)
      ++ [Send ws (FMemoryUpdate (pinned r1));
          Send ws (FArtifactList (artifactIndex r1));
          Send ws (FSettingsUpdate (settings r1))].
Proof.
  intros Hid r1 result. subst result. rewrite webSocketMessage_hello.
  assert (Hn : namesClient clientId = false).
  { destruct clientId as [| | | |c| |]; try done. by destruct (Hid c). }
  cbn. rewrite Hn. cbn. fold r1.
  destruct (ensureLoaded_names (set_lastSeen (<[ws := now]> (lastSeen r)) r))
    as [Hc Hu].
  repeat split; [exact Hc | exact Hu].
Qed.

Lemma hello_with_missing_client_id :
  let result := webSocketMessage (H := demoHost) 9 1
                  (Text (Some (MHello VUndefined (VStr "ann")))) twoTodos in
  (∀ s, VUndefined ≠ VStr s)
  ∧ fst result = Ret tt
  ∧ clientIds (snd result) = ∅
  ∧ userNames (snd result) = ∅.
Proof.
  assert (Hid : ∀ s, VUndefined ≠ VStr s) by (intros s; discriminate).
  pose proof (hello_without_client_id (H := demoHost) 9 1 VUndefined (VStr "ann")
                twoTodos Hid) as (Hr & Hc & Hu & _).
  split; [exact Hid | split; [exact Hr | split; [exact Hc | exact Hu]]].
Defined.

(** ** C3: a chat message is broadcast before its commands are interpreted *)

(** The effects of the second state continue those of the first. *)
Definition extends (r r' : Room) : Prop := trace r `prefix_of` trace r'.

#[local] Instance extends_preorder : PreOrder extends.
Proof.
  split.
  - intros r. unfold extends. reflexivity.
  - intros r1 r2 r3. unfold extends. apply transitivity.
Qed.

Section Extends.
Context `{Host}.

Lemma extends_app (r r' : Room) (t : list Effect) :
  trace r' = trace r ++ t → extends r r'.
Proof. intros Ht. unfold extends. rewrite Ht. by apply prefix_app_r. Qed.

Lemma extends_broadcast (f : Frame) (r : Room) : extends r (broadcast f r).
Proof. rewrite broadcast_eq. by eapply extends_app. Qed.

Lemma extends_broadcastSystem (now : Z) (text : string) (r : Room) :
  extends r (broadcastSystem now text r).
Proof. apply extends_broadcast. Qed.

Lemma extends_broadcastMemoryUpdate (r : Room) : extends r (broadcastMemoryUpdate r).
Proof. apply extends_broadcast. Qed.

Lemma extends_schedulePinnedFlush (r : Room) : extends r (schedulePinnedFlush r).
Proof.
  unfold schedulePinnedFlush. case_match; [reflexivity|]. by eapply extends_app.
Qed.

Lemma extends_doAddMemory (text : string) : keeps extends (doAddMemory text).
Proof.
  unfold doAddMemory. repeat keeps_step;
    auto using extends_schedulePinnedFlush, extends_broadcastMemoryUpdate;
    unfold extends; reflexivity.
Qed.

Lemma extends_doAddTodo (text : string) : keeps extends (doAddTodo text).
Proof.
  unfold doAddTodo. repeat keeps_step;
    auto using extends_schedulePinnedFlush, extends_broadcastMemoryUpdate;
    unfold extends; reflexivity.
Qed.

Lemma extends_callAI (kind : TurnKind) (prompt : string) (r : Room) :
  extends r (callAI kind prompt r).
Proof. unfold callAI. by eapply extends_app. Qed.

Lemma extends_triggerAI (now : Z) (prompt : string) (r : Room) :
  extends r (triggerAI now prompt r).
Proof.
  unfold triggerAI. case_match; [apply extends_broadcastSystem|].
  etrans; [|apply extends_callAI].
  etrans; [|apply extends_broadcastSystem]. unfold extends. reflexivity.
Qed.

Lemma extends_reset (now : Z) (user : string) : keeps extends (reset now user).
Proof. intros r. rewrite reset_eq. by eapply extends_app. Qed.

(** Interpreting the commands of a chat text only adds effects. *)
Lemma extends_chatCommand (now : Z) (user text : string) :
  keeps extends (chatCommand now user text).
Proof.
  unfold chatCommand.
  repeat first
    [ apply extends_doAddMemory
    | apply extends_doAddTodo
    | apply extends_reset
    | keeps_step ];
    auto using extends_triggerAI, extends_broadcastSystem, extends_broadcast.
Qed.

Lemma broadcastChat_trace (now : Z) (user text : string) (r : Room) :
  let r1 := broadcastChat now user text r in
  trace r1
  = trace r
    ++ (if (HISTORY_FLUSH_INTERVAL <=? S (historyDirty r))%nat
        then [Put (WHistory (history r1))] else [])
    ++ sends (FChat (ChatEntry.mk user text now)) r.
Proof.
  intros r1. subst r1.
  destruct r as [socks states st pend uu nc tr ci cli un ls hb
                 hist pin art sett air ld hd pft].
  unfold broadcastChat, maybeFlushHistory. rewrite broadcast_eq.
  unfold sends, getOpenSockets, put, emit. unfold_setters.
  cbn -[Nat.ltb Nat.leb Arr.splice].
  repeat case_match; cbn -[Nat.ltb Nat.leb Arr.splice] in *; try congruence;
    rewrite <- ?app_assoc; reflexivity.
Qed.

End Extends.

(** C3, refuted at a concrete input.  Client 1 sends the valid chat text
    [" hi "]: the entry appended to the history and the frame broadcast carry
    the text ["hi"], and the raw text is neither in the history nor in any
    frame sent. *)
Lemma chat_text_is_trimmed :
  let result := webSocketMessage (H := demoHost) 7 1
                  (Text (Some (MChat (VStr "ann") (VStr " hi ")))) oneClient in
  let raw := ChatEntry.mk "ann" " hi " 7 in
  validChat "ann" " hi "
  ∧ history (snd result) = [ChatEntry.mk "ann" "hi" 7]
  ∧ In (Send 1 (FChat (ChatEntry.mk "ann" "hi" 7))) (trace (snd result))
  ∧ ¬ In raw (history (snd result))
  ∧ ¬ In (Send 1 (FChat raw)) (trace (snd result)).
Proof.
  vm_compute. repeat split; try lia.
  - repeat first [ by left | right ].
  - intros [Heq|[]]. discriminate Heq.
  - intros Hin. repeat (destruct Hin as [Heq|Hin]; [discriminate Heq|]). exact Hin.
Qed.

(** C3, amended.  For every valid chat frame ([user] of 1 to 64
    characters, [text] of 1 to 2000), the entry made of the user, the text
    with the white space at its two ends removed, and the time is appended
    to the history (which keeps its last 50 entries) and sent to every open
    connection, and only then are slash commands and mentions interpreted:
    they are read from the trimmed text, in the state that the broadcast has
    left, and only add effects after the frames of the broadcast. *)
Theorem chat_is_broadcast_before_commands `{Host}
    (now : Z) (ws : nat) (user text : string) (r : Room) :
  validChat user text →
  let entry := ChatEntry.mk user (Str.trim text) now in
  let r0 := received now ws r in
  let r1 := broadcastChat now user (Str.trim text) r0 in
  let result := webSocketMessage now ws (Text (Some (MChat (VStr user) (VStr text)))) r in
  result = chatCommand now user (Str.trim text) r1
  ∧ history r1 = last_n 50 (history r0 ++ [entry])
  ∧ (∃ flush, trace r1 = trace r0 ++ flush ++ sends (FChat entry) r
              ∧ (flush = [] ∨ flush = [Put (WHistory (history r1))]))
  ∧ ∃ later, trace (snd result) = trace r1 ++ later.
Proof.
  intros Hv entry r0 r1 result.
  assert (Hres : result = chatCommand now user (Str.trim text) r1)
    by apply (webSocketMessage_chat _ _ _ _ _ Hv).
  split; [exact Hres | split; [apply history_broadcastChat | split]].
  - eexists. split.
    + subst r1. rewrite broadcastChat_trace. unfold sends.
      subst r0. rewrite getOpenSockets_received. reflexivity.
    + case_match; [by right | by left].
  - rewrite Hres. apply (extends_chatCommand now user (Str.trim text) r1).
Qed.

Lemma chat_reset_is_broadcast_first :
  let result := webSocketMessage (H := demoHost) 9 1
                  (Text (Some (MChat (VStr "ann") (VStr " /reset ")))) oneClient in
  validChat "ann" " /reset "
  ∧ result
    = chatCommand 9 "ann" "/reset"
        (broadcastChat 9 "ann" "/reset" (received 9 1 oneClient)).
Proof.
  assert (Hv : validChat "ann" " /reset ") by (unfold validChat; simpl; lia).
  pose proof (chat_is_broadcast_before_commands (H := demoHost) 9 1 "ann" " /reset "
                oneClient Hv) as (Hres & _).
  split; [exact Hv | exact Hres].
Defined.


(** ** A tool call returns a string, whatever happens in its handler *)

Lemma toolSwitch_unknown `{Host} (now : Z) (name : string) (args : jsval) :
  name ∉ toolNames → toolSwitch now name args = ret ("Unknown tool: " +:+ name).
Proof.
  intros Hn. unfold toolSwitch, toolNames in *.
  repeat match goal with
         | |- context [String.eqb name ?t] =>
             destruct (String.eqb_spec name t) as [->|_];
             [exfalso; apply Hn; set_solver|]
         end.
  reflexivity.
Qed.

(** A handler that throws: toggling the todo at index one half. *)
Example toggle_at_fraction_throws :
  toolSwitch (H := demoHost) 3 "toggle_todo"
    (VObj [("index", VNum (Finite (1 # 2)))]) twoTodos
  = (Throw (TypeError "Cannot read properties of undefined (reading 'done')"), twoTodos).
Proof. reflexivity. Qed.

Example toggle_at_fraction_is_reported :
  executeToolCall (H := demoHost) 3 "toggle_todo"
    (VObj [("index", VNum (Finite (1 # 2)))]) twoTodos
  = (Ret "Tool error: TypeError: Cannot read properties of undefined (reading 'done')",
     twoTodos).
Proof. reflexivity. Qed.

(** Arguments that are [null]: reading a property throws, inside the
    [try]. *)
Example null_arguments_are_reported :
  executeToolCall (H := demoHost) 3 "add_memory" VNull twoTodos
  = (Ret "Tool error: TypeError: Cannot read properties of null (reading 'text')",
     twoTodos).
Proof. reflexivity. Qed.

(** X1. For every tool name, every argument value and every state,
    [executeToolCall] returns a string and does not throw.  When the handler
    selected by the name (or the reading and conversion of its arguments)
    throws, the string is ["Tool error: "] followed by the error converted to
    a string, and the state is the one in which the error was thrown.  When
    the name is none of the nine tools, the string is ["Unknown tool: "]
    followed by the name and the state is unchanged. *)
Theorem tool_call_never_throws `{Host} (now : Z) (name : string) (args : jsval) (r : Room) :
  ∃ result : string,
    fst (executeToolCall now name args r) = Ret result
    ∧ (∀ err r', toolSwitch now name args r = (Throw err, r') →
         result = "Tool error: " +:+ String_of_exn err
         ∧ snd (executeToolCall now name args r) = r')
    ∧ (name ∉ toolNames →
         result = "Unknown tool: " +:+ name
         ∧ snd (executeToolCall now name args r) = r).
Proof.
  unfold executeToolCall, try_catch.
  destruct (toolSwitch now name args r) as [[s|e] r1] eqn:Hsw; simpl.
  - exists s. split; [done | split].
    + intros err r' Heq. discriminate Heq.
    + intros Hn. rewrite toolSwitch_unknown in Hsw by done.
      unfold ret in Hsw. by simplify_eq.
  - exists ("Tool error: " +:+ String_of_exn e). split; [done | split].
    + intros err r' Heq. by simplify_eq.
    + intros Hn. rewrite toolSwitch_unknown in Hsw by done.
      unfold ret in Hsw. discriminate Hsw.
Qed.

(** ** The heartbeat alarm *)

(** A connection is stale at time [now] when it is open and was last seen
    more than [STALE_TIMEOUT_MS] ago (a socket never seen counts as seen at
    time 0, as in the source). *)
Definition stale (now : Z) (r : Room) (ws : nat) : Prop :=
  readyState r !! ws = Some OPEN
  ∧ STALE_TIMEOUT_MS < now - default 0 (lastSeen r !! ws).

#[local] Instance stale_dec now r ws : Decision (stale now r ws).
Proof. unfold stale. apply _. Defined.

(** The [close] effects of the reclaimed sockets. *)
Definition closes (culled : list nat) : list Effect :=
  (λ ws, Close ws 1011 "cleanup") <$> culled.

(** What reclaiming the sockets [culled] does to the maps of the actor. *)
Definition reclaimed (culled : list nat) (r r' : Room) : Prop :=
  (∀ ws, readyState r' !! ws
         = if decide (ws ∈ culled) then Some CLOSING else readyState r !! ws)
  ∧ (∀ ws, lastSeen r' !! ws = if decide (ws ∈ culled) then None else lastSeen r !! ws)
  ∧ (∀ ws, connIds r' !! ws = if decide (ws ∈ culled) then None else connIds r !! ws)
  ∧ (∀ ws, clientIds r' !! ws
           = if decide (ws ∈ culled) then None else clientIds r !! ws)
  ∧ (∀ ws, userNames r' !! ws
           = if decide (ws ∈ culled) then None else userNames r !! ws).

Lemma cleanup_open (ws : nat) (r : Room) :
  readyState r !! ws = Some OPEN →
  cleanup ws r
  = set_trace (trace r ++ [Close ws 1011 "cleanup"])
      (set_readyState (<[ws := CLOSING]> (readyState r))
         (set_lastSeen (delete ws (lastSeen r))
            (set_userNames (delete ws (userNames r))
               (set_clientIds (delete ws (clientIds r))
                  (set_connIds (delete ws (connIds r)) r))))).
Proof.
  intros Ho. unfold cleanup, close, emit.
  change (readyState (set_lastSeen _ _)) with (readyState r).
  by rewrite Ho.
Qed.

Lemma alarmVisit_stale (now : Z) (r : Room) (c ws : nat) :
  stale now r ws → alarmVisit now (r, c) ws = (cleanup ws r, S c).
Proof.
  intros [Ho Hl]. unfold alarmVisit.
  rewrite bool_decide_eq_true_2 by done.
  replace (STALE_TIMEOUT_MS <? now - default 0 (lastSeen r !! ws)) with true
    by (symmetry; by apply Z.ltb_lt).
  reflexivity.
Qed.

Lemma alarmVisit_fresh (now : Z) (r : Room) (c ws : nat) :
  ¬ stale now r ws → alarmVisit now (r, c) ws = (r, c).
Proof.
  intros Hn. unfold alarmVisit.
  destruct (STALE_TIMEOUT_MS <? now - default 0 (lastSeen r !! ws)) eqn:Hl; [|done].
  destruct (bool_decide (readyState r !! ws = Some OPEN)) eqn:Ho; [|done].
  exfalso. apply Hn. split; [by apply bool_decide_eq_true in Ho | by apply Z.ltb_lt].
Qed.

Lemma stale_after_cleanup (now : Z) (r : Room) (ws0 ws : nat) :
  readyState r !! ws0 = Some OPEN →
  stale now (cleanup ws0 r) ws ↔ ws ≠ ws0 ∧ stale now r ws.
Proof.
  intros Ho. rewrite cleanup_open by done. unfold stale. cbn.
  destruct (decide (ws = ws0)) as [->|Hne].
  - rewrite lookup_insert_eq. naive_solver.
  - rewrite lookup_insert_ne, lookup_delete_ne by done. naive_solver.
Qed.

(** The parts of the state that the heartbeat does not touch. *)
Definition untouched (r r' : Room) : Prop :=
  sockets r' = sockets r ∧ storage r' = storage r
  ∧ heartbeatAlarm r' = heartbeatAlarm r
  ∧ history r' = history r ∧ pinned r' = pinned r ∧ artifacts r' = artifacts r
  ∧ settings r' = settings r ∧ aiRunning r' = aiRunning r
  ∧ pendingAI r' = pendingAI r.

(** The loop of [alarm] over a list [l] of sockets. *)
Lemma alarm_loop (now : Z) (l : list nat) (r : Room) (c : nat) :
  ∃ culled : list nat,
    (∀ ws, ws ∈ culled ↔ ws ∈ l ∧ stale now r ws)
    ∧ reclaimed culled r (foldl (alarmVisit now) (r, c) l).1
    ∧ (foldl (alarmVisit now) (r, c) l).2 = (c + length culled)%nat
    ∧ trace (foldl (alarmVisit now) (r, c) l).1 = trace r ++ closes culled
    ∧ untouched r (foldl (alarmVisit now) (r, c) l).1.
Proof.
  revert r c. induction l as [|ws0 l IH]; intros r c.
  - exists []. simpl. unfold reclaimed, closes, untouched. simpl.
    rewrite app_nil_r. repeat split; try done; try lia; set_solver.
  - cbn [foldl]. destruct (decide (stale now r ws0)) as [Hs|Hs].
    + rewrite alarmVisit_stale by done.
      destruct (IH (cleanup ws0 r) (S c)) as (culled & Hin & Hrec & Hc & Htr & Hun).
      destruct Hs as [Ho Hl].
      pose proof (cleanup_open ws0 r Ho) as Hcl.
      exists (ws0 :: culled). split; [|split; [|split; [|split]]].
      * intros ws. rewrite elem_of_cons, Hin, stale_after_cleanup by done.
        rewrite elem_of_cons. unfold stale.
        destruct (decide (ws = ws0)) as [->|Hne]; naive_solver.
      * destruct Hrec as (H1 & H2 & H3 & H4 & H5).
        assert (E1 : readyState (cleanup ws0 r) = <[ws0 := CLOSING]> (readyState r))
          by (by rewrite Hcl).
        assert (E2 : lastSeen (cleanup ws0 r) = delete ws0 (lastSeen r))
          by (by rewrite Hcl).
        assert (E3 : connIds (cleanup ws0 r) = delete ws0 (connIds r))
          by (by rewrite Hcl).
        assert (E4 : clientIds (cleanup ws0 r) = delete ws0 (clientIds r))
          by (by rewrite Hcl).
        assert (E5 : userNames (cleanup ws0 r) = delete ws0 (userNames r))
          by (by rewrite Hcl).
        rewrite E1 in H1. rewrite E2 in H2. rewrite E3 in H3.
        rewrite E4 in H4. rewrite E5 in H5. clear Hcl E1 E2 E3 E4 E5.
        repeat split; intros ws;
          [rewrite H1 | rewrite H2 | rewrite H3 | rewrite H4 | rewrite H5];
          destruct (decide (ws = ws0)) as [->|Hne];
          repeat case_decide; simplify_map_eq; try done; set_solver.
      * rewrite Hc. simpl. lia.
      * rewrite Htr. assert (E : trace (cleanup ws0 r) = trace r ++ [Close ws0 1011 "cleanup"])
          by (by rewrite Hcl).
        rewrite E. unfold closes. rewrite fmap_cons. by rewrite <- app_assoc.
      * destruct Hun as (U1 & U2 & U3 & U4 & U5 & U6 & U7 & U8 & U9).
        unfold untouched.
        rewrite U1, U2, U3, U4, U5, U6, U7, U8, U9, Hcl. done.
    + rewrite alarmVisit_fresh by done.
      destruct (IH r c) as (culled & Hin & Hrec & Hc & Htr & Hun).
      exists culled. split; [|done].
      intros ws. rewrite Hin, elem_of_cons. naive_solver.
Qed.

Lemma ensureHeartbeatAlarm_arm (now : Z) (r : Room) :
  heartbeatAlarm r = false → alarmAt (storage r) = None →
  ensureHeartbeatAlarm now r
  = set_heartbeatAlarm true
      (set_trace (trace r ++ [SetAlarm (now + HEARTBEAT_INTERVAL_MS)])
         (set_storage (set_alarmAt (Some (now + HEARTBEAT_INTERVAL_MS)) (storage r)) r)).
Proof.
  intros Hh Ha. unfold ensureHeartbeatAlarm, setAlarm, emit. by rewrite Hh, Ha.
Qed.

(** X2. The heartbeat.  When the alarm fires (its slot in the store is then
    empty), the sockets reclaimed are exactly the accepted sockets that are
    open and were last seen more than 45 s before [now]; each is closed with
    code 1011 and removed from the four maps, and no other socket is
    touched.  The presence, which is the number of sockets still open, is
    sent to each of these if and only if some socket was reclaimed; the alarm
    is set again, 30 s from [now], if and only if some socket is still open,
    and the flag [heartbeatAlarm] says so. *)
Theorem heartbeat_reclaims_stale (now : Z) (r : Room) :
  alarmAt (storage r) = None →
  let r' := alarm now r in
  let remaining := getOpenSockets r' in
  ∃ culled : list nat,
    (∀ ws, ws ∈ culled ↔ ws ∈ sockets r ∧ stale now r ws)
    ∧ reclaimed culled r r'
    ∧ trace r'
      = trace r ++ closes culled
        ++ (if bool_decide (culled = []) then []
            else (λ ws, Send ws (FPresence (length remaining))) <$> remaining)
        ++ (if bool_decide (remaining = []) then []
            else [SetAlarm (now + HEARTBEAT_INTERVAL_MS)])
    ∧ heartbeatAlarm r' = bool_decide (remaining ≠ [])
    ∧ alarmAt (storage r')
      = (if bool_decide (remaining = []) then None
         else Some (now + HEARTBEAT_INTERVAL_MS)).
Proof.
  intros Hal r' remaining.
  destruct (alarm_loop now (sockets r) (set_heartbeatAlarm false r) 0)
    as (culled & Hin & Hrec & Hc & Htr & Hun).
  exists culled. split; [exact Hin|].
  subst remaining r'. unfold alarm.
  change (sockets (set_heartbeatAlarm false r)) with (sockets r).
  destruct (foldl (alarmVisit now) (set_heartbeatAlarm false r, 0%nat) (sockets r))
    as [r2 c] eqn:HP.
  cbn [fst snd] in Hrec, Hc, Htr, Hun.
  destruct Hun as (U1 & U2 & U3 & _).
  change (sockets r2 = sockets r) in U1.
  change (storage r2 = storage r) in U2.
  change (heartbeatAlarm r2 = false) in U3.
  change (trace r2 = trace r ++ closes culled) in Htr.
  set (r3 := if (0 <? c)%nat then broadcastPresence r2 else r2).
  assert (H3 : r3 = set_trace
                      (trace r ++ closes culled
                       ++ (if bool_decide (culled = []) then []
                           else (λ ws, Send ws (FPresence (length (getOpenSockets r2))))
                                  <$> getOpenSockets r2)) r2).
  { subst r3. rewrite Hc. destruct culled as [|w culled'].
    - unfold closes in *. simpl in *. rewrite app_nil_r in *. by rewrite <- Htr.
    - rewrite bool_decide_eq_false_2 by done. simpl.
      rewrite broadcastPresence_eq, Htr. unfold sends. by rewrite <- app_assoc. }
  clearbody r3. subst r3.
  change (getOpenSockets (set_trace _ r2)) with (getOpenSockets r2).
  destruct (getOpenSockets r2) as [|w0 open] eqn:Hopen.
  - simpl. change (getOpenSockets (set_trace _ r2)) with (getOpenSockets r2).
    rewrite Hopen. simpl. rewrite app_nil_r.
    split; [exact Hrec | split; [done | split; [exact U3 |]]].
    change (alarmAt (storage r2) = None). by rewrite U2.
  - cbn [length Nat.ltb Nat.leb].
    rewrite ensureHeartbeatAlarm_arm;
      [| exact U3 | change (alarmAt (storage r2) = None); by rewrite U2].
    change (getOpenSockets (set_heartbeatAlarm _ _)) with (getOpenSockets r2).
    rewrite Hopen. simpl.
    split; [exact Hrec | split; [|done]].
    by rewrite <- !app_assoc.
Qed.

Lemma two_clients_one_stale :
  let r := run (H := demoHost) [(0, Fetch true 1); (40000, Fetch true 2)] newRoom in
  let fired := set_storage (set_alarmAt None (storage r)) r in
  alarmAt (storage fired) = None
  ∧ getOpenSockets fired = [1%nat; 2%nat]
  ∧ getOpenSockets (alarm 50000 fired) = [2%nat]
  ∧ ∃ culled : list nat,
      (∀ ws, ws ∈ culled ↔ ws ∈ sockets fired ∧ stale 50000 fired ws)
      ∧ reclaimed culled fired (alarm 50000 fired)
      ∧ trace (alarm 50000 fired)
        = trace fired ++ closes culled
          ++ (if bool_decide (culled = []) then []
              else (λ ws, Send ws (FPresence (length (getOpenSockets (alarm 50000 fired)))))
                     <$> getOpenSockets (alarm 50000 fired))
          ++ (if bool_decide (getOpenSockets (alarm 50000 fired) = []) then []
              else [SetAlarm (50000 + HEARTBEAT_INTERVAL_MS)])
      ∧ heartbeatAlarm (alarm 50000 fired)
        = bool_decide (getOpenSockets (alarm 50000 fired) ≠ [])
      ∧ alarmAt (storage (alarm 50000 fired))
        = (if bool_decide (getOpenSockets (alarm 50000 fired) = []) then None
           else Some (50000 + HEARTBEAT_INTERVAL_MS)).
Proof.
  split; [reflexivity | split; [reflexivity | split; [reflexivity |]]].
  exact (heartbeat_reclaims_stale 50000
           (set_storage
              (set_alarmAt None
                 (storage (run (H := demoHost) [(0, Fetch true 1); (40000, Fetch true 2)]
                             newRoom)))
              (run (H := demoHost) [(0, Fetch true 1); (40000, Fetch true 2)] newRoom))
           eq_refl).
Defined.

(** ** Parts of the state that a computation leaves alone *)

(** The single-flight state of the AI is as it was. *)
Definition quietAI (r r' : Room) : Prop :=
  aiRunning r' = aiRunning r ∧ pendingAI r' = pendingAI r.

(** The chat history, its stored copy and the count of unflushed entries
    are as they were. *)
Definition quietHistory (r r' : Room) : Prop :=
  history r' = history r
  ∧ sk_history (storage r') = sk_history (storage r)
  ∧ historyDirty r' = historyDirty r.

(** Neither of them is touched, and the actor is hydrated as before. *)
Definition quiet (r r' : Room) : Prop :=
  quietAI r r' ∧ quietHistory r r' ∧ loaded r' = loaded r.

#[local] Instance quietAI_preorder : PreOrder quietAI.
Proof.
  split.
  - by intros r.
  - intros r1 r2 r3 [H1 H2] [H3 H4]. split; congruence.
Qed.

#[local] Instance quietHistory_preorder : PreOrder quietHistory.
Proof.
  split.
  - by intros r.
  - intros r1 r2 r3 (H1 & H2 & H3) (H4 & H5 & H6). repeat split; congruence.
Qed.

#[local] Instance quiet_preorder : PreOrder quiet.
Proof.
  split.
  - intros r. split; [reflexivity | split; reflexivity].
  - intros r1 r2 r3 (H1 & H2 & H3) (H4 & H5 & H6).
    split; [etrans; eauto | split; [etrans; eauto | congruence]].
Qed.

Lemma keeps_mono (R R' : Room → Room → Prop) {A} (m : M A) :
  (∀ r r', R r r' → R' r r') → keeps R m → keeps R' m.
Proof. intros HR Hm r. apply HR, Hm. Qed.

(** A state that differs from [r] in its trace only. *)
Lemma quiet_set_trace (t : list Effect) (r : Room) : quiet r (set_trace t r).
Proof. by repeat split. Qed.

Section Quiet.
Context `{Host}.

Lemma quiet_broadcast (f : Frame) (r : Room) : quiet r (broadcast f r).
Proof. rewrite broadcast_eq. apply quiet_set_trace. Qed.

Lemma quiet_broadcastPresence (r : Room) : quiet r (broadcastPresence r).
Proof. rewrite broadcastPresence_eq. apply quiet_set_trace. Qed.

Lemma quiet_broadcastSystem (now : Z) (text : string) (r : Room) :
  quiet r (broadcastSystem now text r).
Proof. apply quiet_broadcast. Qed.

Lemma quiet_broadcastMemoryUpdate (r : Room) : quiet r (broadcastMemoryUpdate r).
Proof. apply quiet_broadcast. Qed.

Lemma quiet_send (ws : nat) (f : Frame) (r : Room) : quiet r (send ws f r).
Proof. apply quiet_set_trace. Qed.

Lemma quiet_schedulePinnedFlush (r : Room) : quiet r (schedulePinnedFlush r).
Proof. unfold schedulePinnedFlush. case_match; by repeat split. Qed.

Lemma quiet_pinnedFlushFired (r : Room) : quiet r (pinnedFlushFired r).
Proof. by repeat split. Qed.

Lemma quiet_set_pinned (p : PinnedMemory.t) (r : Room) : quiet r (set_pinned p r).
Proof. by repeat split. Qed.

Lemma quiet_addArtifact (now : Z) (title type content by_ : string) (r : Room) :
  quiet r (addArtifact now title type content by_ r).
Proof. unfold addArtifact. rewrite broadcast_eq. by repeat split. Qed.

Lemma quiet_cleanup (ws : nat) (r : Room) : quiet r (cleanup ws r).
Proof.
  unfold cleanup, close.
  change (readyState (set_lastSeen _ _)) with (readyState r).
  repeat case_match; by repeat split.
Qed.

Lemma quiet_ensureHeartbeatAlarm (now : Z) (r : Room) :
  quiet r (ensureHeartbeatAlarm now r).
Proof.
  unfold ensureHeartbeatAlarm, setAlarm.
  repeat case_match; by repeat split.
Qed.

Lemma quiet_doAddMemory (text : string) : keeps quiet (doAddMemory text).
Proof.
  unfold doAddMemory. repeat keeps_step;
    auto using quiet_schedulePinnedFlush, quiet_broadcastMemoryUpdate;
    by repeat split.
Qed.

Lemma quiet_doAddTodo (text : string) : keeps quiet (doAddTodo text).
Proof.
  unfold doAddTodo. repeat keeps_step;
    auto using quiet_schedulePinnedFlush, quiet_broadcastMemoryUpdate;
    by repeat split.
Qed.

Lemma quiet_doDeleteMemory (index : jsnum) : keeps quiet (doDeleteMemory index).
Proof.
  unfold doDeleteMemory. repeat keeps_step;
    auto using quiet_schedulePinnedFlush, quiet_broadcastMemoryUpdate;
    by repeat split.
Qed.

Lemma quiet_doDeleteTodo (index : jsnum) : keeps quiet (doDeleteTodo index).
Proof.
  unfold doDeleteTodo. repeat keeps_step;
    auto using quiet_schedulePinnedFlush, quiet_broadcastMemoryUpdate;
    by repeat split.
Qed.

Lemma quiet_doToggleTodo (index : jsnum) : keeps quiet (doToggleTodo index).
Proof.
  unfold doToggleTodo. repeat keeps_step;
    auto using quiet_schedulePinnedFlush, quiet_broadcastMemoryUpdate;
    by repeat split.
Qed.

Lemma quiet_doClearMemories : keeps quiet doClearMemories.
Proof.
  unfold doClearMemories. repeat keeps_step;
    auto using quiet_schedulePinnedFlush, quiet_broadcastMemoryUpdate;
    by repeat split.
Qed.

Lemma quiet_doClearTodos : keeps quiet doClearTodos.
Proof.
  unfold doClearTodos. repeat keeps_step;
    auto using quiet_schedulePinnedFlush, quiet_broadcastMemoryUpdate;
    by repeat split.
Qed.

Lemma quiet_doCreateArtifact (now : Z) (title type content : string) :
  keeps quiet (doCreateArtifact now title type content).
Proof. unfold doCreateArtifact. repeat keeps_step; auto using quiet_addArtifact. Qed.

Lemma quiet_doDeleteArtifact (id : string) : keeps quiet (doDeleteArtifact id).
Proof.
  unfold doDeleteArtifact. repeat keeps_step; auto using quiet_broadcast;
    by repeat split.
Qed.

Lemma quiet_toolSwitch (now : Z) (name : string) (args : jsval) :
  keeps quiet (toolSwitch now name args).
Proof.
  unfold toolSwitch, stringArg, indexArg.
  repeat lazymatch goal with
         | |- keeps _ (doAddMemory _) => apply quiet_doAddMemory
         | |- keeps _ (doAddTodo _) => apply quiet_doAddTodo
         | |- keeps _ (doDeleteMemory _) => apply quiet_doDeleteMemory
         | |- keeps _ (doDeleteTodo _) => apply quiet_doDeleteTodo
         | |- keeps _ (doToggleTodo _) => apply quiet_doToggleTodo
         | |- keeps _ doClearMemories => apply quiet_doClearMemories
         | |- keeps _ doClearTodos => apply quiet_doClearTodos
         | |- keeps _ (doCreateArtifact _ _ _ _) => apply quiet_doCreateArtifact
         | |- keeps _ (doDeleteArtifact _) => apply quiet_doDeleteArtifact
         | _ => keeps_step
         end.
Qed.

(** Tools never touch the chat history nor the single-flight state. *)
Lemma quiet_executeToolCall (now : Z) (name : string) (args : jsval) :
  keeps quiet (executeToolCall now name args).
Proof.
  unfold executeToolCall. keeps_step; [apply quiet_toolSwitch | keeps_step].
Qed.

Lemma quiet_runToolCalls (now : Z) (calls : list ToolCall.t) (messages : list Msg.t) :
  keeps quiet (runToolCalls now calls messages).
Proof.
  revert messages. induction calls as [|call calls IH]; intros messages; simpl.
  - keeps_step.
  - keeps_step; [keeps_step |].
    keeps_step; [apply quiet_executeToolCall | apply IH].
Qed.

End Quiet.

Lemma quiet_alarmVisit (now : Z) (acc : Room * nat) (ws : nat) :
  quiet acc.1 (alarmVisit now acc ws).1.
Proof.
  destruct acc as [r c]. unfold alarmVisit. simpl.
  case_match; simpl; [apply quiet_cleanup | reflexivity].
Qed.

Lemma quiet_alarm_loop (now : Z) (l : list nat) (acc : Room * nat) :
  quiet acc.1 (foldl (alarmVisit now) acc l).1.
Proof.
  revert acc. induction l as [|ws l IH]; intros acc; simpl; [reflexivity|].
  etrans; [apply (quiet_alarmVisit now acc ws) | apply IH].
Qed.

Lemma quiet_alarm (now : Z) (r : Room) : quiet r (alarm now r).
Proof.
  unfold alarm.
  pose proof (quiet_alarm_loop now (sockets (set_heartbeatAlarm false r))
                (set_heartbeatAlarm false r, 0%nat)) as Hl.
  destruct (foldl _ _ _) as [r2 c]. simpl in Hl.
  assert (H0 : quiet r r2) by (etrans; [|exact Hl]; by repeat split).
  repeat case_match;
    repeat first [ exact H0
                 | etrans; [|apply quiet_ensureHeartbeatAlarm]
                 | etrans; [|apply quiet_broadcastPresence] ].
Qed.

(** ** Invariants of the transition system

    An invariant is kept by every event as soon as it is kept by the few
    operations that touch the chat history or the single-flight state of
    the AI; every other operation is [quiet]. *)

Section Invariant.
Context `{Host}.
Variable I : Room → Prop.
Hypothesis I_quiet : ∀ r r', quiet r r' → I r → I r'.
Hypothesis I_ensureLoaded : ∀ r, I r → I (ensureLoaded r).
Hypothesis I_broadcastChat : ∀ now user text r, I r → I (broadcastChat now user text r).
Hypothesis I_reset : ∀ now user r, I r → I (reset now user r).2.
Hypothesis I_triggerAI : ∀ now prompt r, I r → I (triggerAI now prompt r).
Hypothesis I_generate :
  ∀ now kind prompt text r, I r → aiRunning r = false →
    I (callAI kind prompt (broadcastSystem now text (set_aiRunning true r))).
Hypothesis I_aiReplied : ∀ now date i reply r, I r → I (aiReplied now date i reply r).
Hypothesis I_reactivate : ∀ r, I r → I (reactivate r).

Definition holds (r r' : Room) : Prop := I r → I r'.

#[local] Instance holds_preorder : PreOrder holds.
Proof.
  split.
  - intros r Hi. exact Hi.
  - intros r1 r2 r3 H1 H2 Hi. apply H2, H1, Hi.
Qed.

Lemma holds_quiet (r r' : Room) : quiet r r' → holds r r'.
Proof. intros Hq Hi. by eapply I_quiet. Qed.

Lemma holds_keeps_quiet {A} (m : M A) : keeps quiet m → keeps holds m.
Proof. apply keeps_mono. apply holds_quiet. Qed.

(** Closes a goal [holds r (f r)] for an operation [f] that is quiet. *)
Ltac holds_quiet_step :=
  apply holds_quiet;
  first
    [ apply quiet_broadcast | apply quiet_broadcastSystem | apply quiet_send
    | apply quiet_addArtifact | apply quiet_broadcastMemoryUpdate
    | rewrite ?foldl_emit; repeat case_match; by repeat split ].

Lemma holds_hello (ws : nat) (clientId user : jsval) : keeps holds (hello ws clientId user).
Proof.
  unfold hello. repeat keeps_step; try holds_quiet_step.
  apply holds_quiet.
  change (λ r' entry, send ws (FChat entry) r')
    with (λ r' entry, emit ((λ e, Send ws (FChat e)) entry) r').
  rewrite foldl_emit. by repeat split.
Qed.

Lemma holds_settingsUpdate (systemPrompt aiAutoRespond : jsval) :
  keeps holds (settingsUpdate systemPrompt aiAutoRespond).
Proof. unfold settingsUpdate. repeat keeps_step; holds_quiet_step. Qed.

Lemma holds_artifactCreate (now : Z) (ws : nat) (mode : string)
    (artifactType title content user : option string) :
  keeps holds (artifactCreate now ws mode artifactType title content user).
Proof.
  unfold artifactCreate. keeps_step; [keeps_step|].
  keeps_step; [|keeps_step; holds_quiet_step].
  intros r. unfold bind, gets, exec. simpl. case_match eqn:Hrun; simpl.
  - holds_quiet_step.
  - intros Hi. by apply I_generate.
Qed.

Lemma holds_chatCommand (now : Z) (user text : string) :
  keeps holds (chatCommand now user text).
Proof.
  unfold chatCommand.
  repeat first
    [ apply holds_keeps_quiet; first [apply quiet_doAddMemory | apply quiet_doAddTodo]
    | lazymatch goal with |- keeps _ (reset _ _) => intros r Hi; by apply I_reset end
    | keeps_step ];
    try holds_quiet_step; try (intros Hi; by apply I_triggerAI).
Qed.

Lemma holds_chat (now : Z) (user text : jsval) : keeps holds (chat now user text).
Proof.
  unfold chat. repeat first [ apply holds_chatCommand | keeps_step ].
  intros Hi. by apply I_broadcastChat.
Qed.

Lemma holds_discard_quiet {A} (m : M A) : keeps quiet m → keeps holds (discard m).
Proof. intros Hm. apply holds_keeps_quiet, keeps_discard; [apply _ | exact Hm]. Qed.

Lemma holds_dispatch (now : Z) (ws : nat) (msg : ClientMsg) :
  keeps holds (dispatch now ws msg).
Proof.
  destruct msg; cbn [dispatch].
  - keeps_step.
  - apply holds_hello.
  - case_match; [keeps_step|].
    case_match; apply holds_discard_quiet;
      [apply quiet_doAddTodo | apply quiet_doAddMemory].
  - case_match; [keeps_step|].
    case_match; apply holds_discard_quiet;
      [apply quiet_doDeleteTodo | apply quiet_doDeleteMemory].
  - apply holds_discard_quiet, quiet_doToggleTodo.
  - apply holds_settingsUpdate.
  - apply holds_artifactCreate.
  - apply holds_discard_quiet, quiet_doDeleteArtifact.
  - repeat keeps_step. apply holds_quiet, quiet_send.
  - keeps_step. apply holds_quiet, quiet_send.
  - apply holds_chat.
  - keeps_step.
Qed.

Lemma holds_webSocketMessage (now : Z) (ws : nat) (raw : RawFrame) :
  keeps holds (webSocketMessage now ws raw).
Proof.
  unfold webSocketMessage. destruct raw as [|[msg|]]; [keeps_step | | keeps_step].
  keeps_step; [keeps_step; apply holds_quiet; by repeat split |].
  destruct msg;
    first
      [ keeps_step; apply holds_quiet, quiet_send
      | keeps_step;
        [ keeps_step; intros Hi; by apply I_ensureLoaded
        | apply holds_dispatch ] ].
Qed.

Lemma holds_fetch (now : Z) (upgrade : bool) (ws : nat) (r : Room) :
  holds r (fetch now upgrade ws r).
Proof.
  unfold fetch. case_match; [reflexivity|]. intros Hi.
  eapply I_quiet; [apply quiet_broadcastPresence|].
  eapply I_quiet; [apply quiet_ensureHeartbeatAlarm|].
  eapply I_quiet; [|apply (I_ensureLoaded r Hi)]. by repeat split.
Qed.

(** Every event keeps the invariant. *)
Lemma holds_step (now : Z) (ev : Event) (r : Room) : holds r (step now ev r).
Proof.
  destruct ev; simpl.
  - apply holds_fetch.
  - apply holds_webSocketMessage.
  - unfold webSocketClose. apply holds_quiet.
    etrans; [apply quiet_cleanup | apply quiet_broadcastPresence].
  - unfold webSocketError. apply holds_quiet.
    etrans; [apply quiet_cleanup | apply quiet_broadcastPresence].
  - case_match; [|reflexivity]. apply holds_quiet.
    etrans; [|apply quiet_alarm]. by repeat split.
  - case_match; [|reflexivity]. apply holds_quiet, quiet_pinnedFlushFired.
  - intros Hi. by apply I_aiReplied.
  - intros Hi. by apply I_reactivate.
Qed.

Lemma holds_run (evs : list (Z * Event)) (r : Room) : holds r (run evs r).
Proof.
  revert r. induction evs as [|[now ev] evs IH]; intros r; simpl; [reflexivity|].
  etrans; [apply holds_step | apply IH].
Qed.

End Invariant.

(** ** Single flight: at most one AI turn at a time *)

(** The flag [aiRunning] is set exactly while one promise of [callAI] is
    pending. *)
Definition singleFlight (r : Room) : Prop :=
  length (pendingAI r) = if aiRunning r then 1%nat else 0%nat.

Section SingleFlight.
Context `{Host}.

Lemma quietAI_ensureLoaded (r : Room) : quietAI r (ensureLoaded r).
Proof. unfold ensureLoaded. repeat case_match; by split. Qed.

Lemma quietAI_broadcastChat (now : Z) (user text : string) (r : Room) :
  quietAI r (broadcastChat now user text r).
Proof.
  unfold broadcastChat, maybeFlushHistory. rewrite broadcast_eq.
  repeat case_match; by split.
Qed.

Lemma quietAI_reset (now : Z) (user : string) (r : Room) : quietAI r (reset now user r).2.
Proof. rewrite reset_eq. by split. Qed.

Lemma callAI_state (kind : TurnKind) (prompt : string) (r : Room) :
  aiRunning (callAI kind prompt r) = aiRunning r
  ∧ length (pendingAI (callAI kind prompt r)) = S (length (pendingAI r))
  ∧ quietHistory r (callAI kind prompt r).
Proof.
  unfold callAI. cbn. rewrite length_app. simpl. repeat split; try done.
  apply Nat.add_1_r.
Qed.

Lemma singleFlight_quietAI (r r' : Room) : quietAI r r' → singleFlight r → singleFlight r'.
Proof. intros [Ha Hp]. unfold singleFlight. by rewrite Ha, Hp. Qed.

Lemma singleFlight_start (now : Z) (kind : TurnKind) (prompt text : string) (r : Room) :
  singleFlight r → aiRunning r = false →
  singleFlight (callAI kind prompt (broadcastSystem now text (set_aiRunning true r))).
Proof.
  unfold singleFlight. intros Hs Hr. rewrite Hr in Hs.
  destruct (callAI_state kind prompt (broadcastSystem now text (set_aiRunning true r)))
    as (-> & -> & _).
  rewrite broadcastSystem_eq.
  change (S (length (pendingAI r)) = 1%nat). by rewrite Hs.
Qed.

Lemma singleFlight_triggerAI (now : Z) (prompt : string) (r : Room) :
  singleFlight r → singleFlight (triggerAI now prompt r).
Proof.
  intros Hs. unfold triggerAI. case_match eqn:Hr.
  - eapply singleFlight_quietAI; [|exact Hs]. apply quiet_broadcastSystem.
  - by apply singleFlight_start.
Qed.

(** Between two [await]s, [callAI] touches neither the history nor the
    single-flight state. *)
Lemma quiet_callAI_resume (now : Z) (t : Turn.t) (reply : outcome AIResult.t) (r : Room) :
  quiet r (callAI_resume now t reply r).2.
Proof.
  unfold callAI_resume. destruct reply as [res|e]; [|reflexivity].
  destruct (Turn.phase t); [|reflexivity].
  destruct (AIResult.tool_calls res) as [|call calls] eqn:Hc; [reflexivity|].
  pose proof (quiet_runToolCalls now (call :: calls)
                (Turn.messages t
                 ++ [Msg.mk "assistant" None (default "" (AIResult.response res))]) r) as Hq.
  destruct (runToolCalls _ _ _ r) as [[msgs|e] r1]; simpl in *; [|exact Hq].
  etrans; [exact Hq | by repeat split].
Qed.

Lemma settle_state (now : Z) (date : string) (kind : TurnKind)
    (result : outcome string) (r : Room) :
  aiRunning (settle now date kind result r) = false
  ∧ pendingAI (settle now date kind result r) = pendingAI r.
Proof.
  unfold settle. split; [done|].
  destruct kind, result.
  - change (pendingAI (broadcastChat now "AI" a r) = pendingAI r).
    apply quietAI_broadcastChat.
  - change (pendingAI (broadcastSystem now ("AI error: " +:+ String_of_exn e) r)
            = pendingAI r).
    apply quiet_broadcastSystem.
  - change (pendingAI (addArtifact now (Str.or_else title (inferTitle date artifactType))
                         artifactType a userName r) = pendingAI r).
    apply quiet_addArtifact.
  - change (pendingAI (broadcastSystem now ("AI error: " +:+ String_of_exn e) r)
            = pendingAI r).
    apply quiet_broadcastSystem.
Qed.

Lemma singleFlight_aiReplied (now : Z) (date : string) (i : nat)
    (reply : outcome AIResult.t) (r : Room) :
  singleFlight r → singleFlight (aiReplied now date i reply r).
Proof.
  intros Hs. unfold aiReplied.
  destruct (pendingAI r !! i) as [t|] eqn:Hi; [|exact Hs].
  pose proof (quiet_callAI_resume now t reply r) as [[Ha Hp] _].
  unfold singleFlight in *.
  destruct (callAI_resume now t reply r) as [[text|err|t'] r1];
    cbn [snd] in Ha, Hp; cbv beta iota.
  - destruct (settle_state now date (Turn.kind t) (Ret text)
                (set_pendingAI (delete i (pendingAI r1)) r1)) as [-> ->].
    change (length (delete i (pendingAI r1)) = 0%nat).
    rewrite length_delete by (rewrite Hp, Hi; eauto).
    rewrite Hp, Hs. by destruct (aiRunning r).
  - destruct (settle_state now date (Turn.kind t) (Throw err)
                (set_pendingAI (delete i (pendingAI r1)) r1)) as [-> ->].
    change (length (delete i (pendingAI r1)) = 0%nat).
    rewrite length_delete by (rewrite Hp, Hi; eauto).
    rewrite Hp, Hs. by destruct (aiRunning r).
  - change (length (<[i := t']> (pendingAI r1))
            = if aiRunning r1 then 1%nat else 0%nat).
    rewrite length_insert, Hp, Ha. exact Hs.
Qed.

End SingleFlight.

(** X3. Single flight, over every run.  If the flag [aiRunning] is set exactly
    while one AI turn is in flight (as in a new actor, where none is), it is
    so after every sequence of events: connections, frames, closes, alarms,
    timers, inference results and evictions. *)
Theorem single_flight_in_every_run `{Host} (evs : list (Z * Event)) (r : Room) :
  singleFlight r → singleFlight (run evs r).
Proof.
  apply (holds_run singleFlight).
  - intros r1 r2 [Hq _]. by apply singleFlight_quietAI.
  - intros r1. apply singleFlight_quietAI, quietAI_ensureLoaded.
  - intros now user text r1. apply singleFlight_quietAI, quietAI_broadcastChat.
  - intros now user r1. apply singleFlight_quietAI, quietAI_reset.
  - intros now prompt r1. apply singleFlight_triggerAI.
  - intros now kind prompt text r1. apply singleFlight_start.
  - intros now date i reply r1. apply singleFlight_aiReplied.
  - intros r1 _. reflexivity.
Qed.

(** A run with two AI triggers back to back and the reply to the first. *)
Definition twoTriggers : list (Z * Event) :=
  [(0, Fetch true 1);
   (1, Message 1 (Text (Some (MChat (VStr "ann") (VStr "@ai hi")))));
   (2, Message 1 (Text (Some (MChat (VStr "ann") (VStr "/summarize")))));
   (3, AIReply "1/1/2026" 0 (Ret (AIResult.mk (Some "hello") [])))].

Lemma single_flight_of_two_triggers :
  singleFlight newRoom
  ∧ aiRunning (run (H := demoHost) (take 3 twoTriggers) newRoom) = true
  ∧ singleFlight (run (H := demoHost) (take 3 twoTriggers) newRoom)
  ∧ singleFlight (run (H := demoHost) twoTriggers newRoom).
Proof.
  assert (H0 : singleFlight newRoom) by reflexivity.
  split; [exact H0 | split; [reflexivity | split]].
  - exact (single_flight_in_every_run (H := demoHost) (take 3 twoTriggers) newRoom H0).
  - exact (single_flight_in_every_run (H := demoHost) twoTriggers newRoom H0).
Defined.

(** ** AI requests while a turn is in flight *)

(** X4. While [aiRunning] is set, [triggerAI] only broadcasts the notice that
    the AI is already thinking, and an [artifact.create] frame of mode [ai]
    only answers its sender that the AI is busy: no inference call is made,
    no turn is started, and nothing else in the state changes. *)
Theorem ai_request_while_running_is_rejected `{Host}
    (now : Z) (ws : nat) (prompt : string)
    (artifactType title content user : option string) (r : Room) :
  aiRunning r = true →
  triggerAI now prompt r
  = set_trace
      (trace r
       ++ sends (FChat (ChatEntry.mk "System" "AI is already thinking... please wait." now)) r)
      r
  ∧ artifactCreate now ws "ai" artifactType title content user r
    = (Ret tt,
       set_trace
         (trace r
          ++ [Send ws (FChat (ChatEntry.mk "System" "AI is busy, try again shortly." now))])
         r).
Proof.
  intros Hr. split.
  - unfold triggerAI. rewrite Hr. apply broadcastSystem_eq.
  - unfold artifactCreate, bind, gets, exec. cbn.
    case_match eqn:Hr'; [reflexivity | congruence].
Qed.

Lemma second_trigger_is_rejected :
  let r := run (H := demoHost) (take 2 twoTriggers) newRoom in
  aiRunning r = true
  ∧ triggerAI 2 "again" r
    = set_trace
        (trace r
         ++ [Send 1 (FChat (ChatEntry.mk "System" "AI is already thinking... please wait." 2))])
        r.
Proof.
  split; [reflexivity|].
  exact (proj1 (ai_request_while_running_is_rejected (H := demoHost) 2 1 "again"
                  None None None None
                  (run (H := demoHost) (take 2 twoTriggers) newRoom) eq_refl)).
Defined.

(** ** The end of an AI turn *)

Section TurnEnd.
Context `{Host}.

(** The state after a turn has failed with [err]: the notice of the error
    is broadcast, the turn is gone and the flag is released. *)
Definition failed (now : Z) (i : nat) (err : exn) (r : Room) : Room :=
  set_aiRunning false
    (set_trace
       (trace r
        ++ sends (FChat (ChatEntry.mk "System" ("AI error: " +:+ String_of_exn err) now)) r)
       (set_pendingAI (delete i (pendingAI r)) r)).

Lemma settle_throw (now : Z) (date : string) (kind : TurnKind) (err : exn) (r : Room) :
  settle now date kind (Throw err) r
  = set_aiRunning false
      (set_trace
         (trace r
          ++ sends (FChat (ChatEntry.mk "System" ("AI error: " +:+ String_of_exn err) now)) r)
         r).
Proof. unfold settle. destruct kind; by rewrite broadcastSystem_eq. Qed.

Lemma aiReplied_rejected (now : Z) (date : string) (i : nat) (reply : outcome AIResult.t)
    (t : Turn.t) (err : exn) (r : Room) :
  pendingAI r !! i = Some t →
  callAI_resume now t reply r = (Rejected err, r) →
  aiReplied now date i reply r = failed now i err r.
Proof.
  intros Hi Hres. unfold aiReplied. rewrite Hi, Hres. by rewrite settle_throw.
Qed.

End TurnEnd.

(** X5. A failed inference.  When the inference call awaited by a turn
    rejects, or when (with no tool call requested, or in the second call) its
    response is absent or empty, the turn ends: a system notice
    ["AI error: ..."] with the error is broadcast, the flag [aiRunning] is
    released, the turn is removed, and nothing else changes; in particular
    nothing is appended to the history. *)
Theorem inference_failure_is_reported `{Host}
    (now : Z) (date : string) (i : nat) (t : Turn.t) (err : exn)
    (calls : list ToolCall.t) (r : Room) :
  pendingAI r !! i = Some t →
  aiReplied now date i (Throw err) r = failed now i err r
  ∧ (Turn.phase t = FirstCall →
     aiReplied now date i (Ret (AIResult.mk None [])) r
     = failed now i (Error "Empty AI response") r
     ∧ aiReplied now date i (Ret (AIResult.mk (Some "") [])) r
       = failed now i (Error "Empty AI response") r)
  ∧ (Turn.phase t = SecondCall →
     aiReplied now date i (Ret (AIResult.mk None calls)) r
     = failed now i (Error "Empty AI response after tool calls") r
     ∧ aiReplied now date i (Ret (AIResult.mk (Some "") calls)) r
       = failed now i (Error "Empty AI response after tool calls") r).
Proof.
  intros Hi. split; [|split].
  - by apply (aiReplied_rejected _ _ _ _ t).
  - intros Hp. split; apply (aiReplied_rejected _ _ _ _ t); try done;
      unfold callAI_resume; by rewrite Hp.
  - intros Hp. split; apply (aiReplied_rejected _ _ _ _ t); try done;
      unfold callAI_resume; by rewrite Hp.
Qed.

(** The state after the first trigger of [twoTriggers], and its turn. *)
Definition oneTurn : Room := run (H := demoHost) (take 2 twoTriggers) newRoom.

Definition theTurn : Turn.t :=
  default (Turn.mk ChatTurn SecondCall []) (pendingAI oneTurn !! 0%nat).

Lemma empty_reply_to_first_trigger :
  pendingAI oneTurn !! 0%nat = Some theTurn
  ∧ Turn.phase theTurn = FirstCall
  ∧ aiReplied (H := demoHost) 3 "1/1/2026" 0 (Ret (AIResult.mk None [])) oneTurn
    = failed 3 0 (Error "Empty AI response") oneTurn
  ∧ history (failed 3 0 (Error "Empty AI response") oneTurn) = history oneTurn.
Proof.
  split; [reflexivity | split; [reflexivity | split; [|reflexivity]]].
  exact (proj1 (proj1 (proj2 (inference_failure_is_reported (H := demoHost)
            3 "1/1/2026" 0 theTurn (Error "x") [] oneTurn eq_refl)) eq_refl)).
Defined.

(** ** The AI reply *)

Lemma truthy_nonempty (s : string) : s ≠ "" → String.eqb s "" = false.
Proof. intros Hs. by apply String.eqb_neq. Qed.

(** What one chat send does to the history, its stored copy and the count
    of unflushed entries. *)
Lemma broadcastChat_state (now : Z) (user text : string) (r : Room) :
  let r' := broadcastChat now user text r in
  let flush := (HISTORY_FLUSH_INTERVAL <=? S (historyDirty r))%nat in
  history r' = last_n MAX_HISTORY (history r ++ [ChatEntry.mk user text now])
  ∧ sk_history (storage r')
    = (if flush then Some (history r') else sk_history (storage r))
  ∧ historyDirty r' = (if flush then 0%nat else S (historyDirty r)).
Proof.
  intros r' flush. split; [apply history_broadcastChat|].
  subst r' flush.
  destruct r as [socks states [sp sh sa ss al] pend uu nc tr ci cli un ls hb
                 hist pin art sett air ld hd pft].
  unfold broadcastChat, maybeFlushHistory. rewrite broadcast_eq.
  unfold put, emit. unfold_setters.
  cbn -[Nat.ltb Nat.leb Arr.splice].
  repeat case_match; cbn -[Nat.ltb Nat.leb Arr.splice] in *; try congruence; done.
Qed.

(** X6. The reply of the AI.  When a chat turn ends with a non-empty response
    (a first call without tool calls, or the second call), the response is
    appended to the history as an entry of user [AI] and sent to every open
    connection, the whole history is written to the store at once, whatever
    the count of unflushed entries was, the count is reset, the flag
    [aiRunning] is released and the turn is removed. *)
Theorem ai_reply_is_appended_and_flushed `{Host}
    (now : Z) (date : string) (i : nat) (t : Turn.t) (text : string)
    (calls : list ToolCall.t) (r : Room) :
  pendingAI r !! i = Some t →
  Turn.kind t = ChatTurn →
  text ≠ "" →
  (Turn.phase t = FirstCall ∧ calls = []) ∨ Turn.phase t = SecondCall →
  let r' := aiReplied now date i (Ret (AIResult.mk (Some text) calls)) r in
  history r' = last_n 50 (history r ++ [ChatEntry.mk "AI" text now])
  ∧ sk_history (storage r') = Some (history r')
  ∧ historyDirty r' = 0%nat
  ∧ aiRunning r' = false
  ∧ pendingAI r' = delete i (pendingAI r)
  ∧ ∃ flush, trace r'
             = trace r ++ flush ++ sends (FChat (ChatEntry.mk "AI" text now)) r
               ++ [Put (WHistory (history r'))].
Proof.
  intros Hi Hk Ht Hp r'.
  assert (Hres : callAI_resume now t (Ret (AIResult.mk (Some text) calls)) r
                 = (Resolved text, r)).
  { unfold callAI_resume, replyText. cbn.
    destruct Hp as [[-> ->] | ->]; cbn; by rewrite truthy_nonempty. }
  subst r'. unfold aiReplied. rewrite Hi, Hres, Hk. unfold settle.
  set (r0 := set_pendingAI (delete i (pendingAI r)) r).
  destruct (broadcastChat_state now "AI" text r0) as (Hh & Hs & Hd).
  pose proof (broadcastChat_trace now "AI" text r0) as Htr.
  cbv zeta in Htr.
  set (r1 := broadcastChat now "AI" text r0) in *.
  destruct (quietAI_broadcastChat now "AI" text r0) as [_ Hpend].
  fold r1 in Hpend.
  split; [exact Hh | split; [done | split; [done | split; [done | split]]]].
  - exact Hpend.
  - exists (if (HISTORY_FLUSH_INTERVAL <=? S (historyDirty r0))%nat
            then [Put (WHistory (history r1))] else []).
    transitivity (trace r1 ++ [Put (WHistory (history r1))]); [reflexivity|].
    rewrite Htr. rewrite <- !app_assoc. reflexivity.
Qed.

Lemma hello_reply_is_appended :
  let r' := aiReplied (H := demoHost) 3 "1/1/2026" 0
              (Ret (AIResult.mk (Some "hello") [])) oneTurn in
  pendingAI oneTurn !! 0%nat = Some theTurn
  ∧ history r' = history oneTurn ++ [ChatEntry.mk "AI" "hello" 3]
  ∧ sk_history (storage r') = Some (history r')
  ∧ aiRunning r' = false.
Proof.
  pose proof (ai_reply_is_appended_and_flushed (H := demoHost) 3 "1/1/2026" 0 theTurn
                "hello" [] oneTurn eq_refl eq_refl ltac:(discriminate)
                (or_introl (conj eq_refl eq_refl))) as (Hh & Hs & _ & Ha & _).
  split; [reflexivity | split; [exact Hh | split; [exact Hs | exact Ha]]].
Defined.

(** ** One round of tools *)

Section ToolRound.
Context `{Host}.


(** The arguments of a call are an object, or a text that [JSON.parse]
    accepts. *)
Definition parses (call : ToolCall.t) : Prop :=
  ∀ e, ToolCall.arguments call ≠ ArgsText (Throw e).

Lemma executeToolCall_returns (now : Z) (name : string) (args : jsval) (r : Room) :
  ∃ result r', executeToolCall now name args r = (Ret result, r').
Proof.
  unfold executeToolCall, try_catch, ret.
  destruct (toolSwitch now name args r) as [[result|e] r']; eauto.
Qed.


(** The loop stops at the first call whose arguments do not parse; the
    calls before it have run. *)
Lemma runToolCalls_throws (now : Z) (before after : list ToolCall.t)
    (call : ToolCall.t) (e : exn) (messages : list Msg.t) (r : Room) :
  Forall parses before →
  ToolCall.arguments call = ArgsText (Throw e) →
  ∃ messages',
    runToolCalls now (before ++ call :: after) messages r
    = (Throw e, (runToolCalls now before messages r).2)
    ∧ (runToolCalls now before messages r).1 = Ret messages'.
Proof.
  intros Hbefore Hcall. revert messages r.
  induction Hbefore as [|c before Hc _ IH]; intros messages r.
  - simpl. unfold bind at 1, lift. rewrite Hcall. eexists. by split.
  - simpl. unfold bind, lift.
    destruct (ToolCall.arguments c) as [v|[v|e']] eqn:Ha; [| |by destruct (Hc e')];
      (destruct (executeToolCall_returns now (ToolCall.name c) v r)
         as (result & r1 & Hx); rewrite Hx; apply IH).
Qed.

End ToolRound.




(** X8. Arguments that do not parse.  When the arguments of a requested tool
    call are a text that [JSON.parse] rejects, the turn is rejected with
    that error: the calls before it have run and their changes stay, the
    calls after it do not run, and no second inference call is made. *)
Theorem unparsable_arguments_reject_the_turn `{Host}
    (now : Z) (t : Turn.t) (response : option string)
    (before after : list ToolCall.t) (call : ToolCall.t) (e : exn) (r : Room) :
  Turn.phase t = FirstCall →
  Forall parses before →
  ToolCall.arguments call = ArgsText (Throw e) →
  let messages :=
    Turn.messages t ++ [Msg.mk "assistant" None (default "" response)] in
  callAI_resume now t (Ret (AIResult.mk response (before ++ call :: after))) r
  = (Rejected e, (runToolCalls now before messages r).2)
  ∧ ∃ messages', (runToolCalls now before messages r).1 = Ret messages'.
Proof.
  intros Hp Hbefore Hcall messages. unfold callAI_resume. rewrite Hp.
  cbn [AIResult.tool_calls AIResult.response].
  destruct (runToolCalls_throws now before after call e messages r Hbefore Hcall)
    as (messages' & Hrun & Hret).
  destruct (before ++ call :: after) as [|c cs] eqn:Hcalls;
    [by destruct before|].
  fold messages. rewrite Hrun. split; [done | by exists messages'].
Qed.

(** A reply that asks to add a memory and then passes arguments that are
    not JSON. *)
Definition brokenReply : AIResult.t :=
  AIResult.mk None
    [ToolCall.mk "add_memory" (ArgsValue (VObj [("text", VStr "ship friday")]));
     ToolCall.mk "add_todo" (ArgsText (Throw (SyntaxError "Unexpected token")))].

Lemma memory_added_before_broken_call :
  let result := callAI_resume (H := demoHost) 3 theTurn (Ret brokenReply) oneTurn in
  Turn.phase theTurn = FirstCall
  ∧ result.1 = Rejected (SyntaxError "Unexpected token")
  ∧ PinnedMemory.memories (pinned result.2) = ["ship friday"].
Proof.
  assert (Hb : Forall parses
                 [ToolCall.mk "add_memory" (ArgsValue (VObj [("text", VStr "ship friday")]))])
    by (repeat constructor; intros e; discriminate).
  pose proof (unparsable_arguments_reject_the_turn (H := demoHost) 3 theTurn None _ []
                (ToolCall.mk "add_todo" (ArgsText (Throw (SyntaxError "Unexpected token"))))
                _ oneTurn eq_refl Hb eq_refl) as [Hres _].
  split; [reflexivity|]. cbv zeta. unfold brokenReply.
  change ([ToolCall.mk "add_memory" (ArgsValue (VObj [("text", VStr "ship friday")]));
           ToolCall.mk "add_todo" (ArgsText (Throw (SyntaxError "Unexpected token")))])
    with ([ToolCall.mk "add_memory" (ArgsValue (VObj [("text", VStr "ship friday")]))]
          ++ ToolCall.mk "add_todo" (ArgsText (Throw (SyntaxError "Unexpected token")))
             :: []).
  rewrite Hres. split; reflexivity.
Defined.

(** ** The history stays bounded, in memory and in the store *)

Definition historyBounded (r : Room) : Prop :=
  (length (history r) ≤ MAX_HISTORY)%nat
  ∧ (∀ h, sk_history (storage r) = Some h → (length h ≤ MAX_HISTORY)%nat)
  ∧ (historyDirty r < HISTORY_FLUSH_INTERVAL)%nat.

Section HistoryBounded.
Context `{Host}.

Lemma historyBounded_quietHistory (r r' : Room) :
  quietHistory r r' → historyBounded r → historyBounded r'.
Proof. intros (Hh & Hs & Hd). unfold historyBounded. by rewrite Hh, Hs, Hd. Qed.

Lemma historyBounded_ensureLoaded (r : Room) :
  historyBounded r → historyBounded (ensureLoaded r).
Proof.
  destruct r as [socks states [sp sh sa ss al] pend uu nc tr ci cli un ls hb
                 hist pin art sett air ld hd pft].
  unfold historyBounded, ensureLoaded. cbn. intros (Hh & Hs & Hd).
  destruct ld; [done|].
  destruct sp as [[mem [items|t ts]]|], sh, sa, ss; cbn; repeat split; eauto.
Qed.

Lemma historyBounded_broadcastChat (now : Z) (user text : string) (r : Room) :
  historyBounded r → historyBounded (broadcastChat now user text r).
Proof.
  intros (Hh & Hs & Hd).
  destruct (broadcastChat_state now user text r) as (Eh & Es & Ed).
  unfold historyBounded. rewrite Es, Ed, Eh.
  split; [apply last_n_length | split].
  - case_match; [|exact Hs]. intros h [= <-]. apply last_n_length.
  - case_match eqn:Hf; [unfold HISTORY_FLUSH_INTERVAL; lia|].
    apply Nat.leb_gt in Hf. exact Hf.
Qed.

Lemma historyBounded_reset (now : Z) (user : string) (r : Room) :
  historyBounded r → historyBounded (reset now user r).2.
Proof.
  intros (Hh & Hs & Hd). rewrite reset_eq. unfold historyBounded.
  destruct r as [socks states [sp sh sa ss al] pend uu nc tr ci cli un ls hb
                 hist pin art sett air ld hd pft].
  cbn in *. repeat split; [lia | | done]. intros h [= <-]. simpl. lia.
Qed.

Lemma quietHistory_triggerAI (now : Z) (prompt : string) (r : Room) :
  quietHistory r (triggerAI now prompt r).
Proof.
  unfold triggerAI. case_match; [apply quiet_broadcastSystem|].
  etrans; [|apply callAI_state].
  etrans; [|apply quiet_broadcastSystem]. by repeat split.
Qed.

Lemma historyBounded_aiReplied (now : Z) (date : string) (i : nat)
    (reply : outcome AIResult.t) (r : Room) :
  historyBounded r → historyBounded (aiReplied now date i reply r).
Proof.
  intros Hb. unfold aiReplied.
  destruct (pendingAI r !! i) as [t|]; [|exact Hb].
  pose proof (quiet_callAI_resume now t reply r) as (_ & Hq & _).
  destruct (callAI_resume now t reply r) as [[text|err|t'] r1]; cbn [snd] in Hq;
    cbv beta iota; apply (historyBounded_quietHistory _ _ Hq) in Hb.
  - unfold settle. destruct (Turn.kind t).
    + set (r0 := set_pendingAI _ r1).
      assert (Hb0 : historyBounded r0) by exact Hb.
      apply (historyBounded_broadcastChat now "AI" text) in Hb0.
      destruct Hb0 as (Hh & _ & _).
      unfold historyBounded. repeat split.
      * exact Hh.
      * intros h Heq. cbn in Heq. injection Heq as <-. exact Hh.
      * unfold HISTORY_FLUSH_INTERVAL. cbn. lia.
    + eapply historyBounded_quietHistory; [|exact Hb].
      set (r0 := set_pendingAI _ r1).
      transitivity r0; [by repeat split|].
      transitivity (addArtifact now (Str.or_else title (inferTitle date artifactType))
                      artifactType text userName r0);
        [apply quiet_addArtifact | by repeat split].
  - rewrite settle_throw. exact Hb.
  - exact Hb.
Qed.

End HistoryBounded.

(** X9. The bound on the history, over every run.  If the history in memory
    and the history in the store have at most [MAX_HISTORY] (50) entries and
    fewer than five entries are unflushed, this is so after every sequence of
    events: hydration, chat sends, AI replies, resets and evictions keep the
    bounds, and nothing else touches the history. *)
Theorem history_bounded_in_every_run `{Host} (evs : list (Z * Event)) (r : Room) :
  historyBounded r → historyBounded (run evs r).
Proof.
  apply (holds_run historyBounded).
  - intros r1 r2 (_ & Hq & _). by apply historyBounded_quietHistory.
  - apply historyBounded_ensureLoaded.
  - apply historyBounded_broadcastChat.
  - apply historyBounded_reset.
  - intros now prompt r1. apply historyBounded_quietHistory, quietHistory_triggerAI.
  - intros now kind prompt text r1 Hb _.
    eapply historyBounded_quietHistory; [|exact Hb].
    etrans; [|apply callAI_state].
    etrans; [|apply quiet_broadcastSystem]. by repeat split.
  - apply historyBounded_aiReplied.
  - intros r1 (Hh & Hs & Hd). unfold historyBounded. cbn.
    repeat split; [lia | exact Hs | unfold HISTORY_FLUSH_INTERVAL; lia].
Qed.

Lemma history_bounded_after_two_triggers :
  historyBounded newRoom ∧ historyBounded (run (H := demoHost) twoTriggers newRoom).
Proof.
  assert (H0 : historyBounded newRoom).
  { unfold historyBounded, MAX_HISTORY, HISTORY_FLUSH_INTERVAL. simpl.
    split; [lia | split; [intros h Hh; discriminate Hh | lia]]. }
  split; [exact H0|].
  exact (history_bounded_in_every_run (H := demoHost) twoTriggers newRoom H0).
Defined.

(** ** Batched writes of the history *)

Definition isHistoryPut (e : Effect) : bool :=
  match e with
  | Put (WHistory _) => true
  | _ => false
  end.

(** The number of writes of the history among some effects. *)
Definition historyFlushes (t : list Effect) : nat := length (List.filter isHistoryPut t).

Lemma historyFlushes_app (t1 t2 : list Effect) :
  historyFlushes (t1 ++ t2) = (historyFlushes t1 + historyFlushes t2)%nat.
Proof. unfold historyFlushes. by rewrite List.filter_app, length_app. Qed.

Lemma historyFlushes_sends (f : Frame) (r : Room) : historyFlushes (sends f r) = 0%nat.
Proof.
  unfold historyFlushes, sends. induction (getOpenSockets r) as [|ws l IH]; [done|].
  simpl. exact IH.
Qed.

Lemma flush_arith (d : nat) :
  (d < 5)%nat →
  (if (5 <=? S d)%nat then 0%nat else S d) = (S d `mod` 5)%nat
  ∧ (if (5 <=? S d)%nat then 1%nat else 0%nat) = (S d / 5)%nat.
Proof.
  intros Hd.
  assert (Hc : d = 0%nat ∨ d = 1%nat ∨ d = 2%nat ∨ d = 3%nat ∨ d = 4%nat) by lia.
  destruct Hc as [->|[->|[->|[->| ->]]]]; by split.
Qed.

Lemma div_mod_succ (n : nat) :
  (S n `mod` 5 = S (n `mod` 5) `mod` 5)%nat
  ∧ (S n / 5 = n / 5 + S (n `mod` 5) / 5)%nat.
Proof.
  pose proof (Nat.div_mod_eq n 5) as Hn.
  pose proof (Nat.mod_upper_bound n 5 ltac:(lia)) as Hm.
  assert (HS : S n = (5 * (n / 5) + S (n `mod` 5))%nat) by lia.
  split.
  - rewrite HS at 1. rewrite Nat.add_comm, Nat.mul_comm. apply Nat.Div0.mod_add.
  - rewrite HS at 1. rewrite Nat.add_comm, Nat.mul_comm.
    rewrite Nat.div_add by lia. lia.
Qed.

(** X10. The history is written once every five chat sends.  Starting with
    [d < 5] unflushed entries, after [n] chat sends the count of unflushed
    entries is [(d + n) mod 5] and the history has been written to the store
    [(d + n) / 5] times. *)
Theorem history_is_flushed_every_fifth_send (es : list ChatEntry.t) (r : Room) :
  (historyDirty r < HISTORY_FLUSH_INTERVAL)%nat →
  historyDirty (chatSends es r) = ((historyDirty r + length es) `mod` 5)%nat
  ∧ historyFlushes (trace (chatSends es r))
    = (historyFlushes (trace r) + (historyDirty r + length es) / 5)%nat.
Proof.
  unfold HISTORY_FLUSH_INTERVAL. intros Hd.
  induction es as [|e es IH] using rev_ind.
  - unfold chatSends. cbn [foldl length].
    rewrite Nat.add_0_r, Nat.mod_small, Nat.div_small by lia. lia.
  - destruct IH as [IHd IHf].
    rewrite chatSends_snoc, length_app. cbn [length].
    set (r0 := chatSends es r) in *.
    destruct (broadcastChat_state (ChatEntry.ts e) (ChatEntry.user e) (ChatEntry.text e) r0)
      as (_ & _ & Ed).
    pose proof (broadcastChat_trace (ChatEntry.ts e) (ChatEntry.user e) (ChatEntry.text e) r0)
      as Et.
    cbv zeta in Et. rewrite Ed, Et. clear Ed Et.
    rewrite !historyFlushes_app, historyFlushes_sends, IHf, IHd.
    replace (historyDirty r + (length es + 1))%nat
      with (S (historyDirty r + length es)) by lia.
    set (n := (historyDirty r + length es)%nat).
    assert (Hm : (n `mod` 5 < 5)%nat) by (apply Nat.mod_upper_bound; lia).
    destruct (flush_arith _ Hm) as [F1 F2].
    destruct (div_mod_succ n) as [D1 D2].
    unfold HISTORY_FLUSH_INTERVAL. split.
    + rewrite F1. by rewrite D1.
    + rewrite D2, <- F2. case_match; cbn [historyFlushes List.filter isHistoryPut length]; lia.
Qed.

Lemma seven_sends_flush_once :
  let es := (λ k, ChatEntry.mk "ann" "hi" (Z.of_nat k)) <$> seq 0 7 in
  (historyDirty oneClient < HISTORY_FLUSH_INTERVAL)%nat
  ∧ historyDirty (chatSends es oneClient) = 2%nat
  ∧ historyFlushes (trace (chatSends es oneClient)) = 1%nat.
Proof.
  assert (H0 : (historyDirty oneClient < HISTORY_FLUSH_INTERVAL)%nat)
    by (apply Nat.ltb_lt; reflexivity).
  split; [exact H0|].
  exact (history_is_flushed_every_fifth_send
           ((λ k, ChatEntry.mk "ann" "hi" (Z.of_nat k)) <$> seq 0 7) oneClient H0).
Defined.

(** ** The debounced write of the pinned memory *)




Definition isTimeout (e : Effect) : bool :=
  match e with
  | SetTimeout _ => true
  | _ => false
  end.

(** The number of timers started among some effects. *)
Definition timers (t : list Effect) : nat := length (List.filter isTimeout t).

(** No write to the store; a timer is started exactly when none was
    pending and one is pending afterwards; a pending timer stays pending. *)
Definition debounced (r r' : Room) : Prop :=
  storage r' = storage r
  ∧ (timers (trace r') + (if pinnedFlushTimer r then 1 else 0)
     = timers (trace r) + (if pinnedFlushTimer r' then 1 else 0))%nat
  ∧ (pinnedFlushTimer r = true → pinnedFlushTimer r' = true).

#[local] Instance debounced_preorder : PreOrder debounced.
Proof.
  split.
  - intros r. by repeat split.
  - intros r1 r2 r3 (S1 & T1 & F1) (S2 & T2 & F2).
    split; [congruence | split; [lia | auto]].
Qed.



Section Debounce.
Context `{Host}.





End Debounce.


(** ** Index-based mutations in range *)

Lemma trunc_in_range (q : Q) (len : nat) :
  (0 <= q)%Q → (q < inject_Z (Z.of_nat len))%Q →
  0 ≤ Num.trunc q < Z.of_nat len.
Proof.
  unfold Qle, Qlt, Num.trunc. simpl. intros H0 Hlt.
  rewrite Z.mul_1_r in H0, Hlt.
  rewrite Z.quot_div_nonneg by lia. split.
  - apply Z.div_pos; lia.
  - apply Z.div_lt_upper_bound; lia.
Qed.

Lemma guard_in_range (q : Q) (len : nat) :
  (0 <= q)%Q → (q < inject_Z (Z.of_nat len))%Q →
  Num.ltb (Finite q) 0 || Num.geb (Finite q) (Z.of_nat len) = false.
Proof.
  intros H0 Hlt. unfold Num.ltb, Num.geb.
  change (inject_Z 0) with 0%Q.
  apply Qle_bool_iff in H0. rewrite H0. simpl.
  destruct (Qle_bool (inject_Z (Z.of_nat len)) q) eqn:Hb; [|done].
  apply Qle_bool_iff in Hb. by apply Qlt_not_le in Hlt.
Qed.

(** [splice(q, 1)] at a position in range removes the element at the
    position rounded down. *)
Lemma splice_one {A} (l : list A) (q : Q) :
  (0 <= q)%Q → (q < inject_Z (Z.of_nat (length l)))%Q →
  ∃ x, l !! Z.to_nat (Num.trunc q) = Some x
       ∧ Arr.splice l (Finite q) 1 = ([x], delete (Z.to_nat (Num.trunc q)) l).
Proof.
  intros H0 Hlt. destruct (trunc_in_range q (length l) H0 Hlt) as [Hz0 Hz1].
  set (k := Z.to_nat (Num.trunc q)).
  assert (Hk : (k < length l)%nat) by lia.
  destruct (lookup_lt_is_Some_2 l k Hk) as [x Hx].
  exists x. split; [exact Hx|].
  unfold Arr.splice, Arr.spliceStart.
  replace (Num.trunc q <? 0) with false by (symmetry; apply Z.ltb_ge; lia).
  replace (Z.to_nat (Z.min (Num.trunc q) (Z.of_nat (length l)))) with k by lia.
  replace (Z.to_nat (Z.min (Z.max 1 0) (Z.of_nat (length l - k)))) with 1%nat by lia.
  f_equal.
  - by rewrite (drop_S l x k Hx).
  - rewrite Nat.add_1_r. symmetry. apply delete_take_drop.
Qed.

Lemma pinned_announced (r : Room) :
  pinned (broadcastMemoryUpdate (schedulePinnedFlush r)) = pinned r.
Proof.
  unfold broadcastMemoryUpdate. rewrite broadcast_eq.
  unfold schedulePinnedFlush. by case_match.
Qed.

(** X12. Removing by position rounds the position down.  For a finite index
    [q] with [0 <= q < length], integral or not, [doDeleteMemory] and
    [doDeleteTodo] remove exactly the entry at the position [q] rounded
    down, keep the other entries in order, leave the other list alone and
    report the removed entry. *)
Theorem delete_removes_entry_at_floor `{Host} (q : Q) (r : Room) :
  (0 <= q)%Q →
  let memories := PinnedMemory.memories (pinned r) in
  let todos := PinnedMemory.todos (pinned r) in
  let k := Z.to_nat (Num.trunc q) in
  ((q < inject_Z (Z.of_nat (length memories)))%Q →
   ∃ removed, memories !! k = Some removed
     ∧ (doDeleteMemory (Finite q) r).1
       = Ret ("Deleted memory at index " +:+ numberToString (Finite q) +:+ ": "
              +:+ quoted removed)
     ∧ pinned (doDeleteMemory (Finite q) r).2 = PinnedMemory.mk (delete k memories) todos)
  ∧ ((q < inject_Z (Z.of_nat (length todos)))%Q →
     ∃ removed, todos !! k = Some removed
       ∧ (doDeleteTodo (Finite q) r).1
         = Ret ("Deleted todo at index " +:+ numberToString (Finite q) +:+ ": "
                +:+ quoted (TodoItem.text removed))
       ∧ pinned (doDeleteTodo (Finite q) r).2 = PinnedMemory.mk memories (delete k todos)).
Proof.
  intros H0 memories todos k. split; intros Hlt.
  - destruct (splice_one memories q H0 Hlt) as (x & Hx & Hsp).
    exists x. split; [exact Hx|].
    unfold doDeleteMemory, bind, gets, exec, ret. cbv beta iota zeta.
    fold memories. rewrite (guard_in_range q (length memories) H0 Hlt), Hsp.
    cbv beta iota. split; [done|]. cbn [snd]. by rewrite pinned_announced.
  - destruct (splice_one todos q H0 Hlt) as (x & Hx & Hsp).
    exists x. split; [exact Hx|].
    unfold doDeleteTodo, bind, gets, exec, ret. cbv beta iota zeta.
    fold todos. rewrite (guard_in_range q (length todos) H0 Hlt), Hsp.
    change (head [x]) with (Some x). cbv beta iota.
    split; [done|]. cbn [snd]. by rewrite pinned_announced.
Qed.

(** Three memories, added by client 1. *)
Definition threeMemories : Room :=
  run (H := demoHost)
    [(1, Message 1 (Text (Some (MMemoryAdd "memories" (Some "alpha")))));
     (2, Message 1 (Text (Some (MMemoryAdd "memories" (Some "beta")))));
     (3, Message 1 (Text (Some (MMemoryAdd "memories" (Some "gamma")))))]
    oneClient.

Lemma delete_at_three_halves :
  (0 <= 3 # 2)%Q
  ∧ (3 # 2 < inject_Z (Z.of_nat (length (PinnedMemory.memories (pinned threeMemories)))))%Q
  ∧ PinnedMemory.memories (pinned (doDeleteMemory (H := demoHost) (Finite (3 # 2))
                                     threeMemories).2)
    = ["alpha"; "gamma"].
Proof.
  assert (H0 : (0 <= 3 # 2)%Q) by (vm_compute; discriminate).
  assert (H1 : (3 # 2 < inject_Z (Z.of_nat
                  (length (PinnedMemory.memories (pinned threeMemories)))))%Q)
    by (vm_compute; reflexivity).
  split; [exact H0 | split; [exact H1|]].
  destruct (proj1 (delete_removes_entry_at_floor (H := demoHost) (3 # 2) threeMemories H0) H1)
    as (removed & _ & _ & Hp).
  rewrite Hp. reflexivity.
Defined.

(** ** Toggling a todo *)

Definition toggled (t : TodoItem.t) : TodoItem.t :=
  TodoItem.mk (TodoItem.text t) (negb (TodoItem.done t)).

Lemma of_nat_in_range (k len : nat) :
  (k < len)%nat →
  (0 <= inject_Z (Z.of_nat k))%Q
  ∧ (inject_Z (Z.of_nat k) < inject_Z (Z.of_nat len))%Q.
Proof.
  intros Hk. split.
  - change 0%Q with (inject_Z 0). rewrite <- Zle_Qle. lia.
  - rewrite <- Zlt_Qlt. lia.
Qed.

Lemma index_of_nat (k : nat) : Arr.index (Num.of_nat k) = Some k.
Proof.
  unfold Arr.index, Num.of_nat, Num.of_Z.
  rewrite integral_of_Z, trunc_of_Z.
  replace (0 <=? Z.of_nat k) with true by (symmetry; apply Z.leb_le; lia).
  simpl. by rewrite Nat2Z.id.
Qed.

(** X13. Toggling flips one todo, and toggling again restores it.  For a
    position [k] that holds a todo, [doToggleTodo] flips the [done] flag of
    that todo and of no other, keeps its text and the memories, and reports
    the new state; a second toggle at the same position gives back the
    pinned memory as it was. *)
Theorem toggle_flips_one_todo `{Host} (k : nat) (t : TodoItem.t) (r : Room) :
  PinnedMemory.todos (pinned r) !! k = Some t →
  let result := doToggleTodo (Num.of_nat k) r in
  result.1
  = Ret ("Todo " +:+ quoted (TodoItem.text t) +:+ " marked as "
         +:+ (if TodoItem.done t then "incomplete" else "complete"))
  ∧ pinned result.2
    = PinnedMemory.mk (PinnedMemory.memories (pinned r))
        (<[k := toggled t]> (PinnedMemory.todos (pinned r)))
  ∧ pinned (doToggleTodo (Num.of_nat k) result.2).2 = pinned r.
Proof.
  assert (Hone : ∀ (r0 : Room) (t0 : TodoItem.t),
    PinnedMemory.todos (pinned r0) !! k = Some t0 →
    doToggleTodo (Num.of_nat k) r0
    = (Ret ("Todo " +:+ quoted (TodoItem.text t0) +:+ " marked as "
            +:+ (if negb (TodoItem.done t0) then "complete" else "incomplete")),
       broadcastMemoryUpdate
         (schedulePinnedFlush
            (set_todos (<[k := toggled t0]> (PinnedMemory.todos (pinned r0))) r0)))).
  { intros r0 t0 Ht0.
    destruct (of_nat_in_range k (length (PinnedMemory.todos (pinned r0))))
      as [H0 H1]; [by eapply lookup_lt_Some|].
    unfold doToggleTodo, bind, gets, exec, ret. cbv beta iota zeta.
    unfold Num.of_nat at 1 2, Num.of_Z at 1 2.
    rewrite (guard_in_range _ _ H0 H1).
    unfold Arr.get. change (Finite (inject_Z (Z.of_nat k))) with (Num.of_nat k).
    rewrite index_of_nat. cbn [mbind option_bind]. rewrite Ht0. reflexivity. }
  intros Ht result. subst result. rewrite (Hone r t Ht). cbn [fst snd].
  split; [by destruct (TodoItem.done t) | split; [by rewrite pinned_announced|]].
  set (r1 := broadcastMemoryUpdate _).
  assert (Hp1 : pinned r1
                = PinnedMemory.mk (PinnedMemory.memories (pinned r))
                    (<[k := toggled t]> (PinnedMemory.todos (pinned r))))
    by apply pinned_announced.
  assert (Ht1 : PinnedMemory.todos (pinned r1) !! k = Some (toggled t)).
  { rewrite Hp1. cbn. apply list_lookup_insert_eq. by eapply lookup_lt_Some. }
  rewrite (Hone r1 (toggled t) Ht1). cbn [snd].
  rewrite pinned_announced. unfold set_todos. cbn. rewrite Hp1. cbn.
  rewrite list_insert_insert_eq.
  replace (toggled (toggled t)) with t
    by (destruct t as [tx d]; unfold toggled; simpl; by rewrite negb_involutive).
  rewrite list_insert_id by done. by destruct (pinned r).
Qed.

Lemma toggle_second_todo :
  let result := doToggleTodo (H := demoHost) (Num.of_nat 1) twoTodos in
  PinnedMemory.todos (pinned twoTodos) !! 1%nat = Some (TodoItem.mk "call bob" false)
  ∧ result.1 = Ret ("Todo " +:+ quoted "call bob" +:+ " marked as complete")
  ∧ PinnedMemory.todos (pinned result.2)
    = [TodoItem.mk "buy milk" false; TodoItem.mk "call bob" true].
Proof.
  pose proof (toggle_flips_one_todo (H := demoHost) 1 (TodoItem.mk "call bob" false)
                twoTodos eq_refl) as (Hm & Hp & _).
  split; [reflexivity | split; [exact Hm|]]. cbv zeta. rewrite Hp. reflexivity.
Defined.

(** ** Positions that are no array index *)

(** X14. A position that is in range but is not an integer passes the range
    check of [doToggleTodo]; reading the todo at that position then throws a
    TypeError before anything is changed.  A tool call reports it as a tool
    error; a [memory.toggle] frame lets it escape [webSocketMessage]. *)
Theorem toggle_at_fraction_throws_TypeError `{Host}
    (now : Z) (ws : nat) (q : Q) (r : Room) :
  (0 <= q)%Q →
  (q < inject_Z (Z.of_nat (length (PinnedMemory.todos (pinned r)))))%Q →
  Num.integral q = false →
  let err := TypeError "Cannot read properties of undefined (reading 'done')" in
  doToggleTodo (Finite q) r = (Throw err, r)
  ∧ executeToolCall now "toggle_todo" (VObj [("index", VNum (Finite q))]) r
    = (Ret ("Tool error: " +:+ String_of_exn err), r)
  ∧ dispatch now ws (MMemoryToggle (Finite q)) r = (Throw err, r).
Proof.
  intros H0 H1 Hi err.
  assert (Ht : doToggleTodo (Finite q) r = (Throw err, r)).
  { unfold doToggleTodo, bind, gets, exec, ret. cbv beta iota zeta.
    rewrite (guard_in_range _ _ H0 H1).
    unfold Arr.get, Arr.index. rewrite Hi. reflexivity. }
  split; [exact Ht | split].
  - unfold executeToolCall, try_catch, toolSwitch, indexArg, arg, bind, lift.
    cbn -[doToggleTodo]. rewrite Ht. reflexivity.
  - unfold dispatch, discard, bind. by rewrite Ht.
Qed.

Lemma toggle_at_one_half :
  (0 <= 1 # 2)%Q
  ∧ Num.integral (1 # 2) = false
  ∧ dispatch (H := demoHost) 3 1 (MMemoryToggle (Finite (1 # 2))) twoTodos
    = (Throw (TypeError "Cannot read properties of undefined (reading 'done')"), twoTodos).
Proof.
  assert (H0 : (0 <= 1 # 2)%Q) by (vm_compute; discriminate).
  split; [exact H0 | split; [reflexivity|]].
  exact (proj2 (proj2 (toggle_at_fraction_throws_TypeError (H := demoHost) 3 1 (1 # 2)
                         twoTodos H0 eq_refl eq_refl))).
Defined.

(** X15. [NaN] is not out of range for the source: both comparisons of the
    range check are false.  Deleting a memory at [NaN] removes the first
    memory, and toggling at [NaN] throws, whatever the todos are. *)
Theorem nan_passes_the_range_check `{Host} (m : string) (ms : list string) (r : Room) :
  PinnedMemory.memories (pinned r) = m :: ms →
  (doDeleteMemory NaN r).1
  = Ret ("Deleted memory at index " +:+ numberToString NaN +:+ ": " +:+ quoted m)
  ∧ pinned (doDeleteMemory NaN r).2 = PinnedMemory.mk ms (PinnedMemory.todos (pinned r))
  ∧ doToggleTodo NaN r
    = (Throw (TypeError "Cannot read properties of undefined (reading 'done')"), r).
Proof.
  intros Hm.
  assert (Hd : doDeleteMemory NaN r
               = (Ret ("Deleted memory at index " +:+ numberToString NaN +:+ ": "
                       +:+ quoted m),
                  broadcastMemoryUpdate (schedulePinnedFlush (set_memories ms r)))).
  { unfold doDeleteMemory, bind, gets, exec, ret. cbv beta iota zeta.
    rewrite Hm. unfold Num.ltb, Num.geb. cbv beta iota. cbn [orb].
    unfold Arr.splice, Arr.spliceStart. cbv beta iota.
    change (take 0 (m :: ms)) with (@nil string).
    cbn -[schedulePinnedFlush broadcastMemoryUpdate set_memories numberToString].
    replace (Z.to_nat ((1 `max` 0) `min` Z.of_nat (S (length ms)))) with 1%nat by lia.
    reflexivity. }
  rewrite Hd. cbn [fst snd]. split; [done | split; [|reflexivity]].
  rewrite pinned_announced. unfold set_memories. by destruct r.
Qed.

Lemma delete_memory_at_nan :
  PinnedMemory.memories (pinned threeMemories) = ["alpha"; "beta"; "gamma"]
  ∧ PinnedMemory.memories (pinned (doDeleteMemory (H := demoHost) NaN threeMemories).2)
    = ["beta"; "gamma"].
Proof.
  pose proof (nan_passes_the_range_check (H := demoHost) "alpha" ["beta"; "gamma"]
                threeMemories eq_refl) as (_ & Hp & _).
  split; [reflexivity|]. rewrite Hp. reflexivity.
Defined.

(** ** Artifacts and settings are written through *)

(** What hydration makes of the settings in the store. *)
Definition hydratedSettings (stored : option StoredSettings.t) : RoomSettings.t :=
  match stored with
  | Some s =>
      RoomSettings.mk
        (default (RoomSettings.systemPrompt DEFAULT_SETTINGS) (StoredSettings.systemPrompt s))
        (default (RoomSettings.aiAutoRespond DEFAULT_SETTINGS) (StoredSettings.aiAutoRespond s))
  | None => DEFAULT_SETTINGS
  end.

(** The artifacts and the settings in memory are what hydration would
    read from the store. *)
Definition mirrored (r : Room) : Prop :=
  artifacts r = default [] (sk_artifacts (storage r))
  ∧ settings r = hydratedSettings (sk_settings (storage r)).

(** A hydrated actor mirrors the store; an actor that is not hydrated yet
    has the artifacts and settings of its constructor and no AI turn in
    flight. *)
Definition durable (r : Room) : Prop :=
  (loaded r = true → mirrored r)
  ∧ (loaded r = false →
     artifacts r = [] ∧ settings r = DEFAULT_SETTINGS ∧ pendingAI r = []).

(** Hydration flag, artifacts, settings and their stored copies are as
    they were. *)
Definition kept (r r' : Room) : Prop :=
  loaded r' = loaded r
  ∧ artifacts r' = artifacts r
  ∧ settings r' = settings r
  ∧ sk_artifacts (storage r') = sk_artifacts (storage r)
  ∧ sk_settings (storage r') = sk_settings (storage r).

#[local] Instance kept_preorder : PreOrder kept.
Proof.
  split.
  - by intros r.
  - intros r1 r2 r3 (A1 & A2 & A3 & A4 & A5) (B1 & B2 & B3 & B4 & B5).
    repeat split; congruence.
Qed.

Definition loadedMirrored (r : Room) : Prop := loaded r = true ∧ mirrored r.

(** A hydrated actor that mirrors the store still does. *)
Definition stays (r r' : Room) : Prop := loadedMirrored r → loadedMirrored r'.

#[local] Instance stays_preorder : PreOrder stays.
Proof.
  split.
  - intros r Hr. exact Hr.
  - intros r1 r2 r3 H1 H2 Hr. apply H2, H1, Hr.
Qed.

Lemma stays_kept (r r' : Room) : kept r r' → stays r r'.
Proof.
  intros (Hl & Ha & Hs & Hsa & Hss) (L & M1 & M2).
  split; [congruence|]. unfold mirrored. by rewrite Ha, Hs, Hsa, Hss.
Qed.

Lemma durable_loadedMirrored (r : Room) : loadedMirrored r → durable r.
Proof. intros [L M]. split; [done | congruence]. Qed.

Lemma durable_kept (r r' : Room) : kept r r' → quietAI r r' → durable r → durable r'.
Proof.
  intros (Hl & Ha & Hs & Hsa & Hss) [_ Hp] [D1 D2]. split.
  - intros L. unfold mirrored. rewrite Ha, Hs, Hsa, Hss. apply D1. congruence.
  - intros L. rewrite Ha, Hs, Hp. apply D2. congruence.
Qed.

Lemma kept_set_trace (t : list Effect) (r : Room) : kept r (set_trace t r).
Proof. by repeat split. Qed.

Lemma hydratedSettings_of_settings (s : RoomSettings.t) :
  s = hydratedSettings (Some (StoredSettings.of_settings s)).
Proof. by destruct s. Qed.

Section Durable.
Context `{Host}.

Lemma kept_broadcast (f : Frame) (r : Room) : kept r (broadcast f r).
Proof. rewrite broadcast_eq. apply kept_set_trace. Qed.

Lemma kept_broadcastPresence (r : Room) : kept r (broadcastPresence r).
Proof. rewrite broadcastPresence_eq. apply kept_set_trace. Qed.

Lemma kept_broadcastSystem (now : Z) (text : string) (r : Room) :
  kept r (broadcastSystem now text r).
Proof. apply kept_broadcast. Qed.

Lemma kept_broadcastMemoryUpdate (r : Room) : kept r (broadcastMemoryUpdate r).
Proof. apply kept_broadcast. Qed.

Lemma kept_send (ws : nat) (f : Frame) (r : Room) : kept r (send ws f r).
Proof. apply kept_set_trace. Qed.

Lemma kept_schedulePinnedFlush (r : Room) : kept r (schedulePinnedFlush r).
Proof. unfold schedulePinnedFlush. case_match; by repeat split. Qed.

Lemma kept_pinnedFlushFired (r : Room) : kept r (pinnedFlushFired r).
Proof. by repeat split. Qed.

Lemma kept_cleanup (ws : nat) (r : Room) : kept r (cleanup ws r).
Proof.
  unfold cleanup, close.
  change (readyState (set_lastSeen _ _)) with (readyState r).
  repeat case_match; by repeat split.
Qed.

Lemma kept_ensureHeartbeatAlarm (now : Z) (r : Room) :
  kept r (ensureHeartbeatAlarm now r).
Proof.
  unfold ensureHeartbeatAlarm, setAlarm.
  repeat case_match; by repeat split.
Qed.

Lemma kept_alarm_loop (now : Z) (l : list nat) (acc : Room * nat) :
  kept acc.1 (foldl (alarmVisit now) acc l).1.
Proof.
  revert acc. induction l as [|ws l IH]; intros acc; simpl; [reflexivity|].
  etrans; [|apply IH].
  destruct acc as [r c]. unfold alarmVisit. simpl.
  case_match; simpl; [apply kept_cleanup | reflexivity].
Qed.

Lemma kept_alarm (now : Z) (r : Room) : kept r (alarm now r).
Proof.
  unfold alarm.
  pose proof (kept_alarm_loop now (sockets (set_heartbeatAlarm false r))
                (set_heartbeatAlarm false r, 0%nat)) as Hl.
  destruct (foldl _ _ _) as [r2 c]. simpl in Hl.
  assert (H0 : kept r r2) by (etrans; [|exact Hl]; by repeat split).
  repeat case_match;
    repeat first [ exact H0
                 | etrans; [|apply kept_ensureHeartbeatAlarm]
                 | etrans; [|apply kept_broadcastPresence] ].
Qed.

Lemma kept_broadcastChat (now : Z) (user text : string) (r : Room) :
  kept r (broadcastChat now user text r).
Proof.
  unfold broadcastChat, maybeFlushHistory. rewrite broadcast_eq.
  repeat case_match; by repeat split.
Qed.

Lemma kept_callAI (kind : TurnKind) (prompt : string) (r : Room) :
  kept r (callAI kind prompt r).
Proof. by repeat split. Qed.

Lemma kept_triggerAI (now : Z) (prompt : string) (r : Room) :
  kept r (triggerAI now prompt r).
Proof.
  unfold triggerAI. case_match; [apply kept_broadcastSystem|].
  etrans; [|apply kept_callAI]. etrans; [|apply kept_broadcastSystem].
  by repeat split.
Qed.

Ltac kept_pinned :=
  repeat keeps_step;
  auto using kept_schedulePinnedFlush, kept_broadcastMemoryUpdate;
  by repeat split.

Lemma kept_doAddMemory (text : string) : keeps kept (doAddMemory text).
Proof. unfold doAddMemory. kept_pinned. Qed.

Lemma kept_doAddTodo (text : string) : keeps kept (doAddTodo text).
Proof. unfold doAddTodo. kept_pinned. Qed.

Lemma kept_doDeleteMemory (index : jsnum) : keeps kept (doDeleteMemory index).
Proof. unfold doDeleteMemory. kept_pinned. Qed.

Lemma kept_doDeleteTodo (index : jsnum) : keeps kept (doDeleteTodo index).
Proof. unfold doDeleteTodo. kept_pinned. Qed.

Lemma kept_doToggleTodo (index : jsnum) : keeps kept (doToggleTodo index).
Proof. unfold doToggleTodo. kept_pinned. Qed.

Lemma kept_doClearMemories : keeps kept doClearMemories.
Proof. unfold doClearMemories. kept_pinned. Qed.

Lemma kept_doClearTodos : keeps kept doClearTodos.
Proof. unfold doClearTodos. kept_pinned. Qed.

Lemma stays_keeps_kept {A} (m : M A) : keeps kept m → keeps stays m.
Proof. apply keeps_mono. apply stays_kept. Qed.

(** The operations that change the artifacts or the settings write them
    to the store at once. *)
Lemma stays_addArtifact (now : Z) (title type content by_ : string) (r : Room) :
  stays r (addArtifact now title type content by_ r).
Proof.
  intros (L & M1 & M2). unfold addArtifact. rewrite broadcast_eq.
  split; [exact L | split; [reflexivity | exact M2]].
Qed.

Lemma stays_doCreateArtifact (now : Z) (title type content : string) :
  keeps stays (doCreateArtifact now title type content).
Proof. unfold doCreateArtifact. repeat keeps_step; apply stays_addArtifact. Qed.

Lemma stays_doDeleteArtifact (id : string) : keeps stays (doDeleteArtifact id).
Proof.
  intros r (L & M1 & M2). unfold doDeleteArtifact, bind, gets, exec, ret.
  cbv beta iota. case_match; cbn [snd]; [|by split].
  rewrite broadcast_eq. split; [exact L | split; [reflexivity | exact M2]].
Qed.

Lemma stays_settingsUpdate (systemPrompt aiAutoRespond : jsval) :
  keeps stays (settingsUpdate systemPrompt aiAutoRespond).
Proof.
  intros r (L & M1 & M2). unfold settingsUpdate, bind, exec. cbn [snd].
  rewrite broadcast_eq. split; [by destruct systemPrompt, aiAutoRespond|].
  split; [by destruct systemPrompt, aiAutoRespond|].
  destruct systemPrompt, aiAutoRespond; exact (hydratedSettings_of_settings _).
Qed.

Lemma stays_reset (now : Z) (user : string) : keeps stays (reset now user).
Proof. intros r (L & M1 & M2). rewrite reset_eq. by split. Qed.

Lemma stays_toolSwitch (now : Z) (name : string) (args : jsval) :
  keeps stays (toolSwitch now name args).
Proof.
  unfold toolSwitch, stringArg, indexArg.
  repeat lazymatch goal with
         | |- keeps _ (doAddMemory _) => apply stays_keeps_kept, kept_doAddMemory
         | |- keeps _ (doAddTodo _) => apply stays_keeps_kept, kept_doAddTodo
         | |- keeps _ (doDeleteMemory _) => apply stays_keeps_kept, kept_doDeleteMemory
         | |- keeps _ (doDeleteTodo _) => apply stays_keeps_kept, kept_doDeleteTodo
         | |- keeps _ (doToggleTodo _) => apply stays_keeps_kept, kept_doToggleTodo
         | |- keeps _ doClearMemories => apply stays_keeps_kept, kept_doClearMemories
         | |- keeps _ doClearTodos => apply stays_keeps_kept, kept_doClearTodos
         | |- keeps _ (doCreateArtifact _ _ _ _) => apply stays_doCreateArtifact
         | |- keeps _ (doDeleteArtifact _) => apply stays_doDeleteArtifact
         | _ => keeps_step
         end.
Qed.

Lemma stays_executeToolCall (now : Z) (name : string) (args : jsval) :
  keeps stays (executeToolCall now name args).
Proof.
  unfold executeToolCall. keeps_step; [apply stays_toolSwitch | keeps_step].
Qed.

Lemma stays_runToolCalls (now : Z) (calls : list ToolCall.t) (messages : list Msg.t) :
  keeps stays (runToolCalls now calls messages).
Proof.
  revert messages. induction calls as [|call calls IH]; intros messages; simpl.
  - keeps_step.
  - keeps_step; [keeps_step |].
    keeps_step; [apply stays_executeToolCall | apply IH].
Qed.

Lemma stays_callAI_resume (now : Z) (t : Turn.t) (reply : outcome AIResult.t) (r : Room) :
  stays r (callAI_resume now t reply r).2.
Proof.
  unfold callAI_resume. destruct reply as [res|e]; [|reflexivity].
  destruct (Turn.phase t); [|reflexivity].
  destruct (AIResult.tool_calls res) as [|call calls] eqn:Hc; [reflexivity|].
  pose proof (stays_runToolCalls now (call :: calls)
                (Turn.messages t
                 ++ [Msg.mk "assistant" None (default "" (AIResult.response res))]) r) as Hq.
  destruct (runToolCalls _ _ _ r) as [[msgs|e] r1]; simpl in *; [|exact Hq].
  etrans; [exact Hq | apply stays_kept; by repeat split].
Qed.

Lemma stays_settle (now : Z) (date : string) (kind : TurnKind)
    (result : outcome string) (r : Room) :
  stays r (settle now date kind result r).
Proof.
  unfold settle. etrans; [|apply stays_kept; by repeat split].
  destruct kind, result.
  - apply stays_kept. etrans; [apply (kept_broadcastChat now "AI" a)|].
    by repeat split.
  - apply stays_kept, kept_broadcastSystem.
  - apply stays_addArtifact.
  - apply stays_kept, kept_broadcastSystem.
Qed.

Lemma stays_aiReplied (now : Z) (date : string) (i : nat)
    (reply : outcome AIResult.t) (r : Room) :
  stays r (aiReplied now date i reply r).
Proof.
  unfold aiReplied. destruct (pendingAI r !! i) as [t|]; [|reflexivity].
  pose proof (stays_callAI_resume now t reply r) as Hq.
  destruct (callAI_resume now t reply r) as [[text|err|t'] r1]; cbn [snd] in Hq;
    cbv beta iota.
  - etrans; [exact Hq|]. etrans; [|apply stays_settle].
    apply stays_kept. by repeat split.
  - etrans; [exact Hq|]. etrans; [|apply stays_settle].
    apply stays_kept. by repeat split.
  - etrans; [exact Hq|]. apply stays_kept. by repeat split.
Qed.

Ltac stays_kept_step :=
  apply stays_kept;
  first
    [ apply kept_broadcast | apply kept_broadcastSystem | apply kept_send
    | apply kept_broadcastMemoryUpdate | apply kept_triggerAI | apply kept_callAI
    | rewrite ?foldl_emit; repeat case_match; by repeat split ].

Lemma stays_hello (ws : nat) (clientId user : jsval) : keeps stays (hello ws clientId user).
Proof.
  unfold hello. repeat keeps_step; try stays_kept_step.
  apply stays_kept.
  change (λ r' entry, send ws (FChat entry) r')
    with (λ r' entry, emit ((λ e, Send ws (FChat e)) entry) r').
  rewrite foldl_emit. by repeat split.
Qed.

Lemma stays_artifactCreate (now : Z) (ws : nat) (mode : string)
    (artifactType title content user : option string) :
  keeps stays (artifactCreate now ws mode artifactType title content user).
Proof.
  unfold artifactCreate. repeat keeps_step;
    first [apply stays_addArtifact | stays_kept_step].
Qed.

Lemma stays_chatCommand (now : Z) (user text : string) :
  keeps stays (chatCommand now user text).
Proof.
  unfold chatCommand.
  repeat lazymatch goal with
         | |- keeps _ (doAddMemory _) => apply stays_keeps_kept, kept_doAddMemory
         | |- keeps _ (doAddTodo _) => apply stays_keeps_kept, kept_doAddTodo
         | |- keeps _ (reset _ _) => apply stays_reset
         | _ => keeps_step
         end;
    stays_kept_step.
Qed.

Lemma stays_chat (now : Z) (user text : jsval) : keeps stays (chat now user text).
Proof.
  unfold chat. repeat first [ apply stays_chatCommand | keeps_step ].
  apply stays_kept, kept_broadcastChat.
Qed.

Lemma stays_discard_kept {A} (m : M A) : keeps kept m → keeps stays (discard m).
Proof. intros Hm. apply stays_keeps_kept, keeps_discard; [apply _ | exact Hm]. Qed.

Lemma stays_dispatch (now : Z) (ws : nat) (msg : ClientMsg) :
  keeps stays (dispatch now ws msg).
Proof.
  destruct msg; cbn [dispatch].
  - keeps_step.
  - apply stays_hello.
  - case_match; [keeps_step|].
    case_match; apply stays_discard_kept;
      [apply kept_doAddTodo | apply kept_doAddMemory].
  - case_match; [keeps_step|].
    case_match; apply stays_discard_kept;
      [apply kept_doDeleteTodo | apply kept_doDeleteMemory].
  - apply stays_discard_kept, kept_doToggleTodo.
  - apply stays_settingsUpdate.
  - apply stays_artifactCreate.
  - apply keeps_discard; [apply _ | apply stays_doDeleteArtifact].
  - repeat keeps_step. apply stays_kept, kept_send.
  - keeps_step. apply stays_kept, kept_send.
  - apply stays_chat.
  - keeps_step.
Qed.

(** Hydration reads the store into an actor that has the fields of its
    constructor. *)
Lemma ensureLoaded_mirrored (r : Room) : durable r → loadedMirrored (ensureLoaded r).
Proof.
  intros [D1 D2]. split; [apply ensureLoaded_loaded|].
  unfold ensureLoaded. destruct (loaded r) eqn:L; [by apply D1|].
  destruct (D2 eq_refl) as (Ha & Hs & _).
  destruct r as [socks states [sp sh sa ss al] pend uu nc tr ci cli un ls hb
                 hist pin art sett air ld hd pft].
  cbn in Ha, Hs. subst art sett.
  destruct sp as [[mem [items | t ts]]|], sh, sa, ss; by split.
Qed.

Lemma durable_webSocketMessage (now : Z) (ws : nat) (raw : RawFrame) (r : Room) :
  durable r → durable (webSocketMessage now ws raw r).2.
Proof.
  intros Hd. unfold webSocketMessage. destruct raw as [|[msg|]]; [done | | done].
  set (r1 := set_lastSeen (<[ws := now]> (lastSeen r)) r).
  assert (H1 : durable r1) by (eapply durable_kept; [| |exact Hd]; by repeat split).
  assert (Hd' : ∀ m : ClientMsg,
             durable (bind (exec ensureLoaded) (λ _, dispatch now ws m) r1).2).
  { intros m. unfold bind, exec. apply durable_loadedMirrored.
    apply stays_dispatch. by apply ensureLoaded_mirrored. }
  destruct msg; try apply Hd'.
  unfold bind, exec. cbn [snd]. eapply durable_kept; [| |exact H1]; by repeat split.
Qed.

Lemma durable_step (now : Z) (ev : Event) (r : Room) : durable r → durable (step now ev r).
Proof.
  intros Hd. destruct ev; simpl.
  - unfold fetch. case_match; [exact Hd|]. apply durable_loadedMirrored.
    apply stays_kept with
      (r := set_lastSeen (<[ws := now]> (lastSeen (ensureLoaded r)))
              (set_connIds
                 (<[ws := "c" +:+ pretty (nextConnId (ensureLoaded r))]>
                    (connIds (ensureLoaded r)))
                 (set_readyState (<[ws := OPEN]> (readyState (ensureLoaded r)))
                    (set_sockets (sockets (ensureLoaded r) ++ [ws])
                       (set_nextConnId (S (nextConnId (ensureLoaded r)))
                          (ensureLoaded r)))))).
    + etrans; [apply kept_ensureHeartbeatAlarm | apply kept_broadcastPresence].
    + apply stays_kept with (r := ensureLoaded r); [by repeat split|].
      by apply ensureLoaded_mirrored.
  - by apply durable_webSocketMessage.
  - unfold webSocketClose. eapply durable_kept; [| |exact Hd].
    + etrans; [apply kept_cleanup | apply kept_broadcastPresence].
    + etrans; [apply quiet_cleanup | apply quiet_broadcastPresence].
  - unfold webSocketError. eapply durable_kept; [| |exact Hd].
    + etrans; [apply kept_cleanup | apply kept_broadcastPresence].
    + etrans; [apply quiet_cleanup | apply quiet_broadcastPresence].
  - case_match; [|exact Hd]. eapply durable_kept; [| |exact Hd].
    + etrans; [|apply kept_alarm]. by repeat split.
    + etrans; [|apply quiet_alarm]. by split.
  - case_match; [|exact Hd]. eapply durable_kept; [| |exact Hd].
    + apply kept_pinnedFlushFired.
    + by split.
  - destruct (loaded r) eqn:L.
    + apply durable_loadedMirrored, stays_aiReplied. split; [exact L | by apply Hd].
    + unfold aiReplied. destruct Hd as [_ D2].
      destruct (D2 L) as (_ & _ & Hp). rewrite Hp.
      change (durable r). split; [congruence | done].
  - split; [discriminate | done].
Qed.

End Durable.

(** X16. Artifacts and settings survive eviction.  In every run of an actor
    that starts as constructed (or hydrated and mirroring the store), the
    artifacts and the settings of a hydrated actor are the ones in the store:
    if the actor is evicted from memory at that point and hydrated again, it
    has the same artifacts and the same settings. *)
Theorem artifacts_and_settings_survive_eviction `{Host}
    (evs : list (Z * Event)) (r : Room) :
  durable r →
  let r' := run evs r in
  durable r'
  ∧ (loaded r' = true →
     artifacts (ensureLoaded (reactivate r')) = artifacts r'
     ∧ settings (ensureLoaded (reactivate r')) = settings r').
Proof.
  intros Hd r'.
  assert (Hd' : durable r').
  { subst r'. revert r Hd. induction evs as [|[now ev] evs IH]; intros r Hd; [done|].
    apply IH. by apply durable_step. }
  split; [exact Hd'|]. intros L. destruct Hd' as [D1 _].
  destruct (D1 L) as [M1 M2]. rewrite M1, M2.
  destruct r' as [socks states [sp sh sa ss al] pend uu nc tr ci cli un ls hb
                  hist pin art sett air ld hd pft].
  cbn. destruct sp as [[mem [items | t ts]]|], sh, sa, ss; by split.
Qed.

(** A client connects, files the minutes and changes the system prompt. *)
Definition minutesFiled : list (Z * Event) :=
  [(0, Fetch true 1);
   (5, Message 1
         (Text (Some (MArtifactCreate "manual" (Some "notes") (Some "Minutes")
                        (Some "we met") (Some "ann")))));
   (9, Message 1 (Text (Some (MSettingsUpdate (VStr "Be brief.") (VBool true)))))].

Lemma minutes_survive_eviction :
  let r' := run (H := demoHost) minutesFiled newRoom in
  durable newRoom
  ∧ loaded r' = true
  ∧ (Artifact.title <$> artifacts (ensureLoaded (reactivate r'))) = ["Minutes"]
  ∧ settings (ensureLoaded (reactivate r')) = RoomSettings.mk "Be brief." true.
Proof.
  assert (Hd : durable newRoom) by (split; [discriminate | done]).
  destruct (artifacts_and_settings_survive_eviction (H := demoHost)
              minutesFiled newRoom Hd) as [_ Hs].
  split; [exact Hd | split; [reflexivity|]]. cbv zeta.
  destruct (Hs eq_refl) as [-> ->]. split; reflexivity.
Defined.

(** ** Artifacts: create, fetch, delete *)

Lemma find_app_last {A} (p : A → bool) (l : list A) (a : A) :
  (∀ x, x ∈ l → p x = false) → p a = true → List.find p (l ++ [a]) = Some a.
Proof.
  intros Hl Ha. induction l as [|x l IH]; simpl; [by rewrite Ha|].
  rewrite (Hl x) by (apply elem_of_cons; by left).
  apply IH. intros y Hy. apply Hl. apply elem_of_cons. by right.
Qed.


Section Artifacts.
Context `{Host}.

(** The artifact that [addArtifact] makes in the state [r]. *)
Definition newArtifact (now : Z) (title artifactType content createdBy : string)
    (r : Room) : Artifact.t :=
  Artifact.mk (randomUUID (uuidCalls r)) artifactType title content now createdBy.

Lemma addArtifact_eq (now : Z) (title artifactType content createdBy : string) (r : Room) :
  let a := newArtifact now title artifactType content createdBy r in
  addArtifact now title artifactType content createdBy r
  = set_trace
      (trace r ++ [Put (WArtifacts (artifacts r ++ [a]))] ++ sends (FArtifactCreated a) r)
      (set_storage (apply_write (WArtifacts (artifacts r ++ [a])) (storage r))
         (set_artifacts (artifacts r ++ [a]) (set_uuidCalls (S (uuidCalls r)) r))).
Proof.
  intros a. unfold addArtifact. rewrite broadcast_eq. unfold put, emit.
  cbn. by rewrite <- app_assoc.
Qed.

Lemma artifactGet_eq (now : Z) (ws : nat) (id : string) (r : Room) :
  dispatch now ws (MArtifactGet id) r
  = (Ret tt,
     match List.find (λ x, String.eqb (Artifact.id x) id) (artifacts r) with
     | Some a => send ws (FArtifactDetail a) r
     | None => r
     end).
Proof. unfold dispatch, bind, gets, exec, ret. by case_match. Qed.

End Artifacts.

(** X17. A created artifact can be fetched.  An [artifact.create] frame whose
    mode is not [ai] appends one artifact with a fresh id, the given type,
    title and content (by default [notes], [Untitled] and the empty text),
    the time of the frame and the name of its author, writes the whole list
    to the store and announces the artifact to every open connection.  When
    no older artifact has the id, an [artifact.get] frame with that id is
    answered with exactly this artifact. *)
Theorem created_artifact_can_be_fetched `{Host}
    (now now' : Z) (ws ws' : nat) (mode : string)
    (artifactType title content user : option string) (r : Room) :
  mode ≠ "ai" →
  (∀ x, x ∈ artifacts r → Artifact.id x ≠ randomUUID (uuidCalls r)) →
  let a :=
    Artifact.mk (randomUUID (uuidCalls r))
      (Str.or_else (default "" artifactType) "notes")
      (Str.or_else (default "" title) "Untitled")
      (default "" content) now
      (Str.or_else (default "" user)
         (Str.or_else (default "" (userNames r !! ws)) "Unknown")) in
  let r1 := (dispatch now ws (MArtifactCreate mode artifactType title content user) r).2 in
  artifacts r1 = artifacts r ++ [a]
  ∧ sk_artifacts (storage r1) = Some (artifacts r1)
  ∧ trace r1
    = trace r ++ [Put (WArtifacts (artifacts r1))] ++ sends (FArtifactCreated a) r
  ∧ dispatch now' ws' (MArtifactGet (Artifact.id a)) r1
    = (Ret tt, send ws' (FArtifactDetail a) r1).
Proof.
  intros Hmode Hfresh a r1.
  assert (Hr1 : r1 = addArtifact now (Artifact.title a) (Artifact.type a)
                       (Artifact.content a) (Artifact.createdBy a) r).
  { subst r1. unfold dispatch, artifactCreate, bind, gets, exec.
    cbv beta iota zeta. by rewrite (proj2 (String.eqb_neq mode "ai") Hmode). }
  rewrite addArtifact_eq in Hr1. cbv zeta in Hr1.
  change (newArtifact now _ _ _ _ r) with a in Hr1.
  assert (Ha : artifacts r1 = artifacts r ++ [a]) by by rewrite Hr1.
  split; [exact Ha | split; [by rewrite Hr1 | split; [by rewrite Hr1|]]].
  rewrite artifactGet_eq, Ha, find_app_last; [done| |apply String.eqb_refl].
  intros x Hx. apply String.eqb_neq. by apply Hfresh.
Qed.

Lemma minutes_can_be_fetched :
  let a := Artifact.mk "id-0" "notes" "Minutes" "we met" 5 "ann" in
  let r1 := (dispatch (H := demoHost) 5 1
               (MArtifactCreate "manual" None (Some "Minutes") (Some "we met") (Some "ann"))
               oneClient).2 in
  "manual" ≠ "ai"
  ∧ artifacts oneClient = []
  ∧ artifacts r1 = [a]
  ∧ dispatch (H := demoHost) 6 1 (MArtifactGet "id-0") r1
    = (Ret tt, send 1 (FArtifactDetail a) r1).
Proof.
  assert (Hm : "manual" ≠ "ai") by discriminate.
  assert (Hf : ∀ x, x ∈ artifacts oneClient
                    → Artifact.id x ≠ randomUUID (Host := demoHost) (uuidCalls oneClient)).
  { intros x Hx. by apply elem_of_nil in Hx. }
  destruct (created_artifact_can_be_fetched (H := demoHost) 5 6 1 1 "manual"
              None (Some "Minutes") (Some "we met") (Some "ann") oneClient Hm Hf)
    as (Ha & _ & _ & Hget).
  split; [exact Hm | split; [reflexivity | split; [exact Ha | exact Hget]]].
Defined.


(** ** The author of an artifact *)

(** X19. A [hello] frame with a non-empty client id registers the client id
    and the user name of the connection.  An artifact that the connection
    then creates without naming a user is created by that name (by
    [Unknown] when the name is empty), and closing the connection forgets
    both. *)
Theorem hello_names_the_author `{Host}
    (now now' : Z) (ws : nat) (clientId user : string) (mode : string)
    (artifactType title content : option string) (r : Room) :
  clientId ≠ "" →
  mode ≠ "ai" →
  let r1 := (webSocketMessage now ws
               (Text (Some (MHello (VStr clientId) (VStr user)))) r).2 in
  let r2 := (dispatch now' ws (MArtifactCreate mode artifactType title content None) r1).2 in
  clientIds r1 !! ws = Some clientId
  ∧ userNames r1 !! ws = Some user
  ∧ (Artifact.createdBy <$> last (artifacts r2)) = Some (Str.or_else user "Unknown")
  ∧ clientIds (webSocketClose ws r1) !! ws = None
  ∧ userNames (webSocketClose ws r1) !! ws = None.
Proof.
  intros Hc Hmode r1 r2.
  assert (Hr1 : clientIds r1 !! ws = Some clientId ∧ userNames r1 !! ws = Some user).
  { subst r1. rewrite webSocketMessage_hello. cbn [snd namesClient].
    unfold truthy. rewrite (proj2 (String.eqb_neq clientId "") Hc). cbn.
    by rewrite !lookup_insert_eq. }
  destruct Hr1 as [Hci Hun]. split; [exact Hci | split; [exact Hun | split]].
  - assert (Hr2 : r2 = addArtifact now' (Str.or_else (default "" title) "Untitled")
                         (Str.or_else (default "" artifactType) "notes")
                         (default "" content) (Str.or_else user "Unknown") r1).
    { subst r2. unfold dispatch, artifactCreate, bind, gets, exec.
      cbv beta iota zeta. rewrite (proj2 (String.eqb_neq mode "ai") Hmode).
      cbn [snd default Str.or_else]. rewrite Hun. reflexivity. }
    rewrite Hr2, addArtifact_eq. cbn. by rewrite last_snoc.
  - unfold webSocketClose. rewrite broadcastPresence_eq.
    unfold cleanup, close.
    change (readyState (set_lastSeen _ _)) with (readyState r1).
    repeat case_match; cbn; split; apply lookup_delete_eq.
Qed.

Lemma ann_is_the_author :
  let r1 := (webSocketMessage (H := demoHost) 1 1
               (Text (Some (MHello (VStr "tab-7") (VStr "ann")))) oneClient).2 in
  let r2 := (dispatch (H := demoHost) 2 1
               (MArtifactCreate "manual" None (Some "Minutes") None None) r1).2 in
  "tab-7" ≠ "" ∧ "manual" ≠ "ai"
  ∧ (Artifact.createdBy <$> last (artifacts r2)) = Some "ann".
Proof.
  assert (Hc : "tab-7" ≠ "") by discriminate.
  assert (Hm : "manual" ≠ "ai") by discriminate.
  pose proof (hello_names_the_author (H := demoHost) 1 2 1 "tab-7" "ann" "manual"
                None (Some "Minutes") None oneClient Hc Hm) as (_ & _ & Hby & _).
  split; [exact Hc | split; [exact Hm | exact Hby]].
Defined.

(** ** Connections and presence *)


Lemma filter_open_closing (ws : nat) (s : ReadyState) (states : gmap nat ReadyState)
    (l : list nat) :
  s ≠ OPEN →
  filter (λ x, <[ws := s]> states !! x = Some OPEN) l
  = filter (λ x, x ≠ ws) (filter (λ x, states !! x = Some OPEN) l).
Proof.
  intros Hs. induction l as [|x l IH]; [done|].
  rewrite !filter_cons, IH. destruct (decide (x = ws)) as [->|Hx].
  - rewrite lookup_insert_eq.
    rewrite decide_False by congruence.
    destruct (decide (states !! ws = Some OPEN)); [|done].
    rewrite filter_cons. by rewrite decide_False by (intros Hne; by apply Hne).
  - rewrite lookup_insert_ne by done.
    destruct (decide (states !! x = Some OPEN)); [|done].
    rewrite filter_cons. by rewrite decide_True by done.
Qed.

Lemma filter_not_open (ws : nat) (states : gmap nat ReadyState) (l : list nat) :
  states !! ws ≠ Some OPEN →
  filter (λ x, states !! x = Some OPEN) l
  = filter (λ x, x ≠ ws) (filter (λ x, states !! x = Some OPEN) l).
Proof.
  intros Hs. induction l as [|x l IH]; [done|].
  rewrite !filter_cons. destruct (decide (states !! x = Some OPEN)) as [Hx|]; [|done].
  rewrite filter_cons, decide_True by congruence. by rewrite <- IH.
Qed.





(** X21. A connection that goes away.  After [webSocketClose] (and
    [webSocketError], which does the same) the connection is in none of the
    four maps and is not open; the other open connections are open as
    before, and each of them, and only they, gets a presence frame with
    their number. *)
Theorem close_unregisters_and_announces (ws : nat) (r : Room) :
  let r' := webSocketClose ws r in
  getOpenSockets r' = filter (λ x, x ≠ ws) (getOpenSockets r)
  ∧ (connIds r' !! ws = None ∧ clientIds r' !! ws = None
     ∧ userNames r' !! ws = None ∧ lastSeen r' !! ws = None)
  ∧ (∃ closing,
       trace r'
       = trace r ++ closing
         ++ ((λ x, Send x (FPresence (length (getOpenSockets r'))))
               <$> getOpenSockets r')
       ∧ (closing = [] ∨ closing = [Close ws 1011 "cleanup"]))
  ∧ webSocketError ws r = r'.
Proof.
  intros r'. subst r'. unfold webSocketClose, webSocketError.
  rewrite broadcastPresence_eq.
  change (getOpenSockets (set_trace _ ?x)) with (getOpenSockets x).
  set (r1 := cleanup ws r).
  assert (Hmaps : connIds r1 !! ws = None ∧ clientIds r1 !! ws = None
                  ∧ userNames r1 !! ws = None ∧ lastSeen r1 !! ws = None).
  { subst r1. unfold cleanup, close.
    change (readyState (set_lastSeen _ _)) with (readyState r).
    repeat case_match; cbn; repeat split; apply lookup_delete_eq. }
  assert (Hopen : getOpenSockets r1 = filter (λ x, x ≠ ws) (getOpenSockets r)
                  ∧ ∃ closing, trace r1 = trace r ++ closing
                      ∧ (closing = [] ∨ closing = [Close ws 1011 "cleanup"])).
  { subst r1. unfold cleanup, close, getOpenSockets.
    change (readyState (set_lastSeen _ _)) with (readyState r).
    destruct (readyState r !! ws) as [[| | |]|] eqn:Hrs; cbn;
      first
        [ split; [by apply filter_open_closing | eexists; split; [reflexivity | by right]]
        | split; [apply filter_not_open; congruence
                 | exists []; split; [by rewrite app_nil_r | by left]] ]. }
  destruct Hopen as (Hopen & closing & Htr & Hcl).
  split; [exact Hopen | split; [exact Hmaps | split; [|reflexivity]]].
  exists closing. split; [|exact Hcl].
  cbn [trace set_trace]. unfold sends. by rewrite Htr, <- app_assoc.
Qed.

(** * The chat panel of the web client

    [groupMessages] of the chat panel puts the chat messages that the
    server has sent into groups for display.  It reads the [user] and the
    [ts] of a message only; a message is a chat entry. *)

Definition GROUP_WINDOW_MS : Z := 2 * 60 * 1000.

Module MessageGroup.
Record t := mk {
  user : string;
  isAI : bool;
  isSystem : bool;
  messages : list ChatEntry.t;
}.
End MessageGroup.

(** The group opened by the message [m]. *)
Definition openGroup (m : ChatEntry.t) : MessageGroup.t :=
  MessageGroup.mk (ChatEntry.user m) (String.eqb (ChatEntry.user m) "AI")
    (String.eqb (ChatEntry.user m) "System") [m].

(** [last.messages.push(m)]: the last group is updated in place. *)
Definition pushMessage (g : MessageGroup.t) (m : ChatEntry.t) : MessageGroup.t :=
  MessageGroup.mk (MessageGroup.user g) (MessageGroup.isAI g) (MessageGroup.isSystem g)
    (MessageGroup.messages g ++ [m]).

(** The body of the loop of [groupMessages]. *)
Definition groupStep (groups : list MessageGroup.t) (m : ChatEntry.t)
    : outcome (list MessageGroup.t) :=
  match last groups with
  | Some g =>
      if String.eqb (MessageGroup.user g) (ChatEntry.user m) then
        match last (MessageGroup.messages g) with
        | Some previous =>
            if ChatEntry.ts m - ChatEntry.ts previous <? GROUP_WINDOW_MS
            then Ret (removelast groups ++ [pushMessage g m])
            else Ret (groups ++ [openGroup m])
        | None => Throw (TypeError "Cannot read properties of undefined (reading 'ts')")
        end
      else Ret (groups ++ [openGroup m])
  | None => Ret (groups ++ [openGroup m])
  end.

Definition groupMessages (msgs : list ChatEntry.t) : outcome (list MessageGroup.t) :=
  foldl (λ acc m, match acc with
                  | Ret groups => groupStep groups m
                  | Throw e => Throw e
                  end)
    (Ret []) msgs.

(** Two messages that follow each other in a group are from the same
    user and less than two minutes apart. *)
Definition chained (l : list ChatEntry.t) : Prop :=
  ∀ i a b, l !! i = Some a → l !! S i = Some b →
    ChatEntry.ts b - ChatEntry.ts a < GROUP_WINDOW_MS.

Definition wellGrouped (g : MessageGroup.t) : Prop :=
  MessageGroup.messages g ≠ []
  ∧ Forall (λ m, ChatEntry.user m = MessageGroup.user g) (MessageGroup.messages g)
  ∧ MessageGroup.isAI g = String.eqb (MessageGroup.user g) "AI"
  ∧ MessageGroup.isSystem g = String.eqb (MessageGroup.user g) "System"
  ∧ chained (MessageGroup.messages g).

(** A group ends where the next message is from another user or comes two
    minutes or more after the last one. *)
Definition separated (groups : list MessageGroup.t) : Prop :=
  ∀ i g1 g2 a b,
    groups !! i = Some g1 → groups !! S i = Some g2 →
    last (MessageGroup.messages g1) = Some a →
    head (MessageGroup.messages g2) = Some b →
    MessageGroup.user g1 ≠ MessageGroup.user g2
    ∨ GROUP_WINDOW_MS ≤ ChatEntry.ts b - ChatEntry.ts a.

Definition grouping (msgs : list ChatEntry.t) (groups : list MessageGroup.t) : Prop :=
  concat (MessageGroup.messages <$> groups) = msgs
  ∧ Forall wellGrouped groups
  ∧ separated groups.

Lemma chained_snoc (l : list ChatEntry.t) (a b : ChatEntry.t) :
  chained l → last l = Some a →
  ChatEntry.ts b - ChatEntry.ts a < GROUP_WINDOW_MS →
  chained (l ++ [b]).
Proof.
  intros Hl Ha Hab i x y Hx Hy.
  destruct (decide (S i < length l)%nat) as [Hi|Hi].
  - rewrite lookup_app_l in Hx by lia. rewrite lookup_app_l in Hy by lia.
    by eapply Hl.
  - assert (Hlen : S i = length l).
    { apply lookup_lt_Some in Hy. rewrite length_app in Hy. simpl in Hy. lia. }
    rewrite lookup_app_l in Hx by lia.
    rewrite lookup_app_r, Hlen, Nat.sub_diag in Hy by lia. simpl in Hy.
    rewrite last_lookup in Ha. replace (pred (length l)) with i in Ha by lia.
    by simplify_eq.
Qed.

Lemma separated_snoc (groups : list MessageGroup.t) (g g' : MessageGroup.t) :
  separated (groups ++ [g]) →
  (∀ a b, last (MessageGroup.messages g) = Some a →
          head (MessageGroup.messages g') = Some b →
          MessageGroup.user g ≠ MessageGroup.user g'
          ∨ GROUP_WINDOW_MS ≤ ChatEntry.ts b - ChatEntry.ts a) →
  separated ((groups ++ [g]) ++ [g']).
Proof.
  intros Hs Hg i g1 g2 a b H1 H2 Ha Hb.
  destruct (decide (S i < length (groups ++ [g]))%nat) as [Hi|Hi].
  - rewrite lookup_app_l in H1 by lia. rewrite lookup_app_l in H2 by lia.
    by eapply Hs.
  - assert (Hlen : S i = length (groups ++ [g])).
    { apply lookup_lt_Some in H2. rewrite length_app in H2. simpl in H2. lia. }
    rewrite lookup_app_l in H1 by lia.
    rewrite lookup_app_r, Hlen, Nat.sub_diag in H2 by lia. simpl in H2.
    rewrite length_app in Hlen. simpl in Hlen.
    rewrite lookup_app_r in H1 by lia.
    replace (i - length groups)%nat with 0%nat in H1 by lia. simpl in H1.
    simplify_eq. by apply Hg.
Qed.

Lemma separated_push (groups : list MessageGroup.t) (g : MessageGroup.t)
    (m : ChatEntry.t) :
  MessageGroup.messages g ≠ [] →
  separated (groups ++ [g]) → separated (groups ++ [pushMessage g m]).
Proof.
  intros Hne Hs i g1 g2 a b H1 H2 Ha Hb.
  destruct (decide (S i < length groups)%nat) as [Hi|Hi].
  - rewrite lookup_app_l in H1 by lia. rewrite lookup_app_l in H2 by lia.
    apply (Hs i g1 g2 a b); try done; by rewrite lookup_app_l by lia.
  - assert (Hlen : S i = length groups).
    { apply lookup_lt_Some in H2. rewrite length_app in H2. simpl in H2. lia. }
    rewrite lookup_app_l in H1 by lia.
    rewrite lookup_app_r, Hlen, Nat.sub_diag in H2 by lia. simpl in H2.
    simplify_eq.
    apply (Hs i g1 g a b); try done.
    + by rewrite lookup_app_l by lia.
    + by rewrite lookup_app_r, Hlen, Nat.sub_diag by lia.
    + simpl in Hb. destruct (MessageGroup.messages g); [done | exact Hb].
Qed.

Lemma wellGrouped_open (m : ChatEntry.t) : wellGrouped (openGroup m).
Proof.
  repeat split;
    first [done | by apply Forall_singleton | intros i x y Hx Hy; by destruct i].
Qed.

Lemma grouping_open (msgs : list ChatEntry.t) (groups : list MessageGroup.t)
    (m : ChatEntry.t) :
  grouping msgs groups →
  (∀ g a, last groups = Some g → last (MessageGroup.messages g) = Some a →
     MessageGroup.user g ≠ ChatEntry.user m
     ∨ GROUP_WINDOW_MS ≤ ChatEntry.ts m - ChatEntry.ts a) →
  grouping (msgs ++ [m]) (groups ++ [openGroup m]).
Proof.
  intros (Hcat & Hwf & Hsep) Hm. split; [|split].
  - rewrite fmap_app, concat_app, Hcat. done.
  - apply Forall_app. split; [done|]. apply Forall_singleton, wellGrouped_open.
  - destruct (last groups) as [g|] eqn:Hlast.
    + apply last_Some in Hlast as Hfront. destruct Hfront as [front ->].
      apply separated_snoc; [done|]. intros a b Ha Hb. simpl in Hb. simplify_eq.
      by apply (Hm g a).
    + apply last_None in Hlast. subst groups.
      intros i g1 g2 a b H1 H2. by destruct i.
Qed.

Lemma grouping_push (msgs : list ChatEntry.t) (front : list MessageGroup.t)
    (g : MessageGroup.t) (a m : ChatEntry.t) :
  grouping msgs (front ++ [g]) →
  MessageGroup.user g = ChatEntry.user m →
  last (MessageGroup.messages g) = Some a →
  ChatEntry.ts m - ChatEntry.ts a < GROUP_WINDOW_MS →
  grouping (msgs ++ [m]) (front ++ [pushMessage g m]).
Proof.
  intros (Hcat & Hwf & Hsep) Hu Ha Ht.
  apply Forall_app in Hwf as [Hfront Hg].
  apply Forall_inv in Hg. destruct Hg as (Hne & Hus & Hai & Hsy & Hch).
  split; [|split].
  - rewrite fmap_app, concat_app in Hcat |- *. simpl in *.
    rewrite app_nil_r in Hcat |- *. by rewrite <- Hcat, app_assoc.
  - apply Forall_app. split; [done|]. apply Forall_singleton.
    repeat split; simpl; try done.
    + by destruct (MessageGroup.messages g).
    + apply Forall_app. split; [done|]. by apply Forall_singleton.
    + by eapply chained_snoc.
  - by apply separated_push.
Qed.

(** One step of the loop keeps the grouping and does not throw. *)
Lemma groupStep_grouping (msgs : list ChatEntry.t) (groups : list MessageGroup.t)
    (m : ChatEntry.t) :
  grouping msgs groups →
  ∃ groups', groupStep groups m = Ret groups' ∧ grouping (msgs ++ [m]) groups'.
Proof.
  intros Hg. unfold groupStep.
  destruct (last groups) as [g|] eqn:Hlast.
  - destruct (String.eqb_spec (MessageGroup.user g) (ChatEntry.user m)) as [Hu|Hu].
    + destruct (last (MessageGroup.messages g)) as [a|] eqn:Ha.
      * destruct (Z.ltb_spec (ChatEntry.ts m - ChatEntry.ts a) GROUP_WINDOW_MS)
          as [Ht|Ht].
        -- eexists. split; [reflexivity|].
           apply last_Some in Hlast as Hfront. destruct Hfront as [front ->].
           rewrite removelast_last. by eapply grouping_push.
        -- eexists. split; [reflexivity|]. apply grouping_open; [done|].
           intros g' a' Hg' Ha'. simplify_eq. by right.
      * apply last_None in Ha. destruct Hg as (_ & Hwf & _).
        apply last_Some in Hlast as [front ->].
        apply Forall_app in Hwf as [_ Hwf]. apply Forall_inv in Hwf.
        by destruct Hwf.
    + eexists. split; [reflexivity|]. apply grouping_open; [done|].
      intros g' a' Hg' Ha'. simplify_eq. by left.
  - eexists. split; [reflexivity|]. apply grouping_open; [done|].
    intros g' a' Hg'. simplify_eq.
Qed.

(** X22. The groups of the chat panel.  [groupMessages] never throws, and its
    groups are the messages cut into runs: the messages of the groups, in
    order, are the given messages; no group is empty; a group holds messages
    of one user, each less than two minutes after the one before it, and its
    flags tell whether that user is [AI] or [System]; and a group ends only
    where the next message is from another user or comes two minutes or more
    after the last one. *)
Theorem messages_are_cut_into_runs (msgs : list ChatEntry.t) :
  ∃ groups, groupMessages msgs = Ret groups ∧ grouping msgs groups.
Proof.
  unfold groupMessages. induction msgs as [|m msgs IH] using rev_ind.
  - exists []. split; [done|]. split; [done | split; [done|]].
    intros i g1 g2 a b H1. by destruct i.
  - destruct IH as (groups & Hrun & Hg). rewrite foldl_snoc, Hrun.
    by apply groupStep_grouping.
Qed.

(** * Liveness of connections *)

(** The registry of connections and the heartbeat are as they were. *)
Definition sameConnections (r r' : Room) : Prop :=
  sockets r' = sockets r
  ∧ readyState r' = readyState r
  ∧ connIds r' = connIds r
  ∧ lastSeen r' = lastSeen r
  ∧ nextConnId r' = nextConnId r
  ∧ heartbeatAlarm r' = heartbeatAlarm r
  ∧ alarmAt (storage r') = alarmAt (storage r).

#[local] Instance sameConnections_preorder : PreOrder sameConnections.
Proof.
  split.
  - by intros r.
  - intros r1 r2 r3 (A1 & A2 & A3 & A4 & A5 & A6 & A7) (B1 & B2 & B3 & B4 & B5 & B6 & B7).
    repeat split; congruence.
Qed.


Section Connections.
Context `{Host}.






Lemma same_pinnedFlushFired (r : Room) : sameConnections r (pinnedFlushFired r).
Proof. by repeat split. Qed.




















End Connections.




(** * Validation of chat frames *)

(** A chat frame passes the validation when [user] and [text] are strings
    of 1 to 64 and of 1 to 2000 code units. *)
Definition validFrame (user text : jsval) : Prop :=
  ∃ u t, user = VStr u ∧ text = VStr t ∧ validChat u t.

(** X25. A chat frame that fails the validation is dropped.  When [user] or
    [text] is not a string, is empty or is too long, the frame only counts as
    activity of its connection (and hydrates the actor): nothing is appended
    to the history, nothing is sent and no command is interpreted. *)
Theorem invalid_chat_is_dropped `{Host} (now : Z) (ws : nat) (user text : jsval) (r : Room) :
  ¬ validFrame user text →
  webSocketMessage now ws (Text (Some (MChat user text))) r
  = (Ret tt, received now ws r).
Proof.
  intros Hv. unfold webSocketMessage, dispatch, chat, bind, exec, received.
  cbv beta iota.
  destruct user as [| | | |u| |], text as [| | | |t| |]; try reflexivity.
  destruct (String.length u =? 0)%nat eqn:Hu0; [reflexivity|].
  destruct (64 <? String.length u)%nat eqn:Hu1; [reflexivity|].
  destruct (String.length t =? 0)%nat eqn:Ht0; [reflexivity|].
  destruct (2000 <? String.length t)%nat eqn:Ht1; [reflexivity|].
  exfalso. apply Hv. exists u, t. split; [done | split; [done|]].
  apply Nat.eqb_neq in Hu0, Ht0. apply Nat.ltb_ge in Hu1, Ht1.
  unfold validChat. lia.
Qed.

Lemma chat_without_user_is_dropped :
  ¬ validFrame (VStr "") (VStr "hi")
  ∧ webSocketMessage (H := demoHost) 7 1 (Text (Some (MChat (VStr "") (VStr "hi")))) oneClient
    = (Ret tt, received 7 1 oneClient).
Proof.
  assert (Hv : ¬ validFrame (VStr "") (VStr "hi")).
  { intros (u & t & Hu & _ & [Hlen _] & _). injection Hu as <-. simpl in Hlen. lia. }
  split; [exact Hv|].
  exact (invalid_chat_is_dropped (H := demoHost) 7 1 (VStr "") (VStr "hi") oneClient Hv).
Defined.

(** X26. A chat text of white space only.  Such a text passes the validation
    (its length is counted before trimming) and is trimmed to the empty
    text: an entry with the empty text is appended to the history and
    broadcast.  No command matches the empty text, so nothing else happens,
    unless the room has [aiAutoRespond] set: then an AI turn is triggered for
    the empty message. *)
Theorem blank_chat_is_an_empty_message `{Host}
    (now : Z) (ws : nat) (user text : string) (r : Room) :
  validChat user text →
  Str.trim text = "" →
  let r1 := broadcastChat now user "" (received now ws r) in
  webSocketMessage now ws (Text (Some (MChat (VStr user) (VStr text)))) r
  = (Ret tt,
     if RoomSettings.aiAutoRespond (settings r1)
     then triggerAI now
            ("Respond to the latest message from " +:+ user +:+ ": " +:+ quoted "") r1
     else r1)
  ∧ last (history r1) = Some (ChatEntry.mk user "" now).
Proof.
  intros Hv Ht r1. split.
  - rewrite webSocketMessage_chat by done. rewrite Ht. fold r1.
    unfold chatCommand, bind, gets, exec, ret. cbn.
    by destruct (RoomSettings.aiAutoRespond (settings r1)).
  - subst r1. rewrite history_broadcastChat. unfold last_n.
    rewrite length_app. cbn [length].
    rewrite drop_app_le by (unfold MAX_HISTORY; lia). apply last_snoc.
Qed.

Lemma three_spaces_are_an_empty_message :
  let r1 := broadcastChat 7 "ann" "" (received 7 1 oneClient) in
  validChat "ann" "   "
  ∧ Str.trim "   " = ""
  ∧ webSocketMessage (H := demoHost) 7 1
      (Text (Some (MChat (VStr "ann") (VStr "   ")))) oneClient
    = (Ret tt, r1)
  ∧ history r1 = [ChatEntry.mk "ann" "" 7].
Proof.
  assert (Hv : validChat "ann" "   ") by (unfold validChat; simpl; lia).
  destruct (blank_chat_is_an_empty_message (H := demoHost) 7 1 "ann" "   " oneClient
              Hv eq_refl) as [Hm _].
  split; [exact Hv | split; [reflexivity | split; [exact Hm | reflexivity]]].
Defined.

(** * The [/memory] command *)

Lemma append_literal_nonempty (c : ascii) (s t : string) : String c s +:+ t ≠ "".
Proof. done. Qed.

Lemma join_nonempty (sep p : string) (rest : list string) :
  p ≠ "" → Str.join sep (p :: rest) ≠ "".
Proof.
  intros Hp. destruct rest as [|q rest]; simpl; [done|].
  destruct p; [done | apply append_literal_nonempty].
Qed.

(** The listing of the pinned memory is empty exactly when there is
    nothing to list. *)
Lemma formatPinnedMemory_empty (r : Room) :
  formatPinnedMemory r = ""
  ↔ PinnedMemory.memories (pinned r) = [] ∧ PinnedMemory.todos (pinned r) = [].
Proof.
  unfold formatPinnedMemory.
  destruct (PinnedMemory.memories (pinned r)) as [|m ms],
    (PinnedMemory.todos (pinned r)) as [|t ts]; cbn [length Nat.ltb Nat.leb app].
  - done.
  - split; [|by intros [_ ?]]. intros Hj. by apply join_nonempty in Hj.
  - split; [|by intros [? _]]. intros Hj. by apply join_nonempty in Hj.
  - split; [|by intros [? _]]. intros Hj. by apply join_nonempty in Hj.
Qed.

Lemma chatCommand_memory (now : Z) (user : string) :
  chatCommand now user "/memory"
  = exec (λ r, broadcastSystem now
                 (Str.or_else (formatPinnedMemory r) "No pinned memory yet.") r).
Proof. reflexivity. Qed.

(** X27. The chat text [/memory] is broadcast as a chat message and then
    answered, to every open connection, by a system notice: the listing of
    the pinned memories and todos if there are any, and [No pinned memory
    yet.] exactly when both lists are empty.  The notice is not appended to
    the history and the pinned memory is not changed. *)
Theorem memory_command_lists_or_says_none `{Host}
    (now : Z) (ws : nat) (user : string) (r : Room) :
  (1 ≤ String.length user ≤ 64)%nat →
  let r1 := broadcastChat now user "/memory" (received now ws r) in
  let empty :=
    bool_decide (PinnedMemory.memories (pinned r1) = []
                 ∧ PinnedMemory.todos (pinned r1) = []) in
  webSocketMessage now ws (Text (Some (MChat (VStr user) (VStr "/memory")))) r
  = (Ret tt,
     set_trace
       (trace r1
        ++ sends (FChat (ChatEntry.mk "System"
                           (if empty then "No pinned memory yet."
                            else formatPinnedMemory r1) now)) r1)
       r1)
  ∧ (empty = false → formatPinnedMemory r1 ≠ "").
Proof.
  intros Hu r1 empty. split.
  - rewrite webSocketMessage_chat by (split; [done | simpl; lia]).
    change (Str.trim "/memory") with "/memory". fold r1.
    rewrite chatCommand_memory. unfold exec.
    rewrite broadcastSystem_eq. unfold Str.or_else. subst empty.
    destruct (String.eqb_spec (formatPinnedMemory r1) "") as [He|He].
    + apply formatPinnedMemory_empty in He. by rewrite bool_decide_eq_true_2.
    + rewrite bool_decide_eq_false_2; [done|].
      intros Hp. by apply formatPinnedMemory_empty in Hp.
  - subst empty. intros He Hf. apply formatPinnedMemory_empty in Hf.
    by rewrite bool_decide_eq_true_2 in He.
Qed.

Lemma memory_of_two_todos_is_listed :
  let r1 := broadcastChat 7 "ann" "/memory" (received 7 1 twoTodos) in
  (1 ≤ String.length "ann" ≤ 64)%nat
  ∧ formatPinnedMemory r1
    = "Todos:" +:+ Str.nl +:+ "[0] [ ] buy milk" +:+ Str.nl +:+ "[1] [ ] call bob"
  ∧ trace (webSocketMessage (H := demoHost) 7 1
             (Text (Some (MChat (VStr "ann") (VStr "/memory")))) twoTodos).2
    = trace r1 ++ [Send 1 (FChat (ChatEntry.mk "System" (formatPinnedMemory r1) 7))].
Proof.
  assert (Hu : (1 ≤ String.length "ann" ≤ 64)%nat) by (simpl; lia).
  destruct (memory_command_lists_or_says_none (H := demoHost) 7 1 "ann" twoTodos Hu)
    as [Hm _].
  split; [exact Hu | split; [reflexivity|]]. rewrite Hm. reflexivity.
Defined.

(** * What an eviction can lose of the chat history *)

(** The history that hydration reads from the store. *)
Definition storedHistory (r : Room) : list ChatEntry.t :=
  default [] (sk_history (storage r)).

(** A hydrated actor is ahead of the store by its unflushed entries: its
    history is the stored one followed by at most [historyDirty] entries,
    cut to the last [MAX_HISTORY]. *)
Definition ahead (r : Room) : Prop :=
  loaded r = true
  ∧ (length (storedHistory r) ≤ MAX_HISTORY)%nat
  ∧ (historyDirty r < HISTORY_FLUSH_INTERVAL)%nat
  ∧ ∃ unflushed,
      (length unflushed ≤ historyDirty r)%nat
      ∧ history r = last_n MAX_HISTORY (storedHistory r ++ unflushed).

(** An actor that is not hydrated yet has the history of its constructor
    and no AI turn in flight. *)
Definition recoverable (r : Room) : Prop :=
  (loaded r = true → ahead r)
  ∧ (loaded r = false →
     (length (storedHistory r) ≤ MAX_HISTORY)%nat
     ∧ history r = [] ∧ historyDirty r = 0%nat ∧ pendingAI r = []).

Lemma ahead_eq (r r' : Room) :
  quietHistory r r' → loaded r' = loaded r → ahead r → ahead r'.
Proof.
  intros (Hh & Hs & Hd) Hl. unfold ahead, storedHistory. by rewrite Hh, Hs, Hd, Hl.
Qed.

Section Ahead.
Context `{Host}.

Lemma ahead_quiet (r r' : Room) : quiet r r' → ahead r → ahead r'.
Proof. intros (_ & Hq & Hl). by apply ahead_eq. Qed.

Lemma ahead_ensureLoaded (r : Room) : ahead r → ahead (ensureLoaded r).
Proof. intros Ha. rewrite ensureLoaded_again; [done | apply Ha]. Qed.

Lemma ahead_broadcastChat (now : Z) (user text : string) (r : Room) :
  ahead r → ahead (broadcastChat now user text r).
Proof.
  intros (Hl & Hs & Hd & u & Hu & Hh).
  destruct (broadcastChat_state now user text r) as (Eh & Es & Ed).
  destruct (broadcastChat_frame now user text r) as (_ & _ & El).
  unfold ahead, storedHistory in *. rewrite El, Es, Ed.
  split; [exact Hl|]. destruct (HISTORY_FLUSH_INTERVAL <=? S (historyDirty r))%nat eqn:Hf.
  - cbn [default]. split; [rewrite Eh; apply last_n_length|].
    split; [unfold HISTORY_FLUSH_INTERVAL; lia|].
    exists []. split; [simpl; lia|].
    rewrite app_nil_r. symmetry. apply last_n_short. rewrite Eh. apply last_n_length.
  - apply Nat.leb_gt in Hf. split; [exact Hs | split; [exact Hf|]].
    exists (u ++ [ChatEntry.mk user text now]). split.
    + rewrite length_app. simpl. lia.
    + rewrite Eh, Hh, last_n_app. by rewrite <- app_assoc.
Qed.

Lemma ahead_reset (now : Z) (user : string) (r : Room) :
  ahead r → ahead (reset now user r).2.
Proof.
  intros (Hl & Hs & Hd & _). rewrite reset_eq. unfold ahead, storedHistory.
  destruct r as [socks states [sp sh sa ss al] pend uu nc tr ci cli un ls hb
                 hist pin art sett air ld hd pft].
  cbn in *. split; [exact Hl | split; [lia | split; [exact Hd|]]].
  exists []. split; [simpl; lia | done].
Qed.

Lemma ahead_triggerAI (now : Z) (prompt : string) (r : Room) :
  ahead r → ahead (triggerAI now prompt r).
Proof.
  apply ahead_eq; [apply quietHistory_triggerAI|].
  unfold triggerAI. case_match; [by rewrite broadcastSystem_eq|].
  unfold callAI. by rewrite broadcastSystem_eq.
Qed.

Lemma ahead_generate (now : Z) (kind : TurnKind) (prompt text : string) (r : Room) :
  ahead r → ahead (callAI kind prompt (broadcastSystem now text (set_aiRunning true r))).
Proof.
  apply ahead_eq.
  - etrans; [|apply callAI_state].
    etrans; [|apply quiet_broadcastSystem]. by repeat split.
  - unfold callAI. by rewrite broadcastSystem_eq.
Qed.

Lemma ahead_aiReplied (now : Z) (date : string) (i : nat)
    (reply : outcome AIResult.t) (r : Room) :
  ahead r → ahead (aiReplied now date i reply r).
Proof.
  intros Ha. unfold aiReplied.
  destruct (pendingAI r !! i) as [t|]; [|exact Ha].
  pose proof (quiet_callAI_resume now t reply r) as Hq.
  destruct (callAI_resume now t reply r) as [[text|err|t'] r1]; cbn [snd] in Hq;
    cbv beta iota; apply (ahead_quiet _ _ Hq) in Ha.
  - unfold settle. destruct (Turn.kind t).
    + set (r0 := set_pendingAI _ r1).
      assert (Ha0 : ahead r0) by exact Ha.
      apply (ahead_broadcastChat now "AI" text) in Ha0.
      destruct Ha0 as (Hl & _ & _ & _).
      pose proof (history_broadcastChat now "AI" text r0) as Eh.
      set (r2 := broadcastChat now "AI" text r0) in *.
      unfold ahead, storedHistory. cbn.
      split; [exact Hl | split; [|split; [unfold HISTORY_FLUSH_INTERVAL; lia|]]].
      * change (length (history r2) ≤ MAX_HISTORY)%nat. rewrite Eh. apply last_n_length.
      * exists []. split; [simpl; lia|]. rewrite app_nil_r.
        change (history r2 = last_n MAX_HISTORY (history r2)).
        symmetry. apply last_n_short. rewrite Eh. apply last_n_length.
    + set (r0 := set_pendingAI _ r1).
      eapply ahead_eq; [| |exact Ha].
      * transitivity r0; [by repeat split|].
        transitivity (addArtifact now (Str.or_else title (inferTitle date artifactType))
                        artifactType text userName r0);
          [apply quiet_addArtifact | by repeat split].
      * unfold addArtifact. by rewrite broadcast_eq.
  - rewrite settle_throw. eapply ahead_eq; [| |exact Ha]; by repeat split.
  - eapply ahead_eq; [| |exact Ha]; by repeat split.
Qed.

Lemma ahead_hydrated (r : Room) : recoverable r → ahead (ensureLoaded r).
Proof.
  intros [R1 R2]. destruct (loaded r) eqn:Hl.
  - apply ahead_ensureLoaded. by apply R1.
  - destruct (R2 eq_refl) as (Hs & Hh & Hd & _).
    split; [apply ensureLoaded_loaded|].
    unfold ensureLoaded. rewrite Hl. unfold storedHistory in *.
    destruct r as [socks states [sp sh sa ss al] pend uu nc tr ci cli un ls hb
                   hist pin art sett air ld hd pft].
    cbn in Hs, Hh, Hd. subst hist hd.
    destruct sp as [[mem [items | t ts]]|], sh as [h|], sa, ss; cbn in *;
      (split; [exact Hs | split; [unfold HISTORY_FLUSH_INTERVAL; lia|]]);
      exists []; (split; [simpl; lia|]); rewrite ?app_nil_r;
      symmetry; apply last_n_short; simpl; lia.
Qed.

Lemma recoverable_ahead (r : Room) : ahead r → recoverable r.
Proof. intros Ha. split; [done|]. destruct Ha as [Hl _]. congruence. Qed.

Lemma recoverable_quiet (r r' : Room) : quiet r r' → recoverable r → recoverable r'.
Proof.
  intros Hq [R1 R2]. pose proof Hq as ((_ & Hp) & (Hh & Hs & Hd) & Hl). split.
  - intros L. apply (ahead_quiet r); [done|]. apply R1. congruence.
  - intros L. unfold storedHistory. rewrite Hh, Hs, Hd, Hp. apply R2. congruence.
Qed.

Lemma recoverable_step (now : Z) (ev : Event) (r : Room) :
  recoverable r → recoverable (step now ev r).
Proof.
  intros Hr. destruct ev; simpl.
  - unfold fetch. case_match; [exact Hr|]. apply recoverable_ahead.
    eapply ahead_quiet; [apply quiet_broadcastPresence|].
    eapply ahead_quiet; [apply quiet_ensureHeartbeatAlarm|].
    eapply ahead_quiet; [|apply (ahead_hydrated r Hr)]. by repeat split.
  - unfold webSocketMessage. destruct raw as [|[msg|]]; [done | | done].
    set (r1 := set_lastSeen (<[ws := now]> (lastSeen r)) r).
    assert (H1 : recoverable r1) by (eapply recoverable_quiet; [|exact Hr]; by repeat split).
    assert (Hd : ∀ m : ClientMsg,
               recoverable (bind (exec ensureLoaded) (λ _, dispatch now ws m) r1).2).
    { intros m. unfold bind, exec. apply recoverable_ahead.
      apply (holds_dispatch ahead ahead_quiet ahead_broadcastChat ahead_reset
               ahead_triggerAI).
      - intros now' kind prompt text r' Ha _. by apply ahead_generate.
      - by apply ahead_hydrated. }
    destruct msg; try apply Hd.
    unfold bind, exec. cbn [snd]. eapply recoverable_quiet; [apply quiet_send | exact H1].
  - unfold webSocketClose. eapply recoverable_quiet; [|exact Hr].
    etrans; [apply quiet_cleanup | apply quiet_broadcastPresence].
  - unfold webSocketError. eapply recoverable_quiet; [|exact Hr].
    etrans; [apply quiet_cleanup | apply quiet_broadcastPresence].
  - case_match; [|exact Hr]. eapply recoverable_quiet; [|exact Hr].
    etrans; [|apply quiet_alarm]. by repeat split.
  - case_match; [|exact Hr]. eapply recoverable_quiet; [|exact Hr].
    apply quiet_pinnedFlushFired.
  - destruct (loaded r) eqn:L.
    + apply recoverable_ahead, ahead_aiReplied. by apply Hr.
    + unfold aiReplied. destruct Hr as [R1 R2].
      destruct (R2 L) as (_ & _ & _ & Hp). rewrite Hp.
      change (recoverable r). by split.
  - destruct Hr as [R1 R2]. split; [discriminate|]. intros _.
    change (storedHistory (reactivate r)) with (storedHistory r).
    split; [|done]. destruct (loaded r) eqn:L; [apply (R1 eq_refl) | apply (R2 eq_refl)].
Qed.

End Ahead.

(** X28. An eviction loses at most four chat entries.  In every run of an
    actor that starts as constructed, the history of a hydrated actor is the
    history that an eviction followed by a hydration would give back,
    extended by at most four entries (the entries sent since the last write
    of the history), cut to the last 50. *)
Theorem eviction_loses_at_most_four_entries `{Host}
    (evs : list (Z * Event)) (r : Room) :
  recoverable r →
  let r' := run evs r in
  recoverable r'
  ∧ (loaded r' = true →
     ∃ lost,
       (length lost ≤ 4)%nat
       ∧ history r'
         = last_n MAX_HISTORY (history (ensureLoaded (reactivate r')) ++ lost)).
Proof.
  intros Hr r'.
  assert (Hr' : recoverable r').
  { subst r'. revert r Hr. induction evs as [|[now ev] evs IH]; intros r Hr; [done|].
    apply IH. by apply recoverable_step. }
  split; [exact Hr'|]. intros L. destruct Hr' as [R1 _].
  destruct (R1 L) as (_ & _ & Hd & lost & Hlen & Hh).
  exists lost. split; [unfold HISTORY_FLUSH_INTERVAL in Hd; lia|].
  rewrite Hh. f_equal. f_equal. unfold storedHistory.
  destruct r' as [socks states [sp sh sa ss al] pend uu nc tr ci cli un ls hb
                  hist pin art sett air ld hd pft].
  cbn. by destruct sp as [[mem [items | t ts]]|], sh, sa, ss.
Qed.

(** Seven messages of one client: the fifth is followed by a write of the
    history. *)
Definition sevenMessages : list (Z * Event) :=
  (0, Fetch true 1)
  :: ((λ n : nat, (Z.of_nat n, Message 1 (Text (Some (MChat (VStr "ann") (VStr "hi"))))))
        <$> seq 1 7).

Lemma two_of_seven_messages_are_lost :
  let r' := run (H := demoHost) sevenMessages newRoom in
  recoverable newRoom
  ∧ loaded r' = true
  ∧ length (history r') = 7%nat
  ∧ length (history (ensureLoaded (reactivate r'))) = 5%nat
  ∧ ∃ lost, (length lost ≤ 4)%nat
            ∧ history r'
              = last_n MAX_HISTORY (history (ensureLoaded (reactivate r')) ++ lost).
Proof.
  assert (Hr : recoverable newRoom).
  { split; [discriminate|]. intros _. unfold storedHistory, MAX_HISTORY. simpl.
    split; [lia | done]. }
  destruct (eviction_loses_at_most_four_entries (H := demoHost) sevenMessages newRoom Hr)
    as [_ Hlost].
  split; [exact Hr | split; [reflexivity | split; [reflexivity | split; [reflexivity|]]]].
  exact (Hlost eq_refl).
Defined.
